(** * EOS orchestration services: scheduling core and resource lifecycle guard

    A shallow embedding of
      - [eos/orchestration/services/experiment_service.py] (module [Scheduling])
      - [eos/orchestration/services/loading_service.py]    (module [Loading])

    Python objects become records, [dict]s become insertion-ordered
    association lists, exceptions become the [Raise] branch of [result], and
    the services' methods become computations of a state/exception/trace
    monad: an exception keeps the state reached when it was raised, as in
    Python, and the trace records every call made on a collaborator. *)

From Stdlib Require Import List String ZArith Bool Lia Permutation Sorted.
Import ListNotations.
Open Scope string_scope.
Open Scope list_scope.

(* ================================================================== *)
(** * Exceptions and results *)

Inductive exn : Type :=
| EosExperimentExecutionError
| EosExperimentDoesNotExistError
| EosExperimentTypeInUseError
| EosConfigurationError
| KeyError (key : string)
| OtherException (message : string).

Inductive result (A : Type) : Type :=
| Return (value : A)
| Raise (e : exn).
Arguments Return {A} value.
Arguments Raise {A} e.

Definition is_return {A} (r : result A) : bool :=
  match r with Return _ => true | Raise _ => false end.

Definition is_execution_error (e : exn) : bool :=
  match e with EosExperimentExecutionError => true | _ => false end.

(** Membership test of a string in a list ([x in xs]). *)
Definition mem (x : string) (xs : list string) : bool :=
  existsb (String.eqb x) xs.

(* ================================================================== *)
(** * Python dictionaries

    A [dict] keeps its keys in insertion order; [d[k] = v] on a present key
    overwrites in place, [del d[k]] on an absent key raises [KeyError]
    (here: [None]), [d.pop(k, None)] never raises. *)

Module Dict.
Section Dict.
Context {V : Type}.

Fixpoint get (k : string) (d : list (string * V)) : option V :=
  match d with
  | [] => None
  | (k', v) :: d' => if String.eqb k k' then Some v else get k d'
  end.

Definition contains (k : string) (d : list (string * V)) : bool :=
  match get k d with Some _ => true | None => false end.

Definition keys (d : list (string * V)) : list string := map fst d.

Fixpoint setitem (k : string) (v : V) (d : list (string * V)) : list (string * V) :=
  match d with
  | [] => [(k, v)]
  | (k', v') :: d' =>
      if String.eqb k k' then (k, v) :: d' else (k', v') :: setitem k v d'
  end.

Fixpoint delitem (k : string) (d : list (string * V)) : option (list (string * V)) :=
  match d with
  | [] => None
  | (k', v') :: d' =>
      if String.eqb k k' then Some d'
      else match delitem k d' with
           | Some d'' => Some ((k', v') :: d'')
           | None => None
           end
  end.

Definition pop_default (k : string) (d : list (string * V)) : list (string * V) :=
  match delitem k d with Some d' => d' | None => d end.

(** The object stored under [k] is mutated in place: same key, same place. *)
Fixpoint mutate (k : string) (v : V) (d : list (string * V)) : list (string * V) :=
  match d with
  | [] => []
  | (k', v') :: d' =>
      if String.eqb k k' then (k, v) :: d' else (k', v') :: mutate k v d'
  end.

End Dict.
End Dict.

(* ================================================================== *)
(** * [sorted(items, key=..., reverse=True)]

    Python's [sorted] is stable, and [reverse=True] keeps the original order
    of items with equal keys.  The model is the stable insertion sort into
    descending key order. *)

Section Sorted.
Context {A : Type} (key : A -> Z).

Fixpoint insert_reverse (x : A) (l : list A) : list A :=
  match l with
  | [] => [x]
  | y :: l' =>
      if (key x <? key y)%Z then y :: insert_reverse x l' else x :: y :: l'
  end.

Definition sorted_reverse (l : list A) : list A :=
  fold_right insert_reverse [] l.

End Sorted.

(* ================================================================== *)
(** * The effect monad: state, exceptions, trace of collaborator calls *)

Section Effects.
Context {St Ev : Type}.

Definition M (A : Type) : Type := St -> result A * St * list Ev.

Definition ret {A} (a : A) : M A := fun s => (Return a, s, []).

Definition raise {A} (e : exn) : M A := fun s => (Raise e, s, []).

Definition bind {A B} (m : M A) (k : A -> M B) : M B :=
  fun s =>
    match m s with
    | (Return a, s1, t1) => let '(r, s2, t2) := k a s1 in (r, s2, t1 ++ t2)
    | (Raise e, s1, t1) => (Raise e, s1, t1)
    end.

Definition get : M St := fun s => (Return s, s, []).

Definition modify (f : St -> St) : M unit := fun s => (Return tt, f s, []).

Definition emit (e : Ev) : M unit := fun s => (Return tt, s, [e]).

(** [try: m  except <exceptions selected by handles>: h e] *)
Definition try_except {A} (m : M A) (handles : exn -> bool) (h : exn -> M A) : M A :=
  fun s =>
    match m s with
    | (Raise e, s1, t1) =>
        if handles e then let '(r, s2, t2) := h e s1 in (r, s2, t1 ++ t2)
        else (Raise e, s1, t1)
    | ok => ok
    end.

(** [try: m  finally: f], where [f] cannot raise (a lock release). *)
Definition finally {A} (m : M A) (f : St -> St * list Ev) : M A :=
  fun s =>
    let '(r, s1, t1) := m s in
    let '(s2, t2) := f s1 in (r, s2, t1 ++ t2).

(** [for x in xs: body x] *)
Fixpoint for_each {A} (xs : list A) (body : A -> M unit) : M unit :=
  match xs with
  | [] => ret tt
  | x :: xs' => bind (body x) (fun _ => for_each xs' body)
  end.

Definition outcome {A} (x : result A * St * list Ev) : result A := fst (fst x).
Definition final {A} (x : result A * St * list Ev) : St := snd (fst x).
Definition trace {A} (x : result A * St * list Ev) : list Ev := snd x.

End Effects.

Notation "x <- m ;; k" := (bind m (fun x => k))
  (at level 61, m at next level, right associativity).
Notation "m ;;; k" := (bind m (fun _ => k))
  (at level 61, right associativity).

(* ================================================================== *)
(** * The experiment scheduling core ([experiment_service.py]) *)

Module Scheduling.

(** [ExperimentDefinition]: the fields the service reads. *)
Record ExperimentDefinition : Type := {
  id : string;
  type : string;
  priority : Z }.

(** The executor and its factory are collaborators of the service
    ([ExperimentExecutor], [ExperimentExecutorFactory]).  An executor is a
    mutable object: each call returns what it returned or raised, the
    executor's state after the call and the database after the call. *)
Class ExecutorOps (Executor Db : Type) : Type := {
  ex_experiment_definition : Executor -> ExperimentDefinition;
  factory_create : ExperimentDefinition -> Executor;
  ex_start_experiment : Executor -> Db -> result unit * Executor * Db;
  ex_progress_experiment : Executor -> Db -> result bool * Executor * Db;
  ex_cancel_experiment : Executor -> Db -> result unit * Executor * Db }.

(** What the service asked of its collaborators, with their answers. *)
Inductive event : Type :=
| Created (experiment_definition : ExperimentDefinition)
| Started (experiment_id : string) (answer : result unit)
| Progressed (experiment_id : string) (answer : result bool)
| Cancelling (experiment_id : string) (answer : result unit).

Definition event_id (e : event) : string :=
  match e with
  | Created d => id d
  | Started i _ | Progressed i _ | Cancelling i _ => i
  end.

(** What a pass recorded: the ids whose progress call returned [True], and
    the ids whose progress call raised. *)
Definition is_completed (e : event) : bool :=
  match e with Progressed _ (Return true) => true | _ => false end.

Definition is_failed (e : event) : bool :=
  match e with Progressed _ (Raise _) => true | _ => false end.

Definition completed_of (tr : list event) : list string :=
  map event_id (filter is_completed tr).

Definition failed_of (tr : list event) : list string :=
  map event_id (filter is_failed tr).

Definition is_progressed (e : event) : bool :=
  match e with Progressed _ _ => true | _ => false end.

(** The ids on which a cancellation was attempted, with the answers. *)
Definition is_cancelling (e : event) : bool :=
  match e with Cancelling _ _ => true | _ => false end.

Definition cancel_succeeded (e : event) : bool :=
  match e with Cancelling _ (Return _) => true | _ => false end.

Definition cancelled_ids (tr : list event) : list string :=
  map event_id (filter is_cancelling tr).

Definition maxsize : nat := 100.

Section Service.
Context {Executor Db : Type} {ops : ExecutorOps Executor Db}.

(** [self]: the keys of [configuration_manager.experiments], the submission
    registry, the cancellation queue ([asyncio.Queue(maxsize=100)]), and the
    database the sessions are opened on. *)
Record ExperimentService : Type := {
  configuration_experiments : list string;
  submitted_experiments : list (string * Executor);
  experiment_cancellation_queue : list string;
  db : Db }.

Definition set_submitted (f : list (string * Executor) -> list (string * Executor))
    (s : ExperimentService) : ExperimentService :=
  {| configuration_experiments := configuration_experiments s;
     submitted_experiments := f (submitted_experiments s);
     experiment_cancellation_queue := experiment_cancellation_queue s;
     db := db s |}.

Definition set_queue (q : list string) (s : ExperimentService) : ExperimentService :=
  {| configuration_experiments := configuration_experiments s;
     submitted_experiments := submitted_experiments s;
     experiment_cancellation_queue := q;
     db := db s |}.

Definition set_db (d : Db) (s : ExperimentService) : ExperimentService :=
  {| configuration_experiments := configuration_experiments s;
     submitted_experiments := submitted_experiments s;
     experiment_cancellation_queue := experiment_cancellation_queue s;
     db := d |}.

Definition registry_keys (s : ExperimentService) : list string :=
  Dict.keys (submitted_experiments s).

(** An [async def] of the service. *)
Definition Coroutine := M (St := ExperimentService) (Ev := event).

(** ** [_validate_experiment_type] *)
Definition validate_experiment_type (experiment_type : string) : Coroutine unit :=
  s <- get ;;
  if mem experiment_type (configuration_experiments s) then ret tt
  else raise EosExperimentDoesNotExistError.

(** [await experiment_executor.start_experiment(db)] on an executor that is
    not registered yet: returns the started executor. *)
Definition start (experiment_id : string) (experiment_executor : Executor) : Coroutine Executor :=
  fun s =>
    let '(r, ex', db') := ex_start_experiment experiment_executor (db s) in
    (match r with Return _ => Return ex' | Raise e => Raise e end,
     set_db db' s, [Started experiment_id r]).

(** ** [submit_experiment]
    The submission lock is a plain mutex around lines 61-75; one call runs
    at a time here, so it is not represented. *)
Definition submit_experiment (experiment_definition : ExperimentDefinition) : Coroutine unit :=
  let experiment_id := id experiment_definition in
  let experiment_type := type experiment_definition in
  validate_experiment_type experiment_type ;;;
  s <- get ;;
  if Dict.contains experiment_id (submitted_experiments s) then ret tt
  else
    let experiment_executor := factory_create experiment_definition in
    emit (Created experiment_definition) ;;;
    try_except
      (started <- start experiment_id experiment_executor ;;
       modify (set_submitted (Dict.setitem experiment_id started)))
      is_execution_error
      (fun e =>
         modify (set_submitted (Dict.pop_default experiment_id)) ;;;
         raise e).

(** ** [asyncio.Queue.put] on the bounded queue: with a free slot the id is
    appended; on a full queue the caller is suspended inside [put] and the
    queue is left as it is. *)
Inductive put_status : Type := Enqueued | Suspended | Ignored.

(** ** [cancel_experiment] *)
Definition cancel_experiment (experiment_id : string) : Coroutine put_status :=
  s <- get ;;
  if Dict.contains experiment_id (submitted_experiments s) then
    if Nat.ltb (List.length (experiment_cancellation_queue s)) maxsize then
      modify (set_queue (experiment_cancellation_queue s ++ [experiment_id])) ;;;
      ret Enqueued
    else ret Suspended
  else ret Ignored.

(** ** [_get_sorted_experiments] *)
Definition experiment_priorities (s : ExperimentService) : list (string * Z) :=
  fold_left
    (fun acc item =>
       Dict.setitem (fst item) (priority (ex_experiment_definition (snd item))) acc)
    (submitted_experiments s) [].

(** The sort key [lambda x: experiment_priorities[x[0]]]; every key of the
    registry is a key of [experiment_priorities], so the lookup cannot
    raise. *)
Definition sort_key (priorities : list (string * Z)) (x : string * Executor) : Z :=
  match Dict.get (fst x) priorities with Some p => p | None => 0%Z end.

Definition get_sorted_experiments (s : ExperimentService) : list (string * Executor) :=
  sorted_reverse (sort_key (experiment_priorities s)) (submitted_experiments s).

(** [await experiment_executor.progress_experiment(db)] in a fresh session.
    The executor object is shared by the snapshot and the registry: its
    state after the call is what the registry holds under its id. *)
Definition progress (experiment_id : string) (experiment_executor : Executor) : Coroutine bool :=
  fun s =>
    let '(r, ex', db') := ex_progress_experiment experiment_executor (db s) in
    (r, set_db db' (set_submitted (Dict.mutate experiment_id ex') s),
     [Progressed experiment_id r]).

(** The loop of lines 134-143, with its two accumulators. *)
Fixpoint progress_all (sorted_experiments : list (string * Executor))
    (completed_experiments failed_experiments : list string)
    : Coroutine (list string * list string) :=
  match sorted_experiments with
  | [] => ret (completed_experiments, failed_experiments)
  | (experiment_id, experiment_executor) :: rest =>
      acc <- try_except
               (completed <- progress experiment_id experiment_executor ;;
                ret (if completed : bool
                     then completed_experiments ++ [experiment_id]
                     else completed_experiments,
                     failed_experiments))
               is_execution_error
               (fun _ => ret (completed_experiments,
                              failed_experiments ++ [experiment_id])) ;;
      progress_all rest (fst acc) (snd acc)
  end.

(** [del self._submitted_experiments[experiment_id]] *)
Definition del_submitted (experiment_id : string) : Coroutine unit :=
  s <- get ;;
  match Dict.delitem experiment_id (submitted_experiments s) with
  | Some d => modify (set_submitted (fun _ => d))
  | None => raise (KeyError experiment_id)
  end.

(** ** [process_experiments] *)
Definition process_experiments : Coroutine unit :=
  s <- get ;;
  match submitted_experiments s with
  | [] => ret tt
  | _ =>
      let sorted_experiments := get_sorted_experiments s in
      acc <- progress_all sorted_experiments [] [] ;;
      for_each (fst acc) del_submitted ;;;
      for_each (snd acc) del_submitted
  end.

(** ** [process_experiment_cancellations] *)

(** Lines 163-165.  [get] on a non-empty queue returns at once, so the loop
    runs without suspension and takes what the queue holds. *)
Fixpoint drain (queue experiment_ids : list string) : list string :=
  match queue with
  | [] => experiment_ids
  | exp_id :: queue' => drain queue' (experiment_ids ++ [exp_id])
  end.

(** The inner coroutine [cancel(exp_id)]. *)
Definition cancel (exp_id : string) : Coroutine unit :=
  fun s =>
    match Dict.get exp_id (submitted_experiments s) with
    | None => (Raise (KeyError exp_id), s, [Cancelling exp_id (Raise (KeyError exp_id))])
    | Some executor =>
        let '(r, ex', db') := ex_cancel_experiment executor (db s) in
        (r, set_db db' (set_submitted (Dict.mutate exp_id ex') s),
         [Cancelling exp_id r])
    end.

(** [await asyncio.gather] on the tasks, without [return_exceptions]: every task
    runs; the call raises when one of them raised.  The tasks are run here
    in the order they were created, and the exception reported is the one of
    the first failing task in that order. *)
Fixpoint gather (tasks : list (Coroutine unit)) : Coroutine unit :=
  match tasks with
  | [] => ret tt
  | task :: tasks' =>
      fun s =>
        let '(r1, s1, t1) := task s in
        let '(r2, s2, t2) := gather tasks' s1 in
        (match r1 with Return _ => r2 | Raise e => Raise e end, s2, t1 ++ t2)
  end.

(** [requests] are the ids passed to [cancel_experiment] by other coroutines
    while this call is suspended in [gather]; a call that finds the queue
    empty returns before any suspension. *)
Definition process_experiment_cancellations (requests : list string) : Coroutine unit :=
  s <- get ;;
  let experiment_ids := drain (experiment_cancellation_queue s) [] in
  modify (set_queue []) ;;;
  match experiment_ids with
  | [] => ret tt
  | _ =>
      for_each requests (fun i => cancel_experiment i ;;; ret tt) ;;;
      gather (map cancel experiment_ids) ;;;
      for_each experiment_ids del_submitted
  end.

(** The priority of a registered executor's definition. *)
Definition priority_of (x : string * Executor) : Z :=
  priority (ex_experiment_definition (snd x)).

(** The executor's contract on [progress_experiment]: the only exception it
    raises is [EosExperimentExecutionError]. *)
Definition progress_contract : Prop :=
  forall (ex : Executor) (d : Db) (e : exn) (ex' : Executor) (d' : Db),
    ex_progress_experiment ex d = (Raise e, ex', d') -> e = EosExperimentExecutionError.

(** The parts of the service a pass or a deletion leaves alone. *)
Definition same_frame (s s' : ExperimentService) : Prop :=
  configuration_experiments s' = configuration_experiments s /\
  experiment_cancellation_queue s' = experiment_cancellation_queue s.

End Service.

Arguments ExperimentService Executor Db : clear implicits.

End Scheduling.

(* ================================================================== *)
(** * A scripted executor

    An executable instance of the executor interface, for running the
    service on concrete registries.  The behaviour of an executor is chosen
    by the type of its definition; the database is the journal of the calls
    that reached it. *)

Module Scripted.
Import Scheduling.

Record Executor : Type := {
  definition : ExperimentDefinition;
  progress_calls : nat }.

Definition Db : Type := list string.

Definition create (d : ExperimentDefinition) : Executor :=
  {| definition := d; progress_calls := 0 |}.

Definition start_experiment (ex : Executor) (journal : Db) : result unit * Executor * Db :=
  if String.eqb (type (definition ex)) "bad_start"
  then (Raise EosExperimentExecutionError, ex, journal)
  else (Return tt, ex, journal ++ [("start " ++ id (definition ex))%string]).

(** ["completes"] is done at its first progress call, ["fails_second"]
    raises at its second one, every other type stays unfinished. *)
Definition progress_experiment (ex : Executor) (journal : Db) : result bool * Executor * Db :=
  let ex' := {| definition := definition ex; progress_calls := S (progress_calls ex) |} in
  let journal' := journal ++ [("progress " ++ id (definition ex))%string] in
  if String.eqb (type (definition ex)) "completes" then (Return true, ex', journal')
  else if String.eqb (type (definition ex)) "fails_second" then
    match progress_calls ex with
    | O => (Return false, ex', journal')
    | _ => (Raise EosExperimentExecutionError, ex', journal)
    end
  else (Return false, ex', journal').

Definition cancel_experiment (ex : Executor) (journal : Db) : result unit * Executor * Db :=
  if String.eqb (type (definition ex)) "bad_cancel"
  then (Raise EosExperimentExecutionError, ex, journal)
  else (Return tt, ex, journal ++ [("cancel " ++ id (definition ex))%string]).

#[export] Instance scripted_ops : ExecutorOps Executor Db := {
  ex_experiment_definition := definition;
  factory_create := create;
  ex_start_experiment := start_experiment;
  ex_progress_experiment := progress_experiment;
  ex_cancel_experiment := cancel_experiment }.

Definition experiment (i t : string) (p : Z) : ExperimentDefinition :=
  {| id := i; type := t; priority := p |}.

Definition registered (i t : string) (p : Z) : string * Executor :=
  (i, create (experiment i t p)).

Definition service (types : list string) (registry : list (string * Executor))
    (queue : list string) : ExperimentService Executor Db :=
  {| configuration_experiments := types;
     submitted_experiments := registry;
     experiment_cancellation_queue := queue;
     db := [] |}.


(** Three registered experiments with priorities 5, 1, 5. *)
Definition three : ExperimentService Executor Db :=
  service ["idle"] [registered "a" "idle" 5; registered "b" "idle" 1;
                    registered "c" "idle" 5] [].

(** [B] was progressed once already and fails at its next progress call;
    [A] completes. *)
Definition second_tick : ExperimentService Executor Db :=
  service ["completes"; "fails_second"]
    [("B", {| definition := experiment "B" "fails_second" 1; progress_calls := 1 |});
     registered "A" "completes" 10] [].

(** ["a"] is queued for cancellation twice. *)
Definition queued_twice : ExperimentService Executor Db :=
  service ["idle"] [registered "a" "idle" 5; registered "b" "idle" 1] ["a"; "a"].

(** ["a"] cancels, ["b"] does not. *)
Definition mixed : ExperimentService Executor Db :=
  service ["idle"; "bad_cancel"]
    [registered "a" "idle" 5; registered "b" "bad_cancel" 1] ["a"; "b"].

End Scripted.

(* ================================================================== *)
(** * The resource lifecycle guard ([loading_service.py]) *)

Module Loading.

(** Modelled from the spec: the statuses of the persisted [Experiment] and
    [Task] entities ([ExperimentStatus], [TaskStatus]), whose declarations
    are outside the two service files. *)
Inductive ExperimentStatus : Type :=
| EXPERIMENT_CREATED | EXPERIMENT_RUNNING | EXPERIMENT_COMPLETED
| EXPERIMENT_FAILED | EXPERIMENT_CANCELLED.

Inductive TaskStatus : Type :=
| TASK_CREATED | TASK_RUNNING | TASK_COMPLETED | TASK_FAILED.

Definition experiment_status_eqb (a b : ExperimentStatus) : bool :=
  match a, b with
  | EXPERIMENT_CREATED, EXPERIMENT_CREATED
  | EXPERIMENT_RUNNING, EXPERIMENT_RUNNING
  | EXPERIMENT_COMPLETED, EXPERIMENT_COMPLETED
  | EXPERIMENT_FAILED, EXPERIMENT_FAILED
  | EXPERIMENT_CANCELLED, EXPERIMENT_CANCELLED => true
  | _, _ => false
  end.

Definition task_status_eqb (a b : TaskStatus) : bool :=
  match a, b with
  | TASK_CREATED, TASK_CREATED
  | TASK_RUNNING, TASK_RUNNING
  | TASK_COMPLETED, TASK_COMPLETED
  | TASK_FAILED, TASK_FAILED => true
  | _, _ => false
  end.

(** The fields of the entities and configurations that the service reads. *)
Record Experiment : Type := {
  experiment_id : string;
  experiment_type : string;
  experiment_status : ExperimentStatus }.

Record TaskDevice : Type := {
  device_lab : string;
  device_id : string }.

Record Task : Type := {
  task_id : string;
  task_status : TaskStatus;
  task_experiment_id : option string;
  task_devices : list TaskDevice }.

Record ExperimentConfig : Type := {
  config_labs : list string }.

(** [lab_config.devices]: device id to device type. *)
Record LabConfig : Type := {
  lab_devices : list (string * string) }.

(** [loaded_labs=...] or [unloaded_labs=...] of [update_devices] and
    [update_containers]. *)
Inductive delta : Type :=
| loaded_labs (labs : list string)
| unloaded_labs (labs : list string).

(** The collaborators whose code is outside the service: the configuration
    manager with its package manager, its device plugin registry
    ([configuration_manager.devices], an object of its own: reloading a
    plugin changes the registry and nothing else), the device manager and
    the container manager.  A call returns what it returned or raised and
    the collaborator's state after it. *)
Class Managers (Configuration Plugins Devices Containers : Type) : Type := {
  experiments : Configuration -> list (string * ExperimentConfig);
  read_lab_config : Configuration -> string -> result LabConfig;
  cm_load_labs : list string -> Configuration -> result unit * Configuration;
  cm_unload_labs : list string -> Configuration -> result unit * Configuration;
  cm_load_experiments : list string -> Configuration -> result unit * Configuration;
  reload_plugin : string -> Plugins -> result unit * Plugins;
  update_devices : delta -> Devices -> result unit * Devices;
  update_containers : delta -> Containers -> result unit * Containers }.

Inductive event : Type :=
| Acquired
| Released
| CheckedLabUsage (lab_id : string)
| ReadLabConfig (lab_type : string)
| ReloadedPlugin (device_type : string)
| ConfigurationLoadLabs (labs : list string)
| ConfigurationUnloadLabs (labs : list string)
| ConfigurationLoadExperiments (experiment_types : list string)
| UpdatedDevices (d : delta)
| UpdatedContainers (d : delta).

(** An event that changes labs, devices, containers or experiments. *)
Definition is_mutation (e : event) : bool :=
  match e with
  | ConfigurationLoadLabs _ | ConfigurationUnloadLabs _
  | ConfigurationLoadExperiments _ | UpdatedDevices _ | UpdatedContainers _ => true
  | _ => false
  end.

Definition is_check (e : event) : bool :=
  match e with CheckedLabUsage _ => true | _ => false end.

Definition is_plugin_event (e : event) : bool :=
  match e with ReadLabConfig _ | ReloadedPlugin _ => true | _ => false end.

Definition is_plain (e : event) : bool :=
  match e with Acquired | Released => false | _ => true end.


(** Is the lock held at every usage check, and then kept (not released
    down to depth 0) for as long as a mutation is still to come?  [checked]
    tells whether a check was already seen. *)
Fixpoint one_critical_section (checked : bool) (depth : nat) (tr : list event) : bool :=
  match tr with
  | [] => true
  | Acquired :: tr' => one_critical_section checked (S depth) tr'
  | Released :: tr' =>
      (negb checked || Nat.ltb 1 depth || negb (existsb is_mutation tr'))
      && one_critical_section checked (Nat.pred depth) tr'
  | CheckedLabUsage _ :: tr' => Nat.ltb 0 depth && one_critical_section true depth tr'
  | _ :: tr' => one_critical_section checked depth tr'
  end.

Section Service.
Context {Configuration Plugins Devices Containers : Type}
        {managers : Managers Configuration Plugins Devices Containers}.

(** [self] and the tables its managers query: [loading_lock] is the depth
    of the reentrant lock held by the running call. *)
Record LoadingService : Type := {
  configuration_manager : Configuration;
  device_plugins : Plugins;
  device_manager : Devices;
  container_manager : Containers;
  experiment_table : list Experiment;
  task_table : list Task;
  loading_lock : nat }.

Definition set_configuration (c : Configuration) (s : LoadingService) : LoadingService :=
  {| configuration_manager := c; device_plugins := device_plugins s;
     device_manager := device_manager s; container_manager := container_manager s;
     experiment_table := experiment_table s; task_table := task_table s;
     loading_lock := loading_lock s |}.

Definition set_plugins (p : Plugins) (s : LoadingService) : LoadingService :=
  {| configuration_manager := configuration_manager s; device_plugins := p;
     device_manager := device_manager s; container_manager := container_manager s;
     experiment_table := experiment_table s; task_table := task_table s;
     loading_lock := loading_lock s |}.

Definition set_devices (d : Devices) (s : LoadingService) : LoadingService :=
  {| configuration_manager := configuration_manager s; device_plugins := device_plugins s;
     device_manager := d; container_manager := container_manager s;
     experiment_table := experiment_table s; task_table := task_table s;
     loading_lock := loading_lock s |}.

Definition set_containers (c : Containers) (s : LoadingService) : LoadingService :=
  {| configuration_manager := configuration_manager s; device_plugins := device_plugins s;
     device_manager := device_manager s; container_manager := c;
     experiment_table := experiment_table s; task_table := task_table s;
     loading_lock := loading_lock s |}.

Definition set_lock (n : nat) (s : LoadingService) : LoadingService :=
  {| configuration_manager := configuration_manager s; device_plugins := device_plugins s;
     device_manager := device_manager s; container_manager := container_manager s;
     experiment_table := experiment_table s; task_table := task_table s;
     loading_lock := n |}.

(** An [async def] of the service. *)
Definition Coroutine := M (St := LoadingService) (Ev := event).

(** A call on a collaborator: its answer, its new state, one event. *)
Definition call {T : Type} (project : LoadingService -> T)
    (update : T -> LoadingService -> LoadingService)
    (method : T -> result unit * T) (e : event) : Coroutine unit :=
  fun s => let '(r, t') := method (project s) in (r, update t' s, [e]).

(** [async with self._loading_lock: body]; the lock is reentrant and is
    released on every way out of the body. *)
Definition with_loading_lock {A} (body : Coroutine A) : Coroutine A :=
  finally
    (modify (fun s => set_lock (S (loading_lock s)) s) ;;; emit Acquired ;;; body)
    (fun s => (set_lock (Nat.pred (loading_lock s)) s, [Released])).

(** [experiment_manager.get_experiments(db, status=RUNNING)] and
    [task_manager.get_tasks(db, status=...)]: the rows with that status. *)
Definition get_experiments (status : ExperimentStatus) (s : LoadingService) : list Experiment :=
  filter (fun e => experiment_status_eqb (experiment_status e) status) (experiment_table s).

Definition get_tasks (status : TaskStatus) (s : LoadingService) : list Task :=
  filter (fun t => task_status_eqb (task_status t) status) (task_table s).

(** ** [_check_experiments_using_lab]: the comprehension looks every running
    experiment's type up in [configuration_manager.experiments]. *)
Fixpoint experiments_using_lab (configured : list (string * ExperimentConfig))
    (lab_id : string) (running_experiments : list Experiment) : result (list Experiment) :=
  match running_experiments with
  | [] => Return []
  | experiment :: rest =>
      match Dict.get (experiment_type experiment) configured with
      | None => Raise (KeyError (experiment_type experiment))
      | Some config =>
          match experiments_using_lab configured lab_id rest with
          | Return using_experiments =>
              Return (if mem lab_id (config_labs config)
                      then experiment :: using_experiments else using_experiments)
          | Raise e => Raise e
          end
      end
  end.

Definition check_experiments_using_lab (lab_id : string) (s : LoadingService)
    : result (list Experiment) :=
  experiments_using_lab (experiments (configuration_manager s)) lab_id
    (get_experiments EXPERIMENT_RUNNING s).

(** ** [_check_tasks_using_devices] *)

(** [not (task.experiment_id and task.experiment_id != "on_demand")] *)
Definition standalone (task : Task) : bool :=
  match task_experiment_id task with
  | None => true
  | Some i => String.eqb i "" || String.eqb i "on_demand"
  end.

Definition uses_device (lab_id : string) (device_ids : option (list string))
    (task : Task) : bool :=
  existsb
    (fun device_config =>
       String.eqb (device_lab device_config) lab_id
       && match device_ids with
          | None => true
          | Some ids => mem (device_id device_config) ids
          end)
    (task_devices task).

Definition check_tasks_using_devices (lab_id : string) (device_ids : option (list string))
    (s : LoadingService) : list Task :=
  let active_tasks := get_tasks TASK_RUNNING s ++ get_tasks TASK_CREATED s in
  filter (fun task => standalone task && uses_device lab_id device_ids task) active_tasks.

(** ** [_check_lab_usage] *)
Definition lab_usage (lab_id : string) (s : LoadingService) : result unit :=
  match check_experiments_using_lab lab_id s with
  | Raise e => Raise e
  | Return (_ :: _) => Raise EosExperimentTypeInUseError
  | Return [] =>
      match check_tasks_using_devices lab_id None s with
      | _ :: _ => Raise EosExperimentTypeInUseError
      | [] => Return tt
      end
  end.

Definition check_lab_usage (lab_id : string) : Coroutine unit :=
  fun s => (lab_usage lab_id s, s, [CheckedLabUsage lab_id]).

(** ** [load_labs] *)
Definition load_labs (labs : list string) : Coroutine unit :=
  with_loading_lock
    (call configuration_manager set_configuration (cm_load_labs labs)
       (ConfigurationLoadLabs labs) ;;;
     call device_manager set_devices (update_devices (loaded_labs labs))
       (UpdatedDevices (loaded_labs labs)) ;;;
     call container_manager set_containers (update_containers (loaded_labs labs))
       (UpdatedContainers (loaded_labs labs))).

(** ** [unload_labs]; the [except] clause logs and re-raises. *)
Definition unload_labs (labs : list string) : Coroutine unit :=
  for_each labs check_lab_usage ;;;
  with_loading_lock
    (call configuration_manager set_configuration (cm_unload_labs labs)
       (ConfigurationUnloadLabs labs) ;;;
     call device_manager set_devices (update_devices (unloaded_labs labs))
       (UpdatedDevices (unloaded_labs labs)) ;;;
     call container_manager set_containers (update_containers (unloaded_labs labs))
       (UpdatedContainers (unloaded_labs labs))).

(** ** [_get_experiments_for_labs]; it returns a set, which the model keeps
    as a list without repeats, in an order of its own choosing. *)
Definition depends_on (lab_types : list string) (experiment_config : ExperimentConfig) : bool :=
  existsb (fun lab_type => mem lab_type (config_labs experiment_config)) lab_types.

Definition set_add (x : string) (xs : list string) : list string :=
  if mem x xs then xs else xs ++ [x].

Definition get_experiments_for_labs (lab_types : list string)
    (configured : list (string * ExperimentConfig)) : list string :=
  fold_left
    (fun experiments_to_reload item =>
       if depends_on lab_types (snd item)
       then set_add (fst item) experiments_to_reload
       else experiments_to_reload)
    configured [].

(** ** [load_experiments] *)
Definition load_experiments (experiment_types : list string) : Coroutine unit :=
  match experiment_types with
  | [] => ret tt
  | _ => call configuration_manager set_configuration
           (cm_load_experiments experiment_types)
           (ConfigurationLoadExperiments experiment_types)
  end.

(** The set of device types of a lab: each type once.  The iteration order
    of a Python set is not specified; the model fixes one. *)
Definition device_types_of (lab_config : LabConfig) : list string :=
  nodup string_dec (map snd (lab_devices lab_config)).

(** Lines 65-72 of [reload_labs], for one lab: the plugin code of every
    device type of the lab is reloaded. *)
Definition reload_plugins_of (lab_type : string) : Coroutine unit :=
  lab_config <- (fun s => (read_lab_config (configuration_manager s) lab_type, s,
                           [ReadLabConfig lab_type])) ;;
  for_each (device_types_of lab_config)
    (fun device_type =>
       call device_plugins set_plugins (reload_plugin device_type)
         (ReloadedPlugin device_type)).

(** Lines 64-72 of [reload_labs]: the loop over the labs, before the lock
    is taken. *)
Definition reload_device_plugins (lab_types : list string) : Coroutine unit :=
  for_each lab_types reload_plugins_of.

(** Lines 75-94 of [reload_labs], the body of its [async with]. *)
Definition reload_labs_critical_section (lab_types : list string) : Coroutine unit :=
  s <- get ;;
  let experiments_to_reload :=
    get_experiments_for_labs lab_types (experiments (configuration_manager s)) in
  for_each lab_types check_lab_usage ;;;
  call configuration_manager set_configuration (cm_unload_labs lab_types)
    (ConfigurationUnloadLabs lab_types) ;;;
  call device_manager set_devices (update_devices (unloaded_labs lab_types))
    (UpdatedDevices (unloaded_labs lab_types)) ;;;
  call container_manager set_containers (update_containers (unloaded_labs lab_types))
    (UpdatedContainers (unloaded_labs lab_types)) ;;;
  call configuration_manager set_configuration (cm_load_labs lab_types)
    (ConfigurationLoadLabs lab_types) ;;;
  call device_manager set_devices (update_devices (loaded_labs lab_types))
    (UpdatedDevices (loaded_labs lab_types)) ;;;
  call container_manager set_containers (update_containers (loaded_labs lab_types))
    (UpdatedContainers (loaded_labs lab_types)) ;;;
  load_experiments experiments_to_reload.

(** ** [reload_labs] *)
Definition reload_labs (lab_types : list string) : Coroutine unit :=
  reload_device_plugins lab_types ;;;
  with_loading_lock (reload_labs_critical_section lab_types).

(** Everything but the device plugin registry is the same in [s] and [s']. *)
Definition same_resources (s s' : LoadingService) : Prop :=
  configuration_manager s' = configuration_manager s /\
  device_manager s' = device_manager s /\
  container_manager s' = container_manager s /\
  experiment_table s' = experiment_table s /\
  task_table s' = task_table s /\
  loading_lock s' = loading_lock s.

(** The lab usage predicate in the words of the specification: a RUNNING
    experiment whose configured lab set includes the lab, or a standalone
    task, RUNNING or CREATED, one of whose devices is in the lab. *)
Definition spec_lab_in_use (lab_id : string) (s : LoadingService) : Prop :=
  (exists experiment config,
     In experiment (experiment_table s) /\
     experiment_status experiment = EXPERIMENT_RUNNING /\
     Dict.get (experiment_type experiment) (experiments (configuration_manager s))
       = Some config /\
     In lab_id (config_labs config)) \/
  (exists task device,
     In task (task_table s) /\
     (task_status task = TASK_RUNNING \/ task_status task = TASK_CREATED) /\
     standalone task = true /\
     In device (task_devices task) /\ device_lab device = lab_id).

(** Every RUNNING experiment is of a loaded experiment type. *)
Definition running_types_loaded (s : LoadingService) : Prop :=
  forall experiment,
    In experiment (experiment_table s) ->
    experiment_status experiment = EXPERIMENT_RUNNING ->
    Dict.contains (experiment_type experiment) (experiments (configuration_manager s)) = true.

End Service.

Arguments LoadingService Configuration Plugins Devices Containers : clear implicits.

End Loading.

(* ================================================================== *)
(** * A resource store

    An executable instance of the managers' interface, for running the
    guard on concrete configurations. *)

Module Store.
Import Loading.

(** Modelled from the spec: the Resource Store kept by the configuration
    manager (its code is outside the two service files).  It holds the lab
    and experiment definitions that can be read from the packages and those
    that are loaded; unloading a lab makes the experiment types that
    reference it disappear with it, and an experiment type loads only when
    its labs are loaded. *)
Record Configuration : Type := {
  lab_packages : list (string * LabConfig);
  experiment_packages : list (string * ExperimentConfig);
  labs : list (string * LabConfig);
  loaded_experiments : list (string * ExperimentConfig) }.

Definition with_labs (l : list (string * LabConfig)) (c : Configuration) : Configuration :=
  {| lab_packages := lab_packages c; experiment_packages := experiment_packages c;
     labs := l; loaded_experiments := loaded_experiments c |}.

Definition with_experiments (e : list (string * ExperimentConfig)) (c : Configuration)
    : Configuration :=
  {| lab_packages := lab_packages c; experiment_packages := experiment_packages c;
     labs := labs c; loaded_experiments := e |}.

(** Runs [step] over [xs] until one step raises. *)
Fixpoint each {T : Type} (step : string -> T -> result unit * T) (xs : list string) (t : T)
    : result unit * T :=
  match xs with
  | [] => (Return tt, t)
  | x :: xs' =>
      match step x t with
      | (Return _, t') => each step xs' t'
      | (Raise e, t') => (Raise e, t')
      end
  end.

Definition read_lab (c : Configuration) (lab_type : string) : result LabConfig :=
  match Dict.get lab_type (lab_packages c) with
  | Some lab_config => Return lab_config
  | None => Raise EosConfigurationError
  end.

Definition load_lab (lab_type : string) (c : Configuration) : result unit * Configuration :=
  match Dict.get lab_type (lab_packages c) with
  | Some lab_config => (Return tt, with_labs (Dict.setitem lab_type lab_config (labs c)) c)
  | None => (Raise EosConfigurationError, c)
  end.

Definition unload_lab (lab_type : string) (c : Configuration) : result unit * Configuration :=
  match Dict.delitem lab_type (labs c) with
  | Some remaining =>
      (Return tt,
       with_experiments
         (filter (fun item => negb (mem lab_type (config_labs (snd item))))
            (loaded_experiments c))
         (with_labs remaining c))
  | None => (Raise EosConfigurationError, c)
  end.

Definition load_experiment (experiment_type : string) (c : Configuration)
    : result unit * Configuration :=
  match Dict.get experiment_type (experiment_packages c) with
  | Some config =>
      if forallb (fun lab => Dict.contains lab (labs c)) (config_labs config)
      then (Return tt,
            with_experiments (Dict.setitem experiment_type config (loaded_experiments c)) c)
      else (Raise EosConfigurationError, c)
  | None => (Raise EosConfigurationError, c)
  end.

(** The device plugin registry: how often each device type was reloaded,
    and the device types whose plugin code does not load. *)
Record Plugins : Type := {
  reloads : list string;
  broken : list string }.

Definition reload (device_type : string) (p : Plugins) : result unit * Plugins :=
  if mem device_type (broken p) then (Raise (OtherException device_type), p)
  else (Return tt, {| reloads := reloads p ++ [device_type]; broken := broken p |}).

(** The device and container managers: the labs whose devices (containers)
    they currently hold. *)
Definition update (d : delta) (held : list string) : result unit * list string :=
  match d with
  | loaded_labs l => (Return tt, held ++ filter (fun x => negb (mem x held)) l)
  | unloaded_labs l => (Return tt, filter (fun x => negb (mem x l)) held)
  end.

#[export] Instance store_managers
  : Managers Configuration Plugins (list string) (list string) := {
  experiments := loaded_experiments;
  read_lab_config := read_lab;
  cm_load_labs := each load_lab;
  cm_unload_labs := each unload_lab;
  cm_load_experiments := each load_experiment;
  reload_plugin := reload;
  update_devices := update;
  update_containers := update }.


Definition lab1 : LabConfig :=
  {| lab_devices := [("mixer", "stirrer"); ("mixer2", "stirrer"); ("scale", "balance")] |}.

Definition store : Configuration :=
  {| lab_packages := [("lab1", lab1)];
     experiment_packages := [("titration", {| config_labs := ["lab1"] |})];
     labs := [("lab1", lab1)];
     loaded_experiments := [("titration", {| config_labs := ["lab1"] |})] |}.

Definition guard (experiment_rows : list Experiment)
  : LoadingService Configuration Plugins (list string) (list string) :=
  {| configuration_manager := store;
     device_plugins := {| reloads := []; broken := [] |};
     device_manager := ["lab1"];
     container_manager := ["lab1"];
     experiment_table := experiment_rows;
     task_table := [];
     loading_lock := 0 |}.

(** No experiment is running. *)
Definition idle := guard [].

(** An experiment of type [titration], which uses [lab1], is running. *)
Definition busy :=
  guard [{| experiment_id := "e1"; experiment_type := "titration";
            experiment_status := EXPERIMENT_RUNNING |}].

End Store.

(* ================================================================== *)
(** * The example device and its tasks
    ([user/example/devices/stateful_counter/device.py] and the three tasks
    under [user/example/tasks]) *)

Module Counter.

(** [CounterState]; a Python [int] is unbounded. *)
Record CounterState : Type := {
  value : Z }.

(** [_initialize]: [init_parameters.get("initial", 0)]. *)
Definition initialize (initial : option Z) : CounterState :=
  {| value := match initial with Some v => v | None => 0%Z end |}.

(** The methods mutate [self.state]: each returns what the method returns
    and the state after the call. *)
Definition increment (amount : Z) (self : CounterState) : Z * CounterState :=
  let new_value := (value self + amount)%Z in (new_value, {| value := new_value |}).

Definition decrement (amount : Z) (self : CounterState) : Z * CounterState :=
  let new_value := (value self - amount)%Z in (new_value, {| value := new_value |}).

(** [get_state()["value"]] and [_report()["value"]] *)
Definition get_state (self : CounterState) : Z := value self.

Definition set_state (v : Z) (self : CounterState) : CounterState :=
  {| value := v |}.

(** One entry of [ops]: a dictionary read through [op.get("action")],
    [op.get("amount", 1)] and [op.get("value", 0)]. *)
Record Operation : Type := {
  action : option string;
  amount : option Z;
  operation_value : option Z }.

Definition apply_operation (op : Operation) (self : CounterState) : CounterState :=
  match action op with
  | Some a =>
      if String.eqb a "increment" then
        snd (increment (match amount op with Some n => n | None => 1%Z end) self)
      else if String.eqb a "decrement" then
        snd (decrement (match amount op with Some n => n | None => 1%Z end) self)
      else if String.eqb a "set" then
        set_state (match operation_value op with Some v => v | None => 0%Z end) self
      else self
  | None => self
  end.

(** [apply_operations] *)
Definition apply_operations (ops : list Operation) (self : CounterState) : Z * CounterState :=
  let final_state := fold_left (fun state op => apply_operation op state) ops self in
  (value final_state, final_state).

(** What a task's [_execute] can raise here: [...[0]] on an empty list and
    [parameters[...]] on a missing key. *)
Inductive task_error : Type :=
| IndexError
| MissingKey (key : string).

(** The tasks take [devices.get_all_by_type("stateful_counter")], the list
    of the counters they were given, and use its first element; they return
    the ["value"] entry of their output and the counters after the call. *)
Definition with_first_counter {P : Type} (counters : list CounterState)
    (parameter : option P) (key : string)
    (body : P -> CounterState -> Z * CounterState)
    : task_error + (Z * list CounterState) :=
  match counters with
  | [] => inl IndexError
  | counter :: others =>
      match parameter with
      | None => inl (MissingKey key)
      | Some p => let '(output, counter') := body p counter in
                  inr (output, counter' :: others)
      end
  end.

(** [IncrementCounter._execute] with [parameters["amount"]] *)
Definition increment_counter (counters : list CounterState) (amount_parameter : option Z) :=
  with_first_counter counters amount_parameter "amount" increment.

(** [SetCounter._execute] with [parameters["value"]] *)
Definition set_counter (counters : list CounterState) (value_parameter : option Z) :=
  with_first_counter counters value_parameter "value"
    (fun v counter => let counter' := set_state v counter in (get_state counter', counter')).

(** [BatchUpdateCounter._execute] with [parameters["operations"]] *)
Definition batch_update_counter (counters : list CounterState)
    (operations_parameter : option (list Operation)) :=
  with_first_counter counters operations_parameter "operations" apply_operations.

(** The operations that one of the single tasks performs as well. *)
Definition increment_operation (n : Z) : Operation :=
  {| action := Some "increment"; amount := Some n; operation_value := None |}.

Definition decrement_operation (n : Z) : Operation :=
  {| action := Some "decrement"; amount := Some n; operation_value := None |}.

Definition set_operation (v : Z) : Operation :=
  {| action := Some "set"; amount := None; operation_value := Some v |}.

(** The change an operation makes to the counter when it is no ["set"]. *)
Definition delta (op : Operation) : Z :=
  match action op with
  | Some a =>
      if String.eqb a "increment" then match amount op with Some n => n | None => 1%Z end
      else if String.eqb a "decrement"
           then (- match amount op with Some n => n | None => 1%Z end)%Z
      else 0%Z
  | None => 0%Z
  end.

Definition is_set (op : Operation) : bool :=
  match action op with Some a => String.eqb a "set" | None => false end.

Definition is_known (op : Operation) : bool :=
  match action op with
  | Some a => String.eqb a "increment" || String.eqb a "decrement" || String.eqb a "set"
  | None => false
  end.

(** A call of one of the single tasks, and calls made one after another on
    the same devices: the output is the one of the last call. *)
Inductive single_task : Type :=
| Increment (amount_parameter : Z)
| SetValue (value_parameter : Z).

Definition operation_of (t : single_task) : Operation :=
  match t with
  | Increment n => increment_operation n
  | SetValue v => set_operation v
  end.

Definition run_task (t : single_task) (counters : list CounterState) :=
  match t with
  | Increment n => increment_counter counters (Some n)
  | SetValue v => set_counter counters (Some v)
  end.

Fixpoint run_tasks (tasks : list single_task) (counters : list CounterState) (output : Z)
    : task_error + (Z * list CounterState) :=
  match tasks with
  | [] => inr (output, counters)
  | t :: tasks' =>
      match run_task t counters with
      | inl e => inl e
      | inr (output', counters') => run_tasks tasks' counters' output'
      end
  end.

End Counter.

(* ================================================================== *)
(** * An executor that crashes

    The scripted executor, except that progressing an experiment of type
    ["crashes"] raises an exception that is no
    [EosExperimentExecutionError]. *)

Module Crashing.
Import Scheduling.

Definition progress_experiment (ex : Scripted.Executor) (journal : Scripted.Db)
    : result bool * Scripted.Executor * Scripted.Db :=
  if String.eqb (type (Scripted.definition ex)) "crashes"
  then (Raise (OtherException "crash"), ex, journal)
  else Scripted.progress_experiment ex journal.

Definition crashing_ops : ExecutorOps Scripted.Executor Scripted.Db := {|
  ex_experiment_definition := Scripted.definition;
  factory_create := Scripted.create;
  ex_start_experiment := Scripted.start_experiment;
  ex_progress_experiment := progress_experiment;
  ex_cancel_experiment := Scripted.cancel_experiment |}.

(** ["a"] completes, ["b"] crashes, ["c"] is never reached. *)
Definition crash_in_the_middle : ExperimentService Scripted.Executor Scripted.Db :=
  Scripted.service ["completes"; "crashes"; "idle"]
    [Scripted.registered "c" "idle" 1; Scripted.registered "b" "crashes" 5;
     Scripted.registered "a" "completes" 9] [].

(** ["gone"] was queued for cancellation and is registered no more. *)
Definition stale_request : ExperimentService Scripted.Executor Scripted.Db :=
  Scripted.service ["idle"] [Scripted.registered "a" "idle" 5] ["a"; "gone"].

(** Two registered experiments, both queued for cancellation. *)
Definition both_queued : ExperimentService Scripted.Executor Scripted.Db :=
  Scripted.service ["idle"]
    [Scripted.registered "a" "idle" 5; Scripted.registered "b" "idle" 5] ["b"; "a"].

End Crashing.

(* ================================================================== *)
(** * The resource lifecycle guard, continued: devices, experiment types
    and task plugins ([loading_service.py], lines 99-114, 139-179, 228-269
    and 292-330) *)

Module Reconfiguration.
Import Loading.

(** A task of an experiment's task graph, as [_check_experiments_using_devices]
    reads it: [task.lab] and the device ids found in [task.devices]. *)
Record GraphTask : Type := {
  graph_task_lab : string;
  graph_task_devices : list string }.

(** What these operations ask of the collaborators, beside [Managers]: the
    keys of [configuration_manager.labs], the task graph of a loaded
    experiment type, [configuration_manager.unload_experiments], the task
    plugin registry [configuration_manager.tasks] (a part of the
    configuration manager), [device_manager.reload_devices], and the query
    [task_manager.get_tasks(db, status=..., type=...)]. *)
Class DeviceManagers (Configuration Devices : Type) : Type := {
  loaded_lab_types : Configuration -> list string;
  task_graph_tasks : Configuration -> string -> list GraphTask;
  cm_unload_experiments : list string -> Configuration -> result unit * Configuration;
  tasks_reload_plugin : string -> Configuration -> result unit * Configuration;
  dm_reload_devices : string -> list string -> Devices -> result unit * Devices;
  get_tasks_of_type : TaskStatus -> string -> list Task -> list Task }.

Inductive step : Type :=
| Guard (e : event)
| CheckedExperimentUsage (experiment_type : string)
| CheckedTaskUsage (task_type : string)
| CheckedDeviceUsage (lab_id : string) (device_ids : list string)
| ConfigurationUnloadExperiments (experiment_types : list string)
| ReloadedTaskPlugin (task_type : string)
| ReloadedDevices (lab_id : string) (device_ids : list string).

Definition is_usage_check (e : step) : bool :=
  match e with
  | CheckedExperimentUsage _ | CheckedTaskUsage _ | CheckedDeviceUsage _ _ => true
  | _ => false
  end.

Definition takes_lock (e : step) : bool :=
  match e with Guard Acquired => true | _ => false end.

Section Service.
Context {Configuration Plugins Devices Containers : Type}
        {managers : Managers Configuration Plugins Devices Containers}
        {device_managers : DeviceManagers Configuration Devices}.

Abbreviation Service := (LoadingService Configuration Plugins Devices Containers).

(** An [async def] of the service. *)
Definition Coroutine := M (St := Service) (Ev := step).

Definition invoke {T : Type} (project : Service -> T) (update : T -> Service -> Service)
    (method : T -> result unit * T) (e : step) : Coroutine unit :=
  fun s => let '(r, t') := method (project s) in (r, update t' s, [e]).

(** [async with self._loading_lock: body] *)
Definition locked {A} (body : Coroutine A) : Coroutine A :=
  finally
    (modify (fun s => set_lock (S (loading_lock s)) s) ;;; emit (Guard Acquired) ;;; body)
    (fun s => (set_lock (Nat.pred (loading_lock s)) s, [Guard Released])).

(** ** [_check_experiment_usage]:
    [get_experiments(db, status=RUNNING, type=experiment_type)] *)
Definition running_of_type (experiment_type : string) (s : Service) : list Experiment :=
  filter
    (fun e => experiment_status_eqb (experiment_status e) EXPERIMENT_RUNNING
              && String.eqb (Loading.experiment_type e) experiment_type)
    (experiment_table s).

Definition experiment_usage (experiment_type : string) (s : Service) : result unit :=
  match running_of_type experiment_type s with
  | [] => Return tt
  | _ :: _ => Raise EosExperimentTypeInUseError
  end.

Definition check_experiment_usage (experiment_type : string) : Coroutine unit :=
  fun s => (experiment_usage experiment_type s, s, [CheckedExperimentUsage experiment_type]).

(** ** [_check_task_usage] *)
Definition task_usage (task_type : string) (s : Service) : result unit :=
  match get_tasks_of_type TASK_RUNNING task_type (task_table s)
        ++ get_tasks_of_type TASK_CREATED task_type (task_table s) with
  | [] => Return tt
  | _ :: _ => Raise EosExperimentTypeInUseError
  end.

Definition check_task_usage (task_type : string) : Coroutine unit :=
  fun s => (task_usage task_type s, s, [CheckedTaskUsage task_type]).

(** ** [_check_experiments_using_devices] *)
Definition graph_uses (lab_id : string) (device_ids : list string) (tasks : list GraphTask)
    : bool :=
  existsb
    (fun task =>
       String.eqb (graph_task_lab task) lab_id
       && existsb (fun device_id => mem device_id (graph_task_devices task)) device_ids)
    tasks.

Fixpoint experiments_using_devices (c : Configuration) (lab_id : string)
    (device_ids : list string) (running_experiments : list Experiment)
    : result (list Experiment) :=
  match running_experiments with
  | [] => Return []
  | experiment :: rest =>
      match Dict.get (Loading.experiment_type experiment) (experiments c) with
      | None => Raise (KeyError (Loading.experiment_type experiment))
      | Some experiment_config =>
          match experiments_using_devices c lab_id device_ids rest with
          | Return using_experiments =>
              Return
                (if mem lab_id (config_labs experiment_config)
                    && graph_uses lab_id device_ids
                         (task_graph_tasks c (Loading.experiment_type experiment))
                 then experiment :: using_experiments
                 else using_experiments)
          | Raise e => Raise e
          end
      end
  end.

(** ** [_check_device_usage] *)
Definition device_usage (lab_id : string) (device_ids : list string) (s : Service)
    : result unit :=
  match experiments_using_devices (configuration_manager s) lab_id device_ids
          (get_experiments EXPERIMENT_RUNNING s) with
  | Raise e => Raise e
  | Return (_ :: _) => Raise EosExperimentTypeInUseError
  | Return [] =>
      match check_tasks_using_devices lab_id (Some device_ids) s with
      | _ :: _ => Raise EosExperimentTypeInUseError
      | [] => Return tt
      end
  end.

Definition check_device_usage (lab_id : string) (device_ids : list string)
    : Coroutine unit :=
  fun s => (device_usage lab_id device_ids s, s, [CheckedDeviceUsage lab_id device_ids]).

(** ** [reload_devices]; the [except] clause logs and re-raises. *)
Definition reload_devices (lab_id : string) (device_ids : list string) : Coroutine unit :=
  locked
    (s <- get ;;
     if mem lab_id (loaded_lab_types (configuration_manager s)) then
       check_device_usage lab_id device_ids ;;;
       invoke device_manager set_devices (dm_reload_devices lab_id device_ids)
         (ReloadedDevices lab_id device_ids)
     else raise EosConfigurationError).

(** ** [unload_experiments] *)
Definition unload_experiments (experiment_types : list string) : Coroutine unit :=
  for_each experiment_types check_experiment_usage ;;;
  invoke configuration_manager set_configuration (cm_unload_experiments experiment_types)
    (ConfigurationUnloadExperiments experiment_types).

(** ** [reload_experiments] *)
Definition reload_experiments (experiment_types : list string) : Coroutine unit :=
  locked
    (for_each experiment_types check_experiment_usage ;;;
     invoke configuration_manager set_configuration (cm_unload_experiments experiment_types)
       (ConfigurationUnloadExperiments experiment_types) ;;;
     invoke configuration_manager set_configuration (cm_load_experiments experiment_types)
       (Guard (ConfigurationLoadExperiments experiment_types))).

(** ** [reload_task_plugins] *)
Definition reload_task_plugins (task_types : list string) : Coroutine unit :=
  locked
    (for_each task_types check_task_usage ;;;
     for_each task_types
       (fun task_type =>
          invoke configuration_manager set_configuration (tasks_reload_plugin task_type)
            (ReloadedTaskPlugin task_type))).

End Service.

End Reconfiguration.

(* ================================================================== *)
(** * The dynamic parameter template of an experiment type
    ([experiment_service.py], [get_experiment_dynamic_params_template]) *)

Module Parameters.

Section Template.
Context {Value : Type}.

(** [validation_utils.is_dynamic_parameter], which the service imports. *)
Context (is_dynamic_parameter : Value -> bool).

(** A task of [experiment_config.tasks], as the method reads it: [task.id]
    and the dict [task.parameters]. *)
Record TaskConfig : Type := {
  task_config_id : string;
  parameters : list (string * Value) }.

(** The dict comprehension over [task.parameters.items()]. *)
Definition task_dynamic_parameters (task : TaskConfig) : list (string * string) :=
  fold_left
    (fun comprehension item =>
       if is_dynamic_parameter (snd item)
       then Dict.setitem (fst item) "PLACEHOLDER" comprehension
       else comprehension)
    (parameters task) [].

(** [experiments] is [configuration_manager.experiments], each type with
    the [tasks] of its configuration. *)
Definition get_experiment_dynamic_params_template
    (experiments : list (string * list TaskConfig)) (experiment_type : string)
    : result (list (string * list (string * string))) :=
  match Dict.get experiment_type experiments with
  | None => Raise (KeyError experiment_type)
  | Some tasks =>
      Return
        (fold_left
           (fun dynamic_parameters task =>
              match task_dynamic_parameters task with
              | [] => dynamic_parameters
              | _ :: _ =>
                  Dict.setitem (task_config_id task) (task_dynamic_parameters task)
                    dynamic_parameters
              end)
           tasks [])
  end.

End Template.

End Parameters.

(* ================================================================== *)
(** * A store whose lab has tasks but no running experiment *)

Module Bench.
Import Loading.

(** A task of experiment ["e9"] is RUNNING on the mixer of ["lab1"]; a
    standalone task that used the scale has COMPLETED; another standalone
    task is CREATED for a device of ["lab2"]. *)
Definition shared_bench
  : LoadingService Store.Configuration Store.Plugins (list string) (list string) :=
  {| configuration_manager := Store.store;
     device_plugins := {| Store.reloads := []; Store.broken := [] |};
     device_manager := ["lab1"];
     container_manager := ["lab1"];
     experiment_table := [];
     task_table :=
       [{| task_id := "t1"; task_status := TASK_RUNNING; task_experiment_id := Some "e9";
           task_devices := [{| device_lab := "lab1"; device_id := "mixer" |}] |};
        {| task_id := "t2"; task_status := TASK_COMPLETED; task_experiment_id := None;
           task_devices := [{| device_lab := "lab1"; device_id := "scale" |}] |};
        {| task_id := "t3"; task_status := TASK_CREATED; task_experiment_id := None;
           task_devices := [{| device_lab := "lab2"; device_id := "pump" |}] |}];
     loading_lock := 0 |}.


End Bench.

(* ================================================================== *)
(** * Facts about dictionaries and sorting *)

Lemma mem_In (x : string) (xs : list string) : mem x xs = true <-> In x xs.
Proof.
  unfold mem. rewrite existsb_exists. split.
  - intros [y [Hy Heq]]. apply String.eqb_eq in Heq. now subst.
  - intros H. exists x. split; [assumption | apply String.eqb_refl].
Qed.

Lemma mem_not_In (x : string) (xs : list string) : mem x xs = false <-> ~ In x xs.
Proof.
  rewrite <- mem_In. destruct (mem x xs); split; congruence.
Qed.

Section DictFacts.
Context {V : Type}.
Implicit Types (d : list (string * V)) (k : string) (v : V).

Lemma get_none_keys k d : Dict.get k d = None <-> ~ In k (Dict.keys d).
Proof.
  induction d as [|[k' v'] d IH]; simpl.
  - tauto.
  - destruct (String.eqb k k') eqn:E.
    + apply String.eqb_eq in E. subst. split; [discriminate | tauto].
    + apply String.eqb_neq in E. rewrite IH. split; intros H.
      * intros [H1 | H1]; [congruence | tauto].
      * tauto.
Qed.

Lemma contains_keys k d : Dict.contains k d = true <-> In k (Dict.keys d).
Proof.
  unfold Dict.contains. pose proof (get_none_keys k d) as H.
  destruct (Dict.get k d).
  - split; [intros _ | reflexivity].
    destruct (in_dec string_dec k (Dict.keys d)) as [Hin | Hout]; [assumption|].
    apply H in Hout. discriminate.
  - split; [discriminate|]. intros Hin. exfalso. now apply H.
Qed.

Lemma contains_false_keys k d : Dict.contains k d = false <-> ~ In k (Dict.keys d).
Proof.
  rewrite <- contains_keys. destruct (Dict.contains k d); split; congruence.
Qed.

Lemma get_In k v d : NoDup (Dict.keys d) -> In (k, v) d -> Dict.get k d = Some v.
Proof.
  induction d as [|[k' v'] d IH]; simpl; intros Hnd Hin; [contradiction|].
  inversion Hnd as [|? ? Hnotin Hnd']; subst.
  destruct Hin as [Heq | Hin].
  - inversion Heq; subst. now rewrite String.eqb_refl.
  - destruct (String.eqb k k') eqn:E.
    + apply String.eqb_eq in E. subst. exfalso. apply Hnotin.
      change k' with (fst (k', v)). now apply in_map.
    + now apply IH.
Qed.

Lemma get_app k d1 d2 :
  Dict.get k (d1 ++ d2) =
  match Dict.get k d1 with Some v => Some v | None => Dict.get k d2 end.
Proof.
  induction d1 as [|[k' v'] d1 IH]; simpl; [reflexivity|].
  now destruct (String.eqb k k').
Qed.

Lemma get_setitem k k' v d :
  Dict.get k (Dict.setitem k' v d) = if String.eqb k k' then Some v else Dict.get k d.
Proof.
  induction d as [|[k1 v1] d IH]; simpl.
  - reflexivity.
  - destruct (String.eqb k' k1) eqn:E1; simpl.
    + apply String.eqb_eq in E1. subst k1.
      now destruct (String.eqb k k').
    + destruct (String.eqb k k1) eqn:E2.
      * apply String.eqb_eq in E2. subst k1.
        rewrite String.eqb_sym in E1. now rewrite E1.
      * exact IH.
Qed.

Lemma keys_setitem_fresh k v d :
  ~ In k (Dict.keys d) -> Dict.keys (Dict.setitem k v d) = Dict.keys d ++ [k].
Proof.
  induction d as [|[k1 v1] d IH]; simpl; intros H; [reflexivity|].
  destruct (String.eqb k k1) eqn:E.
  - apply String.eqb_eq in E. subst. tauto.
  - simpl. f_equal. apply IH. tauto.
Qed.

Lemma keys_mutate k v d : Dict.keys (Dict.mutate k v d) = Dict.keys d.
Proof.
  induction d as [|[k1 v1] d IH]; simpl; [reflexivity|].
  destruct (String.eqb k k1) eqn:E; simpl.
  - apply String.eqb_eq in E. now subst.
  - now f_equal.
Qed.

Lemma delitem_none k d : Dict.delitem k d = None <-> ~ In k (Dict.keys d).
Proof.
  induction d as [|[k1 v1] d IH]; simpl.
  - tauto.
  - destruct (String.eqb k k1) eqn:E.
    + apply String.eqb_eq in E. subst. split; [discriminate | tauto].
    + apply String.eqb_neq in E. destruct (Dict.delitem k d).
      * split; [discriminate|]. intros H. exfalso.
        assert (Hn : ~ In k (Dict.keys d)) by tauto.
        apply IH in Hn. discriminate.
      * split; [|reflexivity]. intros _ [H | H]; [congruence|].
        revert H. now apply IH.
Qed.

Lemma delitem_keys k d d' :
  NoDup (Dict.keys d) -> Dict.delitem k d = Some d' ->
  Dict.keys d' = filter (fun x => negb (String.eqb x k)) (Dict.keys d).
Proof.
  revert d'. induction d as [|[k1 v1] d IH]; simpl; intros d' Hnd H; [discriminate|].
  inversion Hnd as [|? ? Hnotin Hnd']; subst.
  destruct (String.eqb k k1) eqn:E.
  - apply String.eqb_eq in E. subst k1. inversion H; subst d'.
    rewrite String.eqb_refl. simpl.
    symmetry. apply forallb_filter_id. apply forallb_forall.
    intros x Hx. apply negb_true_iff. apply String.eqb_neq. intros ->. tauto.
  - rewrite String.eqb_sym in E. rewrite E. simpl.
    destruct (Dict.delitem k d) as [d''|]; [|discriminate].
    inversion H; subst d'. simpl. f_equal. now apply IH.
Qed.

Lemma pop_default_absent k d : ~ In k (Dict.keys d) -> Dict.pop_default k d = d.
Proof.
  intros H. unfold Dict.pop_default. apply delitem_none in H. now rewrite H.
Qed.

End DictFacts.

Lemma NoDup_filter {A} (p : A -> bool) (l : list A) : NoDup l -> NoDup (filter p l).
Proof.
  induction 1 as [|x l Hx Hnd IH]; simpl; [constructor|].
  destruct (p x); [constructor|]; trivial.
  intros H. apply filter_In in H. tauto.
Qed.

Lemma filter_filter {A} (p q : A -> bool) (l : list A) :
  filter p (filter q l) = filter (fun x => q x && p x) l.
Proof.
  induction l as [|x l IH]; simpl; [reflexivity|].
  destruct (q x); simpl; [destruct (p x)|]; now rewrite ?IH.
Qed.

Section SortedFacts.
Context {A : Type} (key : A -> Z).

Lemma insert_reverse_perm (x : A) (l : list A) :
  Permutation (insert_reverse key x l) (x :: l).
Proof.
  induction l as [|y l IH]; simpl; [reflexivity|].
  destruct (key x <? key y)%Z; [|reflexivity].
  rewrite IH. apply perm_swap.
Qed.

Lemma sorted_reverse_perm (l : list A) : Permutation (sorted_reverse key l) l.
Proof.
  induction l as [|x l IH]; simpl; [reflexivity|].
  rewrite insert_reverse_perm. now constructor.
Qed.

Definition descending (a b : A) : Prop := (key a >= key b)%Z.

Lemma insert_reverse_sorted (x : A) (l : list A) :
  StronglySorted descending l -> StronglySorted descending (insert_reverse key x l).
Proof.
  induction 1 as [|y l Hs IH Hall]; simpl.
  - repeat constructor.
  - destruct (key x <? key y)%Z eqn:E.
    + apply Z.ltb_lt in E. constructor; [assumption|].
      eapply Permutation_Forall; [symmetry; apply insert_reverse_perm|].
      constructor; [unfold descending; lia | assumption].
    + apply Z.ltb_ge in E. constructor; [now constructor|].
      constructor; [unfold descending; lia|].
      eapply Forall_impl; [|exact Hall]. unfold descending. intros; lia.
Qed.

Lemma sorted_reverse_sorted (l : list A) : StronglySorted descending (sorted_reverse key l).
Proof.
  induction l as [|x l IH]; simpl; [constructor | now apply insert_reverse_sorted].
Qed.

(** Stability: the items of one key come out in the order they went in. *)
Lemma insert_reverse_stable (p : Z) (x : A) (l : list A) :
  filter (fun a => (key a =? p)%Z) (insert_reverse key x l) =
  filter (fun a => (key a =? p)%Z) (x :: l).
Proof.
  induction l as [|y l IH]; simpl; [reflexivity|].
  destruct (key x <? key y)%Z eqn:E; [|reflexivity].
  apply Z.ltb_lt in E. simpl in *. rewrite IH.
  destruct (key y =? p)%Z eqn:Ey; destruct (key x =? p)%Z eqn:Ex; try reflexivity.
  apply Z.eqb_eq in Ey, Ex. lia.
Qed.

Lemma sorted_reverse_stable (p : Z) (l : list A) :
  filter (fun a => (key a =? p)%Z) (sorted_reverse key l) =
  filter (fun a => (key a =? p)%Z) l.
Proof.
  induction l as [|x l IH]; simpl; [reflexivity|].
  rewrite insert_reverse_stable. simpl. now rewrite IH.
Qed.

End SortedFacts.

Lemma insert_reverse_ext {A} (k1 k2 : A -> Z) (x : A) (l : list A) :
  k1 x = k2 x -> (forall y, In y l -> k1 y = k2 y) ->
  insert_reverse k1 x l = insert_reverse k2 x l.
Proof.
  intros Hx. induction l as [|y l IH]; simpl; intros H; [reflexivity|].
  rewrite Hx, (H y) by now left.
  destruct (k2 x <? k2 y)%Z; [|reflexivity].
  f_equal. apply IH. intros; apply H; now right.
Qed.

Lemma sorted_reverse_ext {A} (k1 k2 : A -> Z) (l : list A) :
  (forall y, In y l -> k1 y = k2 y) -> sorted_reverse k1 l = sorted_reverse k2 l.
Proof.
  induction l as [|x l IH]; simpl; intros H; [reflexivity|].
  rewrite IH by (intros; apply H; now right).
  apply insert_reverse_ext; [apply H; now left|].
  intros y Hy. apply H. right.
  eapply Permutation_in; [apply sorted_reverse_perm | exact Hy].
Qed.

(* ================================================================== *)
(** * Facts about the effect monad *)

Lemma for_each_cons {St Ev A} (x : A) (xs : list A) (body : A -> M (St := St) (Ev := Ev) unit)
    (s : St) :
  for_each (x :: xs) body s =
  match body x s with
  | (Return _, s1, t1) => let '(r, s2, t2) := for_each xs body s1 in (r, s2, t1 ++ t2)
  | (Raise e, s1, t1) => (Raise e, s1, t1)
  end.
Proof. reflexivity. Qed.

Lemma for_each_app {St Ev A} (xs ys : list A) (body : A -> M (St := St) (Ev := Ev) unit)
    (s : St) :
  for_each (xs ++ ys) body s = (for_each xs body ;;; for_each ys body) s.
Proof.
  revert s. induction xs as [|x xs IH]; intros s; simpl.
  - unfold bind, ret. destruct (for_each ys body s) as [[r s2] t2]. reflexivity.
  - unfold bind in *. destruct (body x s) as [[[u|e] s1] t1]; [|reflexivity].
    rewrite IH.
    destruct (for_each xs body s1) as [[[u1|e1] s2] t2]; [|reflexivity].
    destruct (for_each ys body s2) as [[r3 s3] t3]. now rewrite app_assoc.
Qed.

Lemma bind_get {St Ev B} (k : St -> M (St := St) (Ev := Ev) B) (s : St) :
  bind get k s = k s s.
Proof. unfold bind, get. now destruct (k s s) as [[r s2] t2]. Qed.


Lemma bind_raise {St Ev A B} (m : M (St := St) (Ev := Ev) A) (k : A -> M B)
    (s : St) (e : exn) :
  outcome (m s) = Raise e -> bind m k s = (Raise e, final (m s), trace (m s)).
Proof.
  unfold bind, outcome, final, trace. destruct (m s) as [[[a|e'] s1] t1]; simpl.
  - discriminate.
  - now intros [= ->].
Qed.

Lemma bind_trace {St Ev A B} (P : Ev -> Prop) (m : M (St := St) (Ev := Ev) A)
    (k : A -> M B) (s : St) :
  Forall P (trace (m s)) -> (forall a s1, Forall P (trace (k a s1))) ->
  Forall P (trace (bind m k s)).
Proof.
  intros Hm Hk. unfold bind, trace in *. destruct (m s) as [[[a|e] s1] t1]; simpl in *.
  - specialize (Hk a s1). destruct (k a s1) as [[r s2] t2]. simpl in *.
    apply Forall_app. now split.
  - exact Hm.
Qed.

Lemma for_each_trace {St Ev A} (P : Ev -> Prop) (xs : list A)
    (body : A -> M (St := St) (Ev := Ev) unit) :
  (forall x s, Forall P (trace (body x s))) ->
  forall s, Forall P (trace (for_each xs body s)).
Proof.
  intros Hbody. induction xs as [|x xs IH]; intros s; simpl.
  - constructor.
  - apply bind_trace; [apply Hbody | intros _ s1; apply IH].
Qed.

(* ================================================================== *)
(** * The scheduling core: proofs *)

Module SchedulingFacts.
Import Scheduling.

Section Facts.
Context {Executor Db : Type} {ops : ExecutorOps Executor Db}.

Abbreviation Service := (ExperimentService Executor Db).

Lemma priorities_get (d : list (string * Executor)) (acc : list (string * Z)) (k : string) :
  Dict.get k
    (fold_left
       (fun acc item =>
          Dict.setitem (fst item) (priority (ex_experiment_definition (snd item))) acc)
       d acc) =
  match Dict.get k (rev d) with
  | Some ex => Some (priority (ex_experiment_definition ex))
  | None => Dict.get k acc
  end.
Proof.
  revert acc. induction d as [|[k1 e1] d IH]; intros acc; simpl; [reflexivity|].
  rewrite IH, get_app, get_setitem. simpl.
  destruct (Dict.get k (rev d)); [reflexivity|].
  now destruct (String.eqb k k1).
Qed.

Lemma sort_key_priority (s : Service) (x : string * Executor) :
  NoDup (registry_keys s) -> In x (submitted_experiments s) ->
  sort_key (experiment_priorities s) x = priority_of x.
Proof.
  intros Hnd Hin. unfold sort_key, experiment_priorities.
  rewrite priorities_get. destruct x as [k ex]. simpl.
  rewrite (get_In k ex).
  - reflexivity.
  - unfold Dict.keys. rewrite map_rev. apply NoDup_rev. exact Hnd.
  - now apply in_rev in Hin.
Qed.

Lemma get_sorted_by_priority (s : Service) :
  NoDup (registry_keys s) ->
  get_sorted_experiments s = sorted_reverse priority_of (submitted_experiments s).
Proof.
  intros Hnd. apply sorted_reverse_ext. intros y Hy. now apply sort_key_priority.
Qed.

(** ** Deleting ids from the registry *)

Lemma del_submitted_run (i : string) (s : Service) :
  del_submitted i s =
  match Dict.delitem i (submitted_experiments s) with
  | Some d => (Return tt, set_submitted (fun _ => d) s, [])
  | None => (Raise (KeyError i), s, [])
  end.
Proof.
  unfold del_submitted, bind, get, modify, raise.
  now destruct (Dict.delitem i (submitted_experiments s)).
Qed.

Lemma delete_all_ok (ids : list string) (s : Service) :
  NoDup (registry_keys s) -> NoDup ids -> incl ids (registry_keys s) ->
  exists s',
    for_each ids del_submitted s = (Return tt, s', []) /\
    registry_keys s' = filter (fun k => negb (mem k ids)) (registry_keys s) /\
    same_frame s s' /\ db s' = db s.
Proof.
  revert s. induction ids as [|i ids IH]; intros s Hnd Hids Hincl.
  - exists s. repeat split. unfold registry_keys.
    symmetry. apply forallb_filter_id. now apply forallb_forall.
  - rewrite for_each_cons, del_submitted_run.
    inversion Hids as [|? ? Hi Hids']; subst.
    destruct (Dict.delitem i (submitted_experiments s)) as [d|] eqn:Hdel.
    + pose proof (delitem_keys _ _ _ Hnd Hdel) as Hkeys.
      destruct (IH (set_submitted (fun _ => d) s)) as [s' [Hrun [Hk [Hf Hdb]]]].
      * unfold registry_keys; simpl. rewrite Hkeys. now apply NoDup_filter.
      * exact Hids'.
      * intros k Hk. unfold registry_keys; simpl. rewrite Hkeys.
        apply filter_In. split; [apply Hincl; now right|].
        apply negb_true_iff, String.eqb_neq. intros ->. contradiction.
      * exists s'. rewrite Hrun. repeat split; try apply Hf; try exact Hdb.
        rewrite Hk. unfold registry_keys at 1; simpl. rewrite Hkeys, filter_filter.
        apply filter_ext. intros k. simpl.
        rewrite (String.eqb_sym k i). now destruct (String.eqb i k).
    + apply delitem_none in Hdel. exfalso. apply Hdel, Hincl. now left.
Qed.

Lemma delete_all_raise (ids : list string) (s : Service) (e : exn) :
  NoDup (registry_keys s) ->
  outcome (for_each ids del_submitted s) = Raise e ->
  exists k, e = KeyError k /\ In k ids /\
            (~ In k (registry_keys s) \/ 2 <= count_occ string_dec ids k).
Proof.
  revert s. induction ids as [|i ids IH]; intros s Hnd H.
  - discriminate.
  - rewrite for_each_cons, del_submitted_run in H.
    destruct (Dict.delitem i (submitted_experiments s)) as [d|] eqn:Hdel.
    + pose proof (delitem_keys _ _ _ Hnd Hdel) as Hkeys.
      destruct (for_each ids del_submitted (set_submitted (fun _ => d) s))
        as [[r s2] t2] eqn:Hrest.
      unfold outcome in H; simpl in H. subst r.
      destruct (IH (set_submitted (fun _ => d) s)) as [k [He [Hin Hk]]].
      * unfold registry_keys; simpl. rewrite Hkeys. now apply NoDup_filter.
      * now rewrite Hrest.
      * exists k. split; [exact He|]. split; [now right|].
        destruct (string_dec i k) as [-> | Hne].
        -- right. simpl. destruct (string_dec k k); [|congruence].
           apply (count_occ_In string_dec) in Hin. lia.
        -- destruct Hk as [Hk | Hk].
           ++ left. intros Hin'. apply Hk. unfold registry_keys; simpl. rewrite Hkeys.
              apply filter_In. split; [exact Hin'|].
              apply negb_true_iff, String.eqb_neq. congruence.
           ++ right. simpl. destruct (string_dec i k); [congruence | exact Hk].
    + unfold outcome in H; simpl in H. inversion H; subst.
      exists i. split; [reflexivity|]. split; [now left|].
      left. now apply delitem_none.
Qed.

Lemma delete_all_return (ids : list string) (s : Service) :
  NoDup (registry_keys s) ->
  outcome (for_each ids del_submitted s) = Return tt ->
  NoDup ids /\ incl ids (registry_keys s).
Proof.
  revert s. induction ids as [|i ids IH]; intros s Hnd H.
  - split; [constructor | intros k []].
  - rewrite for_each_cons, del_submitted_run in H.
    destruct (Dict.delitem i (submitted_experiments s)) as [d|] eqn:Hdel;
      [|discriminate].
    pose proof (delitem_keys _ _ _ Hnd Hdel) as Hkeys.
    assert (Hi : In i (registry_keys s)).
    { destruct (in_dec string_dec i (registry_keys s)) as [Hi | Hi]; [assumption|].
      apply delitem_none in Hi. unfold registry_keys in *. congruence. }
    destruct (for_each ids del_submitted (set_submitted (fun _ => d) s))
      as [[r s2] t2] eqn:Hrest.
    unfold outcome in H; simpl in H. subst r.
    destruct (IH (set_submitted (fun _ => d) s)) as [Hnd' Hincl].
    + unfold registry_keys; simpl. rewrite Hkeys. now apply NoDup_filter.
    + now rewrite Hrest.
    + unfold registry_keys in Hincl; simpl in Hincl. rewrite Hkeys in Hincl.
      split.
      * constructor; [|exact Hnd'].
        intros Hin. apply Hincl, filter_In in Hin. destruct Hin as [_ Hin].
        rewrite String.eqb_refl in Hin. discriminate.
      * intros k [<- | Hk]; [exact Hi|].
        apply Hincl, filter_In in Hk. tauto.
Qed.

(** ** One pass over the sorted snapshot *)

Lemma completed_of_cons (e : event) (tr : list event) :
  completed_of (e :: tr) =
  if is_completed e then event_id e :: completed_of tr else completed_of tr.
Proof. unfold completed_of. simpl. now destruct (is_completed e). Qed.

Lemma failed_of_cons (e : event) (tr : list event) :
  failed_of (e :: tr) =
  if is_failed e then event_id e :: failed_of tr else failed_of tr.
Proof. unfold failed_of. simpl. now destruct (is_failed e). Qed.

Lemma progress_all_run (contract : progress_contract)
    (l : list (string * Executor)) (c f : list string) (s : Service) :
  exists s' tr,
    progress_all l c f s = (Return (c ++ completed_of tr, f ++ failed_of tr), s', tr) /\
    map event_id tr = map fst l /\
    registry_keys s' = registry_keys s /\
    same_frame s s'.
Proof.
  revert c f s. induction l as [|[i ex] l IH]; intros c f s.
  - exists s, []. simpl. unfold ret, completed_of, failed_of. simpl.
    rewrite !app_nil_r. repeat split.
  - simpl. unfold bind at 1. unfold try_except, bind at 1. unfold progress.
    destruct (ex_progress_experiment ex (db s)) as [[r ex'] db'] eqn:Hp.
    set (s1 := set_db db' (set_submitted (Dict.mutate i ex') s)).
    assert (Hk1 : registry_keys s1 = registry_keys s).
    { unfold s1, registry_keys. simpl. apply keys_mutate. }
    destruct r as [b | e].
    + unfold ret at 1. simpl.
      destruct (IH (if b then c ++ [i] else c) f s1) as [s' [tr [Hrun [Hids [Hk Hf]]]]].
      rewrite Hrun. exists s', (Progressed i (Return b) :: tr).
      rewrite completed_of_cons, failed_of_cons. simpl.
      repeat split; try (now f_equal); try congruence; try apply Hf.
      destruct b; simpl; now rewrite <- ?app_assoc.
    + pose proof (contract _ _ _ _ _ Hp) as ->. simpl. unfold ret. simpl.
      destruct (IH c (f ++ [i]) s1) as [s' [tr [Hrun [Hids [Hk Hf]]]]].
      rewrite Hrun. exists s', (Progressed i (Raise EosExperimentExecutionError) :: tr).
      rewrite completed_of_cons, failed_of_cons. simpl.
      repeat split; try (now f_equal); try congruence; try apply Hf.
      now rewrite <- app_assoc.
Qed.

Lemma progress_all_only_progresses (l : list (string * Executor)) (c f : list string)
    (s : Service) :
  Forall (fun e => is_progressed e = true) (trace (progress_all l c f s)).
Proof.
  revert c f s. induction l as [|[i ex] l IH]; intros c f s; simpl.
  - constructor.
  - apply bind_trace; [|intros a s1; apply IH].
    unfold try_except, bind, progress, trace.
    destruct (ex_progress_experiment ex (db s)) as [[[b|e] ex'] db']; simpl.
    + now repeat constructor.
    + destruct (is_execution_error e); simpl; now repeat constructor.
Qed.

Lemma NoDup_map_filter {A B} (g : A -> B) (p : A -> bool) (l : list A) :
  NoDup (map g l) -> NoDup (map g (filter p l)).
Proof.
  induction l as [|x l IH]; simpl; intros H; [constructor|].
  inversion H as [|? ? Hx Hnd]; subst.
  destruct (p x); simpl; [constructor|]; auto.
  intros Hin. apply Hx. apply in_map_iff in Hin. destruct Hin as [y [Hy Hin]].
  apply filter_In in Hin. rewrite <- Hy. apply in_map. tauto.
Qed.

Lemma NoDup_map_inj {A B} (g : A -> B) (l : list A) (a b : A) :
  NoDup (map g l) -> In a l -> In b l -> g a = g b -> a = b.
Proof.
  induction l as [|x l IH]; simpl; intros H Ha Hb Heq; [contradiction|].
  inversion H as [|? ? Hx Hnd]; subst.
  destruct Ha as [-> | Ha], Hb as [-> | Hb]; trivial.
  - exfalso. apply Hx. rewrite Heq. now apply in_map.
  - exfalso. apply Hx. rewrite <- Heq. now apply in_map.
  - now apply IH.
Qed.

Lemma pass_ids_distinct (tr : list event) :
  NoDup (map event_id tr) -> NoDup (completed_of tr ++ failed_of tr).
Proof.
  intros H. apply NoDup_app; unfold completed_of, failed_of.
  - now apply NoDup_map_filter.
  - now apply NoDup_map_filter.
  - intros k Hc Hf.
    apply in_map_iff in Hc. destruct Hc as [a [Ha Hina]].
    apply in_map_iff in Hf. destruct Hf as [b [Hb Hinb]].
    apply filter_In in Hina, Hinb.
    assert (a = b) by (apply (NoDup_map_inj event_id tr); intuition congruence).
    subst b. destruct Hina as [_ Hca], Hinb as [_ Hfa].
    destruct a as [| | i [[]|] |]; simpl in *; discriminate.
Qed.

Lemma sorted_ids_perm (s : Service) :
  Permutation (map fst (get_sorted_experiments s)) (registry_keys s).
Proof.
  unfold get_sorted_experiments, registry_keys, Dict.keys.
  apply Permutation_map, sorted_reverse_perm.
Qed.

(** The whole of [process_experiments], under the executor's contract. *)
Lemma process_experiments_run (contract : progress_contract) (s : Service) :
  NoDup (registry_keys s) ->
  exists s_pass s' tr,
    progress_all (get_sorted_experiments s) [] [] s
      = (Return (completed_of tr, failed_of tr), s_pass, tr) /\
    process_experiments s = (Return tt, s', tr) /\
    map event_id tr = map fst (get_sorted_experiments s) /\
    registry_keys s_pass = registry_keys s /\
    registry_keys s' =
      filter (fun k => negb (mem k (completed_of tr ++ failed_of tr))) (registry_keys s) /\
    same_frame s s'.
Proof.
  intros Hnd.
  destruct (progress_all_run contract (get_sorted_experiments s) [] [] s)
    as [s1 [tr [Hrun [Hids [Hk Hf]]]]].
  simpl in Hrun.
  assert (Hndtr : NoDup (map event_id tr)).
  { rewrite Hids. eapply Permutation_NoDup; [symmetry; apply sorted_ids_perm | exact Hnd]. }
  destruct (delete_all_ok (completed_of tr ++ failed_of tr) s1) as [s' [Hdel [Hk' [Hf' _]]]].
  - now rewrite Hk.
  - now apply pass_ids_distinct.
  - rewrite Hk. intros k Hin.
    eapply Permutation_in; [apply sorted_ids_perm|]. rewrite <- Hids.
    apply in_app_or in Hin. unfold completed_of, failed_of in Hin.
    destruct Hin as [Hin | Hin]; apply in_map_iff in Hin;
      destruct Hin as [a [<- Ha]]; apply filter_In in Ha; apply in_map; tauto.
  - rewrite for_each_app in Hdel.
    destruct (submitted_experiments s) as [|x rest] eqn:Hsub.
    + assert (Hs : get_sorted_experiments s = []).
      { unfold get_sorted_experiments. now rewrite Hsub. }
      rewrite Hs in *. simpl in Hrun. unfold ret in Hrun. inversion Hrun; subst.
      exists s1, s1, []. unfold process_experiments, bind, get. rewrite Hsub.
      unfold ret. simpl. repeat split. unfold registry_keys. now rewrite Hsub.
    + exists s1, s', tr. split; [exact Hrun|]. split.
      * unfold process_experiments. unfold bind at 1. unfold get. rewrite Hsub.
        unfold bind at 1. rewrite Hrun. simpl fst. simpl snd.
        rewrite Hdel. simpl. now rewrite app_nil_r.
      * repeat split; try assumption.
        -- now rewrite Hk', Hk.
        -- destruct Hf as [Hf1 Hf2], Hf' as [Hf1' Hf2']. congruence.
        -- destruct Hf as [Hf1 Hf2], Hf' as [Hf1' Hf2']. congruence.
Qed.

(** ** Submission *)

Lemma submit_experiment_run (d : ExperimentDefinition) (s : Service) :
  submit_experiment d s =
  if mem (type d) (configuration_experiments s) then
    if Dict.contains (id d) (submitted_experiments s) then (Return tt, s, [])
    else
      let '(r, ex', db') := ex_start_experiment (factory_create d) (db s) in
      match r with
      | Return _ =>
          (Return tt, set_submitted (Dict.setitem (id d) ex') (set_db db' s),
           [Created d; Started (id d) r])
      | Raise e =>
          (Raise e,
           if is_execution_error e
           then set_submitted (Dict.pop_default (id d)) (set_db db' s)
           else set_db db' s,
           [Created d; Started (id d) r])
      end
  else (Raise EosExperimentDoesNotExistError, s, []).
Proof.
  unfold submit_experiment, validate_experiment_type.
  unfold bind at 1. unfold bind at 1. unfold get at 1.
  destruct (mem (type d) (configuration_experiments s)); [|reflexivity].
  unfold ret at 1. unfold bind at 1. unfold get at 1.
  destruct (Dict.contains (id d) (submitted_experiments s)); [reflexivity|].
  unfold bind at 1, emit, try_except, bind at 1, start.
  destruct (ex_start_experiment (factory_create d) (db s)) as [[r ex'] db'].
  destruct r as [[] | e]; simpl; [reflexivity|].
  destruct (is_execution_error e); reflexivity.
Qed.

(** ** Cancellation requests and the drain *)

Lemma drain_all (queue acc : list string) : drain queue acc = acc ++ queue.
Proof.
  revert acc. induction queue as [|i queue IH]; intros acc; simpl.
  - now rewrite app_nil_r.
  - now rewrite IH, <- app_assoc.
Qed.

Lemma cancel_experiment_run (i : string) (s : Service) :
  cancel_experiment i s =
  if Dict.contains i (submitted_experiments s) then
    if Nat.ltb (List.length (experiment_cancellation_queue s)) maxsize
    then (Return Enqueued, set_queue (experiment_cancellation_queue s ++ [i]) s, [])
    else (Return Suspended, s, [])
  else (Return Ignored, s, []).
Proof.
  unfold cancel_experiment, bind, get.
  destruct (Dict.contains i (submitted_experiments s)); [|reflexivity].
  now destruct (Nat.ltb (List.length (experiment_cancellation_queue s)) maxsize).
Qed.

(** The cancellation requests of other coroutines touch the queue only. *)
Lemma requests_run (requests : list string) (s : Service) :
  exists q,
    for_each requests (fun i => cancel_experiment i ;;; ret tt) s
      = (Return tt, set_queue q s, []) /\
    (incl requests (registry_keys s) ->
     List.length (experiment_cancellation_queue s) + List.length requests <= maxsize ->
     q = experiment_cancellation_queue s ++ requests).
Proof.
  revert s. induction requests as [|i requests IH]; intros s.
  - exists (experiment_cancellation_queue s). split.
    + simpl. unfold ret. destruct s; reflexivity.
    + intros _ _. now rewrite app_nil_r.
  - rewrite for_each_cons. unfold bind at 1. rewrite cancel_experiment_run.
    destruct (Dict.contains i (submitted_experiments s)) eqn:Hreg.
    + destruct (Nat.ltb (List.length (experiment_cancellation_queue s)) maxsize) eqn:Hlt.
      * unfold ret at 1. simpl.
        destruct (IH (set_queue (experiment_cancellation_queue s ++ [i]) s)) as [q [Hrun Hq]].
        rewrite Hrun. exists q. split; [reflexivity|].
        intros Hincl Hlen. simpl in Hq. rewrite Hq.
        -- now rewrite <- app_assoc.
        -- intros k Hk. apply Hincl. now right.
        -- rewrite length_app. simpl in *. lia.
      * unfold ret at 1. simpl. destruct (IH s) as [q [Hrun Hq]].
        rewrite Hrun. exists q. split; [reflexivity|].
        intros Hincl Hlen. apply Nat.ltb_ge in Hlt. simpl in Hlen. lia.
    + unfold ret at 1. simpl. destruct (IH s) as [q [Hrun Hq]].
      rewrite Hrun. exists q. split; [reflexivity|].
      intros Hincl _. apply contains_false_keys in Hreg. exfalso.
      apply Hreg, Hincl. now left.
Qed.

Lemma cancel_run (i : string) (s : Service) :
  exists r s',
    cancel i s = (r, s', [Cancelling i r]) /\
    registry_keys s' = registry_keys s /\
    same_frame s s' /\
    (is_return r = true -> In i (registry_keys s)).
Proof.
  unfold cancel. destruct (Dict.get i (submitted_experiments s)) as [ex|] eqn:Hget.
  - destruct (ex_cancel_experiment ex (db s)) as [[r ex'] db'].
    eexists _, _. split; [reflexivity|]. split; [|split].
    + unfold registry_keys. simpl. apply keys_mutate.
    + now split.
    + intros _. apply contains_keys. unfold Dict.contains. now rewrite Hget.
  - eexists _, _. split; [reflexivity|]. repeat split. discriminate.
Qed.

(** The fan-out: one cancellation per drained id, every one of them run. *)
Lemma gather_cancel_run (ids : list string) (s : Service) :
  exists r s' tr,
    gather (map cancel ids) s = (r, s', tr) /\
    filter is_cancelling tr = tr /\
    map event_id tr = ids /\
    registry_keys s' = registry_keys s /\
    same_frame s s' /\
    is_return r = forallb cancel_succeeded tr /\
    (is_return r = true -> incl ids (registry_keys s)).
Proof.
  revert s. induction ids as [|i ids IH]; intros s.
  - exists (Return tt), s, []. repeat split. intros _ k [].
  - simpl. destruct (cancel_run i s) as [r1 [s1 [Hc [Hk1 [Hf1 Hin1]]]]].
    rewrite Hc. destruct (IH s1) as [r2 [s2 [tr [Hg [Hfil [Hids [Hk2 [Hf2 [Hr2 Hin2]]]]]]]]].
    rewrite Hg.
    exists (match r1 with Return _ => r2 | Raise e => Raise e end), s2,
           (Cancelling i r1 :: tr).
    split; [reflexivity|]. simpl. rewrite Hfil, Hids.
    repeat split; try congruence.
    + destruct Hf1, Hf2. congruence.
    + destruct Hf1, Hf2. congruence.
    + destruct r1; simpl; [exact Hr2 | reflexivity].
    + intros Hr k [<- | Hk].
      * apply Hin1. now destruct r1.
      * rewrite <- Hk1. apply Hin2; [|exact Hk]. now destruct r1.
Qed.

(** [process_experiment_cancellations], phase by phase. *)
Lemma process_experiment_cancellations_run (requests : list string) (s : Service) :
  experiment_cancellation_queue s <> [] ->
  exists q r_gather s_gather tr r_delete s',
    for_each requests (fun i => cancel_experiment i ;;; ret tt) (set_queue [] s)
      = (Return tt, set_queue q s, []) /\
    gather (map cancel (experiment_cancellation_queue s)) (set_queue q s)
      = (r_gather, s_gather, tr) /\
    for_each (experiment_cancellation_queue s) del_submitted s_gather
      = (r_delete, s', []) /\
    process_experiment_cancellations requests s =
      match r_gather with
      | Return _ => (r_delete, s', tr)
      | Raise e => (Raise e, s_gather, tr)
      end.
Proof.
  intros Hne.
  destruct (requests_run requests (set_queue [] s)) as [q [Hreq _]].
  assert (Hset : set_queue q (set_queue [] s) = set_queue q s) by reflexivity.
  rewrite Hset in Hreq.
  destruct (gather (map cancel (experiment_cancellation_queue s)) (set_queue q s))
    as [[rg sg] tr] eqn:Hg.
  destruct (for_each (experiment_cancellation_queue s) del_submitted sg)
    as [[rd s'] td] eqn:Hd.
  assert (Htd : td = []).
  { clear -Hd. revert sg Hd.
    induction (experiment_cancellation_queue s) as [|i ids IH]; intros sg Hd.
    - simpl in Hd. unfold ret in Hd. now inversion Hd.
    - rewrite for_each_cons, del_submitted_run in Hd.
      destruct (Dict.delitem i (submitted_experiments sg)).
      + destruct (for_each ids del_submitted (set_submitted (fun _ => l) sg))
          as [[r2 s2] t2] eqn:Hrest.
        inversion Hd; subst. simpl. eapply IH. exact Hrest.
      + now inversion Hd. }
  subst td.
  exists q, rg, sg, tr, rd, s'.
  split; [exact Hreq|]. split; [exact Hg|]. split; [exact Hd|].
  unfold process_experiment_cancellations.
  unfold bind at 1. unfold get at 1. rewrite drain_all. simpl app.
  unfold bind at 1. unfold modify at 1.
  destruct (experiment_cancellation_queue s) as [|i ids] eqn:Hq; [congruence|].
  unfold bind at 1. rewrite Hreq. unfold bind at 1. rewrite Hg.
  destruct rg as [[]|e]; [|reflexivity].
  rewrite Hd. simpl. now rewrite app_nil_r.
Qed.

(** ** The claims about the scheduling core *)

(** C2.  One tick progresses the registered executors in the order of the
    sorted snapshot: the snapshot is a rearrangement of the registry, in
    descending priority, executors of equal priority in the order of their
    registration.  With priorities 5, 1, 5 the two executors of priority 5
    are progressed first, in one pass. *)
Theorem tick_priority_order (contract : progress_contract) (s : Service)
    (wf : NoDup (registry_keys s)) :
  let snapshot := get_sorted_experiments s in
  let progressed := map event_id (trace (process_experiments s)) in
  Forall (fun e => is_progressed e = true) (trace (process_experiments s)) /\
  progressed = map fst snapshot /\
  Permutation snapshot (submitted_experiments s) /\
  StronglySorted (descending priority_of) snapshot /\
  (forall p : Z,
     filter (fun x => (priority_of x =? p)%Z) snapshot =
     filter (fun x => (priority_of x =? p)%Z) (submitted_experiments s)) /\
  (forall a b c ea eb ec,
     submitted_experiments s = [(a, ea); (b, eb); (c, ec)] ->
     priority_of (a, ea) = 5%Z -> priority_of (b, eb) = 1%Z ->
     priority_of (c, ec) = 5%Z ->
     progressed = [a; c; b]).
Proof.
  intros snapshot progressed.
  destruct (process_experiments_run contract s wf)
    as [s1 [s' [tr [Hpass [Hrun [Hids _]]]]]].
  assert (Hp : progressed = map fst snapshot).
  { unfold progressed. rewrite Hrun. exact Hids. }
  split.
  { pose proof (progress_all_only_progresses (get_sorted_experiments s) [] [] s) as H.
    rewrite Hpass in H. now rewrite Hrun. }
  assert (Hs : snapshot = sorted_reverse priority_of (submitted_experiments s))
    by now apply get_sorted_by_priority.
  split; [exact Hp|]. rewrite Hs. split; [apply sorted_reverse_perm|].
  split; [apply sorted_reverse_sorted|]. split; [intros p; apply sorted_reverse_stable|].
  intros a b c ea eb ec Hreg Ha Hb Hc. rewrite Hp, Hs, Hreg. simpl.
  rewrite Hb, Hc. simpl. rewrite Ha, Hc. reflexivity.
Qed.

(** C4.  In one tick every executor of the snapshot is progressed, whatever
    the other progress calls raised; the ids whose call raised are collected
    as failed and those whose call returned true as completed; no prefix of
    the pass changes the keys of the registry, and after the pass the
    registry has lost the collected ids and nothing else. *)
Theorem tick_isolates_failures (contract : progress_contract) (s : Service)
    (wf : NoDup (registry_keys s)) :
  let snapshot := get_sorted_experiments s in
  let run := process_experiments s in
  let collected := completed_of (trace run) ++ failed_of (trace run) in
  outcome run = Return tt /\
  map event_id (trace run) = map fst snapshot /\
  outcome (progress_all snapshot [] [] s)
    = Return (completed_of (trace run), failed_of (trace run)) /\
  (forall n : nat,
     registry_keys (final (progress_all (firstn n snapshot) [] [] s)) = registry_keys s) /\
  registry_keys (final run) = filter (fun k => negb (mem k collected)) (registry_keys s).
Proof.
  intros snapshot run collected.
  destruct (process_experiments_run contract s wf)
    as [s1 [s' [tr [Hpass [Hrun [Hids [Hk1 [Hk' _]]]]]]]].
  unfold collected, run. rewrite Hrun. unfold outcome, final, trace. simpl.
  split; [reflexivity|]. split; [exact Hids|].
  split; [unfold snapshot; now rewrite Hpass|]. split; [|exact Hk'].
  intros n.
  destruct (progress_all_run contract (firstn n snapshot) [] [] s)
    as [s2 [tr2 [Hrun2 [_ [Hk2 _]]]]].
  now rewrite Hrun2.
Qed.

(** C3.  A submit that fails changes nothing in the registry.  With an
    unknown type it raises [EosExperimentDoesNotExistError] and leaves the
    whole service as it was; when the executor's start raises, that
    exception is the one the caller gets, and the id is not registered
    afterwards.  In no case does a failed submit register its id. *)
Theorem failed_submit_registers_nothing (s : Service) (d : ExperimentDefinition) :
  let run := submit_experiment d s in
  (mem (type d) (configuration_experiments s) = false ->
   run = (Raise EosExperimentDoesNotExistError, s, [])) /\
  (forall e : exn,
     mem (type d) (configuration_experiments s) = true ->
     Dict.contains (id d) (submitted_experiments s) = false ->
     fst (fst (ex_start_experiment (factory_create d) (db s))) = Raise e ->
     outcome run = Raise e /\
     Dict.contains (id d) (submitted_experiments (final run)) = false) /\
  (forall e : exn,
     outcome run = Raise e ->
     submitted_experiments (final run) = submitted_experiments s /\
     (Dict.contains (id d) (submitted_experiments s) = false ->
      Dict.contains (id d) (submitted_experiments (final run)) = false) /\
     (e = EosExperimentDoesNotExistError /\ trace run = [] \/
      In (Started (id d) (Raise e)) (trace run) /\
      Dict.contains (id d) (submitted_experiments (final run)) = false)).
Proof.
  intros run. unfold run. rewrite submit_experiment_run.
  destruct (mem (type d) (configuration_experiments s)) eqn:Hty.
  - split; [discriminate|].
    destruct (Dict.contains (id d) (submitted_experiments s)) eqn:Hreg.
    + split; [discriminate|]. intros e He. discriminate.
    + assert (Hpop : Dict.pop_default (id d) (submitted_experiments s)
                     = submitted_experiments s).
      { apply pop_default_absent. now apply contains_false_keys. }
      destruct (ex_start_experiment (factory_create d) (db s)) as [[r ex'] db'].
      assert (Hfail : forall e, r = Raise e ->
                submitted_experiments
                  (if is_execution_error e
                   then set_submitted (Dict.pop_default (id d)) (set_db db' s)
                   else set_db db' s) = submitted_experiments s).
      { intros e _. destruct (is_execution_error e); simpl; congruence. }
      split.
      * intros e _ _ Hr. simpl in Hr. subst r. unfold outcome, final. simpl.
        split; [reflexivity|]. now rewrite Hfail.
      * intros e He. destruct r as [[]|e0]; [discriminate|].
        unfold outcome, final, trace in *. simpl in *. inversion He; subst e0.
        rewrite Hfail by reflexivity.
        split; [reflexivity|]. split; [trivial|]. right. split; [|exact Hreg].
        right. now left.
  - split; [reflexivity|]. split; [discriminate|].
    intros e He. unfold outcome, final, trace in *. simpl in *.
    inversion He; subst e. split; [reflexivity|]. split; [trivial|].
    left. now split.
Qed.

(** C9.  The second submit of a registered id does no work: no executor is
    created or started and the service is left as it was; it returns without
    error (the type check of line 58, which comes first, passes for a loaded
    type), and the id is registered exactly once.  In particular a
    definition submitted twice in a row is registered once, by the first
    call. *)
Theorem resubmission_is_noop (s : Service) (d : ExperimentDefinition)
    (wf : NoDup (registry_keys s)) :
  (Dict.contains (id d) (submitted_experiments s) = true ->
   trace (submit_experiment d s) = [] /\ final (submit_experiment d s) = s /\
   count_occ string_dec (registry_keys s) (id d) = 1 /\
   (mem (type d) (configuration_experiments s) = true ->
    submit_experiment d s = (Return tt, s, []))) /\
  (outcome (submit_experiment d s) = Return tt ->
   let s1 := final (submit_experiment d s) in
   submit_experiment d s1 = (Return tt, s1, []) /\
   count_occ string_dec (registry_keys s1) (id d) = 1).
Proof.
  split.
  - intros Hreg. rewrite submit_experiment_run, Hreg.
    split; [|split; [|split]].
    + now destruct (mem (type d) (configuration_experiments s)).
    + now destruct (mem (type d) (configuration_experiments s)).
    + apply NoDup_count_occ'; [exact wf | now apply contains_keys].
    + now intros ->.
  - rewrite submit_experiment_run.
    destruct (mem (type d) (configuration_experiments s)) eqn:Hty; [|discriminate].
    destruct (Dict.contains (id d) (submitted_experiments s)) eqn:Hreg.
    + intros _. unfold final. simpl. rewrite submit_experiment_run, Hty, Hreg.
      split; [reflexivity|].
      apply NoDup_count_occ'; [exact wf | now apply contains_keys].
    + destruct (ex_start_experiment (factory_create d) (db s)) as [[r ex'] db'].
      destruct r as [[]|e]; [|discriminate].
      intros _. unfold final. simpl.
      set (s1 := set_submitted (Dict.setitem (id d) ex') (set_db db' s)).
      assert (Hkeys : registry_keys s1 = registry_keys s ++ [id d]).
      { unfold s1, registry_keys. simpl. apply keys_setitem_fresh.
        now apply contains_false_keys. }
      assert (Hin : Dict.contains (id d) (submitted_experiments s1) = true).
      { apply contains_keys. fold (registry_keys s1). rewrite Hkeys.
        apply in_or_app. right. now left. }
      rewrite submit_experiment_run. simpl. rewrite Hty.
      unfold s1 in Hin. simpl in Hin. rewrite Hin.
      split; [reflexivity|].
      apply NoDup_count_occ'.
      * rewrite Hkeys. apply NoDup_app; [exact wf | repeat constructor; auto |].
        intros k Hk [<- | []]. apply contains_false_keys in Hreg. contradiction.
      * rewrite Hkeys. apply in_or_app. right. now left.
Qed.

Lemma delete_all_frame (ids : list string) (s : Service) :
  same_frame s (final (for_each ids del_submitted s)).
Proof.
  revert s. induction ids as [|i ids IH]; intros s.
  - now split.
  - rewrite for_each_cons, del_submitted_run.
    destruct (Dict.delitem i (submitted_experiments s)) as [d|]; [|now split].
    specialize (IH (set_submitted (fun _ => d) s)).
    destruct (for_each ids del_submitted (set_submitted (fun _ => d) s)) as [[r s2] t2].
    exact IH.
Qed.

(** What a drain of a non-empty queue comes to. *)
Lemma drain_run (requests : list string) (s : Service) :
  experiment_cancellation_queue s <> [] ->
  let run := process_experiment_cancellations requests s in
  exists q : list string,
    for_each requests (fun i => cancel_experiment i ;;; ret tt) (set_queue [] s)
      = (Return tt, set_queue q s, []) /\
    experiment_cancellation_queue (final run) = q /\
    filter is_cancelling (trace run) = trace run /\
    map event_id (trace run) = experiment_cancellation_queue s /\
    (forallb cancel_succeeded (trace run) = false ->
     (exists e, outcome run = Raise e) /\ registry_keys (final run) = registry_keys s) /\
    (forallb cancel_succeeded (trace run) = true ->
     incl (experiment_cancellation_queue s) (registry_keys s) /\
     exists s_gather,
       registry_keys s_gather = registry_keys s /\
       outcome run = outcome (for_each (experiment_cancellation_queue s) del_submitted s_gather) /\
       final run = final (for_each (experiment_cancellation_queue s) del_submitted s_gather)).
Proof.
  intros Hne run.
  destruct (process_experiment_cancellations_run requests s Hne)
    as [q [rg [sg [tr [rd [s' [Hreq [Hg [Hd Hrun]]]]]]]]].
  destruct (gather_cancel_run (experiment_cancellation_queue s) (set_queue q s))
    as [rg' [sg' [tr' [Hg' [Hfil [Hids [Hk [Hf [Hret Hin]]]]]]]]].
  rewrite Hg in Hg'. inversion Hg'; subst rg' sg' tr'. clear Hg'.
  pose proof (delete_all_frame (experiment_cancellation_queue s) sg) as Hdf.
  rewrite Hd in Hdf. unfold final in Hdf. simpl in Hdf.
  exists q. split; [exact Hreq|].
  assert (Htr : trace run = tr).
  { unfold run. rewrite Hrun. now destruct rg. }
  rewrite Htr.
  split.
  { unfold run. rewrite Hrun. destruct Hf as [_ Hq], Hdf as [_ Hq'].
    destruct rg; unfold final; simpl; simpl in Hq; congruence. }
  split; [exact Hfil|]. split; [exact Hids|]. split.
  - intros Hfail. rewrite Hfail in Hret. destruct rg as [u|e]; [discriminate|].
    unfold run. rewrite Hrun. unfold outcome, final. simpl.
    split; [now exists e | exact Hk].
  - intros Hok. rewrite Hok in Hret. destruct rg as [u|e]; [|discriminate].
    split; [now apply Hin|]. exists sg. split; [exact Hk|].
    unfold run. rewrite Hrun, Hd. now split.
Qed.

(** C5.  A drain attempts a cancellation on the ids that were in the queue
    when it was called, in their order, and on nothing else; the ids that
    other callers enqueue once the drain has begun are what the queue holds
    afterwards, none of them acted on; a drain that finds the queue empty
    returns at once and leaves the service untouched; a drain that returns
    has removed the drained ids from the registry, and only them. *)
Theorem drain_acts_on_queued_ids (s : Service) (requests : list string) :
  let queued := experiment_cancellation_queue s in
  let run := process_experiment_cancellations requests s in
  let late := for_each requests (fun i => cancel_experiment i ;;; ret tt) (set_queue [] s) in
  cancelled_ids (trace run) = queued /\
  filter is_cancelling (trace run) = trace run /\
  (queued = [] -> run = (Return tt, s, [])) /\
  (queued <> [] ->
   experiment_cancellation_queue (final run) = experiment_cancellation_queue (final late) /\
   (incl requests (registry_keys s) -> List.length requests <= maxsize ->
    experiment_cancellation_queue (final run) = requests)) /\
  (NoDup (registry_keys s) -> outcome run = Return tt ->
   registry_keys (final run) = filter (fun k => negb (mem k queued)) (registry_keys s)).
Proof.
  intros queued run late.
  destruct queued as [|i0 ids0] eqn:Hq.
  - assert (Hrun : run = (Return tt, s, [])).
    { unfold run, process_experiment_cancellations.
      unfold bind at 1. unfold get at 1. fold queued. rewrite Hq. simpl.
      unfold ret. destruct s; simpl in *. unfold queued in Hq. simpl in Hq.
      subst. reflexivity. }
    rewrite Hrun. unfold cancelled_ids, outcome, final, trace. simpl.
    split; [reflexivity|]. split; [reflexivity|]. split; [reflexivity|].
    split; [congruence|]. intros _ _. unfold registry_keys.
    symmetry. apply forallb_filter_id. now apply forallb_forall.
  - assert (Hne : experiment_cancellation_queue s <> []).
    { fold queued. rewrite Hq. discriminate. }
    destruct (drain_run requests s Hne) as [q [Hreq [Hfq [Hfil [Hids [Hfail Hok]]]]]].
    fold run in Hfq, Hfil, Hids, Hfail, Hok. fold queued in Hids, Hok. rewrite Hq in *.
    split; [unfold cancelled_ids; now rewrite Hfil|]. split; [exact Hfil|].
    split; [discriminate|]. split.
    + intros _. split.
      * unfold late. rewrite Hreq. unfold final. simpl. exact Hfq.
      * intros Hincl Hlen. rewrite Hfq.
        destruct (requests_run requests (set_queue [] s)) as [q' [Hreq' Hq']].
        rewrite Hreq in Hreq'.
        assert (Hqq : q = q').
        { apply (f_equal (fun x => experiment_cancellation_queue (final x))) in Hreq'.
          exact Hreq'. }
        subst q'. apply Hq'; [exact Hincl | simpl; lia].
    + intros Hnd Hret.
      destruct (forallb cancel_succeeded (trace run)) eqn:Hall.
      * destruct (Hok eq_refl) as [Hincl [sg [Hk [Hout Hfin]]]].
        rewrite Hout in Hret. rewrite Hfin.
        destruct (delete_all_return (i0 :: ids0) sg) as [Hnd' Hincl'];
          [now rewrite Hk | exact Hret |].
        destruct (delete_all_ok (i0 :: ids0) sg) as [s' [Hdel [Hk' _]]];
          [now rewrite Hk | exact Hnd' | exact Hincl' |].
        rewrite Hdel. unfold final. simpl. now rewrite Hk', Hk.
      * destruct (Hfail eq_refl) as [[e He] _]. congruence.
Qed.

(** A failed cancellation aborts the drain before any deletion: the ids
    whose cancellation succeeded stay registered as well. *)
Lemma failed_cancellation_keeps_registry (s : Service) (requests : list string) :
  let run := process_experiment_cancellations requests s in
  forallb cancel_succeeded (trace run) = false ->
  (exists e, outcome run = Raise e) /\
  registry_keys (final run) = registry_keys s /\
  experiment_cancellation_queue (final run)
    = experiment_cancellation_queue
        (final (for_each requests (fun i => cancel_experiment i ;;; ret tt) (set_queue [] s))).
Proof.
  intros run Hfail.
  destruct (experiment_cancellation_queue s) as [|i0 ids0] eqn:Hq.
  - exfalso. unfold run, process_experiment_cancellations in Hfail.
    unfold bind at 1 in Hfail. unfold get at 1 in Hfail. rewrite Hq in Hfail.
    simpl in Hfail. discriminate.
  - assert (Hne : experiment_cancellation_queue s <> []) by (rewrite Hq; discriminate).
    destruct (drain_run requests s Hne) as [q [Hreq [Hfq [_ [_ [Hf _]]]]]].
    fold run in Hfq, Hf. destruct (Hf Hfail) as [He Hk].
    split; [exact He|]. split; [exact Hk|].
    rewrite Hreq. exact Hfq.
Qed.

(** C10.  A registered id can be enqueued twice before a drain; a drain
    whose ids are not pairwise distinct never returns: when every
    cancellation succeeded it raises [KeyError] on an id that occurs twice,
    at its second deletion.  A drain returns only when its ids were
    pairwise distinct and all of them registered. *)
Theorem duplicate_cancellation_breaks_drain (s : Service) (requests : list string)
    (wf : NoDup (registry_keys s)) :
  let queued := experiment_cancellation_queue s in
  let run := process_experiment_cancellations requests s in
  (forall i : string,
     In i (registry_keys s) -> List.length queued + 2 <= maxsize ->
     experiment_cancellation_queue
       (final ((cancel_experiment i ;;; cancel_experiment i) s)) = queued ++ [i; i]) /\
  (~ NoDup queued -> forallb cancel_succeeded (trace run) = true ->
   exists k : string,
     outcome run = Raise (KeyError k) /\ 2 <= count_occ string_dec queued k) /\
  (~ NoDup queued -> outcome run <> Return tt) /\
  (queued <> [] -> outcome run = Return tt ->
   NoDup queued /\ incl queued (registry_keys s)).
Proof.
  intros queued run.
  assert (Hreturn : queued <> [] -> outcome run = Return tt ->
                    NoDup queued /\ incl queued (registry_keys s)).
  { intros Hne Hret. destruct (drain_run requests s Hne) as [q [_ [_ [_ [_ [Hfail Hok]]]]]].
    fold run in Hfail, Hok. fold queued in Hok.
    destruct (forallb cancel_succeeded (trace run)) eqn:Hall.
    - destruct (Hok eq_refl) as [_ [sg [Hk [Hout _]]]]. rewrite Hout in Hret.
      rewrite <- Hk. apply delete_all_return; [now rewrite Hk | exact Hret].
    - destruct (Hfail eq_refl) as [[e He] _]. congruence. }
  split; [|split; [|split]].
  - intros i Hin Hlen. unfold bind. rewrite cancel_experiment_run.
    apply contains_keys in Hin. unfold registry_keys in Hin. rewrite Hin.
    fold queued.
    assert (H1 : Nat.ltb (List.length queued) maxsize = true) by (apply Nat.ltb_lt; lia).
    rewrite H1. rewrite cancel_experiment_run. simpl. rewrite Hin.
    assert (H2 : Nat.ltb (List.length (queued ++ [i])) maxsize = true).
    { apply Nat.ltb_lt. rewrite length_app. simpl. lia. }
    rewrite H2. unfold final. simpl. now rewrite <- app_assoc.
  - intros Hdup Hall.
    assert (Hne : queued <> []) by (intros E; apply Hdup; rewrite E; constructor).
    destruct (drain_run requests s Hne) as [q [_ [_ [_ [_ [_ Hok]]]]]].
    fold run in Hok. fold queued in Hok.
    destruct (Hok Hall) as [Hincl [sg [Hk [Hout _]]]].
    destruct (outcome run) as [[]|e] eqn:Hrun.
    + exfalso. apply Hdup. now apply Hreturn.
    + destruct (delete_all_raise queued sg e) as [k [-> [Hin Hwhy]]];
        [now rewrite Hk | now rewrite <- Hout |].
      exists k. split; [reflexivity|].
      destruct Hwhy as [Hout' | Hcount]; [|exact Hcount].
      exfalso. apply Hout'. rewrite Hk. now apply Hincl.
  - intros Hdup Hret. apply Hdup. apply Hreturn; [|exact Hret].
    intros E. apply Hdup. rewrite E. constructor.
  - exact Hreturn.
Qed.

End Facts.
End SchedulingFacts.

(* ================================================================== *)
(** * The resource lifecycle guard: proofs *)

Module LoadingFacts.
Import Loading.

Section Facts.
Context {Configuration Plugins Devices Containers : Type}
        {managers : Managers Configuration Plugins Devices Containers}.

Abbreviation Service := (LoadingService Configuration Plugins Devices Containers).

(** ** The usage predicate *)

Lemma experiment_status_eqb_eq (a b : ExperimentStatus) :
  experiment_status_eqb a b = true <-> a = b.
Proof. destruct a, b; simpl; split; congruence. Qed.

Lemma task_status_eqb_eq (a b : TaskStatus) : task_status_eqb a b = true <-> a = b.
Proof. destruct a, b; simpl; split; congruence. Qed.

Lemma experiments_using_lab_members (configured : list (string * ExperimentConfig))
    (lab_id : string) (running found : list Experiment) :
  experiments_using_lab configured lab_id running = Return found ->
  forall x, In x found <->
            In x running /\
            exists config, Dict.get (experiment_type x) configured = Some config /\
                           In lab_id (config_labs config).
Proof.
  revert found. induction running as [|e running IH]; simpl; intros found H x.
  - inversion H; subst. simpl. tauto.
  - destruct (Dict.get (experiment_type e) configured) as [config|] eqn:Hget;
      [|discriminate].
    destruct (experiments_using_lab configured lab_id running) as [found'|err];
      [|discriminate].
    specialize (IH found' eq_refl x). inversion H; subst found. clear H.
    destruct (mem lab_id (config_labs config)) eqn:Hmem.
    + simpl. rewrite IH. split.
      * intros [<- | [Hin Hc]]; [|tauto].
        split; [now left|]. exists config. split; [exact Hget | now apply mem_In].
      * intros [[<- | Hin] Hc]; [now left | right; tauto].
    + rewrite IH. split; [tauto|].
      intros [[<- | Hin] Hc]; [|tauto].
      destruct Hc as [config' [Hget' Hl]]. rewrite Hget in Hget'.
      inversion Hget'; subst config'. apply mem_In in Hl. congruence.
Qed.

Lemma experiments_using_lab_total (configured : list (string * ExperimentConfig))
    (lab_id : string) (running : list Experiment) :
  (forall x, In x running -> Dict.contains (experiment_type x) configured = true) ->
  exists found, experiments_using_lab configured lab_id running = Return found.
Proof.
  induction running as [|e running IH]; simpl; intros H; [now eexists|].
  pose proof (H e (or_introl eq_refl)) as He. unfold Dict.contains in He.
  destruct (Dict.get (experiment_type e) configured); [|discriminate].
  destruct IH as [found ->]; [intros; apply H; now right|]. now eexists.
Qed.

(** Whether the comprehension raises does not depend on the lab asked for. *)
Lemma experiments_using_lab_any_lab (configured : list (string * ExperimentConfig))
    (lab_id lab_id' : string) (running found : list Experiment) :
  experiments_using_lab configured lab_id running = Return found ->
  exists found', experiments_using_lab configured lab_id' running = Return found'.
Proof.
  revert found. induction running as [|e running IH]; simpl; intros found H;
    [now eexists|].
  destruct (Dict.get (experiment_type e) configured); [|discriminate].
  destruct (experiments_using_lab configured lab_id running) as [f|]; [|discriminate].
  destruct (IH f eq_refl) as [f' ->]. now eexists.
Qed.

Lemma lab_usage_any_lab (lab_id lab_id' : string) (s : Service) :
  lab_usage lab_id s = Raise EosExperimentTypeInUseError ->
  lab_usage lab_id' s = Return tt \/
  lab_usage lab_id' s = Raise EosExperimentTypeInUseError.
Proof.
  unfold lab_usage, check_experiments_using_lab. intros H.
  destruct (experiments_using_lab (experiments (configuration_manager s)) lab_id
              (get_experiments EXPERIMENT_RUNNING s)) as [found|e] eqn:Hfound.
  - destruct (experiments_using_lab_any_lab _ _ lab_id' _ _ Hfound) as [found' ->].
    destruct found'; [|now right].
    destruct (check_tasks_using_devices lab_id' None s); [now left | now right].
  - exfalso. clear -H Hfound.
    revert H Hfound. generalize (get_experiments EXPERIMENT_RUNNING s).
    intros l H. revert e H.
    induction l as [|x l IH]; simpl; intros e H Hfound; [discriminate|].
    destruct (Dict.get (experiment_type x) (experiments (configuration_manager s))).
    + destruct (experiments_using_lab (experiments (configuration_manager s)) lab_id l)
        as [f|e'] eqn:Hl; [discriminate|].
      inversion Hfound; subst e'. now apply (IH e).
    + inversion Hfound; subst e. discriminate.
Qed.

(** The predicate of the code flags exactly what the specification calls
    a lab in use, where every RUNNING experiment is of a loaded type. *)
Lemma lab_usage_flags (lab_id : string) (s : Service) :
  running_types_loaded s ->
  (lab_usage lab_id s = Raise EosExperimentTypeInUseError <-> spec_lab_in_use lab_id s).
Proof.
  intros Hloaded. unfold lab_usage, check_experiments_using_lab.
  destruct (experiments_using_lab_total (experiments (configuration_manager s)) lab_id
              (get_experiments EXPERIMENT_RUNNING s)) as [found Hfound].
  { intros x Hx. apply filter_In in Hx. destruct Hx as [Hx Hst].
    apply experiment_status_eqb_eq in Hst. now apply Hloaded. }
  rewrite Hfound.
  pose proof (experiments_using_lab_members _ _ _ _ Hfound) as Hmem.
  assert (Htasks : forall task,
            In task (check_tasks_using_devices lab_id None s) <->
            In task (task_table s) /\
            (task_status task = TASK_RUNNING \/ task_status task = TASK_CREATED) /\
            standalone task = true /\
            exists device, In device (task_devices task) /\ device_lab device = lab_id).
  { intros task. unfold check_tasks_using_devices, get_tasks.
    rewrite filter_In, in_app_iff, !filter_In, !task_status_eqb_eq, andb_true_iff.
    unfold uses_device. rewrite existsb_exists.
    split.
    - intros [Hin [Hst [d [Hd Hlab]]]]. rewrite andb_true_r in Hlab.
      apply String.eqb_eq in Hlab.
      split; [tauto|]. split; [tauto|]. split; [exact Hst|]. now exists d.
    - intros [Hin [Hst [Hsa [d [Hd Hlab]]]]].
      split; [tauto|]. split; [exact Hsa|]. exists d. split; [exact Hd|].
      rewrite andb_true_r. now apply String.eqb_eq. }
  split.
  - intros H. destruct found as [|x found].
    + destruct (check_tasks_using_devices lab_id None s) as [|t ts] eqn:Ht;
        [discriminate|].
      right. destruct (proj1 (Htasks t)) as [Hin [Hst [Hsa [d [Hd Hlab]]]]];
        [now left|].
      exists t, d. tauto.
    + left. destruct (proj1 (Hmem x) (or_introl eq_refl)) as [Hin [config [Hget Hl]]].
      apply filter_In in Hin. destruct Hin as [Hin Hst].
      apply experiment_status_eqb_eq in Hst. exists x, config. tauto.
  - intros [[x [config [Hin [Hst [Hget Hl]]]]] | [t [d [Hin [Hst [Hsa [Hd Hlab]]]]]]].
    + assert (Hx : In x found).
      { apply Hmem. split.
        - apply filter_In. split; [exact Hin | now apply experiment_status_eqb_eq].
        - now exists config. }
      destruct found; [contradiction | reflexivity].
    + destruct found; [|reflexivity].
      assert (Ht : In t (check_tasks_using_devices lab_id None s)).
      { apply Htasks. split; [exact Hin|]. split; [exact Hst|].
        split; [exact Hsa|]. now exists d. }
      destruct (check_tasks_using_devices lab_id None s); [contradiction | reflexivity].
Qed.

(** ** The usage checks of a call *)

Lemma checks_run (labs : list string) (s : Service) :
  exists r tr,
    for_each labs check_lab_usage s = (r, s, tr) /\
    forallb is_check tr = true /\
    (r = Return tt ->
     tr = map CheckedLabUsage labs /\ forall l, In l labs -> lab_usage l s = Return tt) /\
    (forall l, In l labs -> lab_usage l s = Raise EosExperimentTypeInUseError ->
               r = Raise EosExperimentTypeInUseError) /\
    (forall l labs', labs = l :: labs' -> exists tr', tr = CheckedLabUsage l :: tr').
Proof.
  induction labs as [|l labs IH].
  - exists (Return tt), []. split; [reflexivity|]. split; [reflexivity|].
    split; [intros _; split; [reflexivity | intros l []]|].
    split; [intros l [] | discriminate].
  - rewrite for_each_cons. unfold check_lab_usage at 1.
    destruct (lab_usage l s) as [[]|e] eqn:Hl.
    + destruct IH as [r [tr [Hrun [Hchk [Hok [Hflag _]]]]]]. rewrite Hrun.
      exists r, (CheckedLabUsage l :: tr). split; [reflexivity|]. split; [exact Hchk|].
      split; [|split].
      * intros Hr. destruct (Hok Hr) as [-> Hall]. split; [reflexivity|].
        intros l0 [<- | H0]; [exact Hl | now apply Hall].
      * intros l0 [<- | H0] Hf; [congruence | now apply (Hflag l0)].
      * intros l0 labs' [= <- <-]. now exists tr.
    + exists (Raise e), [CheckedLabUsage l]. split; [reflexivity|]. split; [reflexivity|].
      split; [discriminate|]. split.
      * intros l0 [<- | H0] Hf; [congruence|].
        destruct (lab_usage_any_lab l0 l s Hf) as [H | H]; congruence.
      * intros l0 labs' [= <- <-]. now exists [].
Qed.

Lemma call_run {T : Type} (project : Service -> T) (update : T -> Service -> Service)
    (method : T -> result unit * T) (e : event) (s : Service) :
  call project update method e s =
  (fst (method (project s)), update (snd (method (project s))) s, [e]).
Proof. unfold call. now destruct (method (project s)). Qed.

Lemma with_loading_lock_run {A} (body : Coroutine A) (s : Service) :
  with_loading_lock body s =
  let '(r, s1, t1) := body (set_lock (S (loading_lock s)) s) in
  (r, set_lock (Nat.pred (loading_lock s1)) s1, Acquired :: t1 ++ [Released]).
Proof.
  unfold with_loading_lock, finally, bind, modify, emit.
  now destruct (body (set_lock (S (loading_lock s)) s)) as [[r s1] t1].
Qed.

Lemma unload_labs_first_event (l : string) (labs : list string) (s : Service) :
  exists tr, trace (unload_labs (l :: labs) s) = CheckedLabUsage l :: tr.
Proof.
  unfold unload_labs, bind.
  destruct (checks_run (l :: labs) s) as [r [tr [Hrun [_ [_ [_ Hfirst]]]]]].
  rewrite Hrun. destruct (Hfirst l labs eq_refl) as [tr' ->].
  destruct r as [[]|e]; [|now exists tr'].
  match goal with |- context [with_loading_lock ?b s] =>
    destruct (with_loading_lock b s) as [[r2 s2] t2] end.
  now eexists.
Qed.

(** In [unload_labs] the first usage check runs before the lock is taken. *)
Lemma unload_labs_checks_outside_lock (labs : list string) (s : Service) :
  labs <> [] -> one_critical_section false 0 (trace (unload_labs labs s)) = false.
Proof.
  destruct labs as [|l labs]; [congruence|]. intros _.
  destruct (unload_labs_first_event l labs s) as [tr ->]. reflexivity.
Qed.

(** ** The plugin phase of [reload_labs] *)

Lemma same_resources_refl (s : Service) : same_resources s s.
Proof. now repeat split. Qed.

Lemma same_resources_trans (s1 s2 s3 : Service) :
  same_resources s1 s2 -> same_resources s2 s3 -> same_resources s1 s3.
Proof. unfold same_resources. intuition congruence. Qed.

Lemma reload_plugins_of_lab (device_types : list string) (s : Service) :
  let run :=
    for_each device_types
      (fun device_type =>
         call device_plugins set_plugins (reload_plugin device_type)
           (ReloadedPlugin device_type)) s in
  same_resources s (final run) /\ forallb is_plugin_event (trace run) = true.
Proof.
  revert s. induction device_types as [|t ts IH]; intros s.
  - split; [apply same_resources_refl | reflexivity].
  - cbv zeta. rewrite for_each_cons, call_run.
    destruct (reload_plugin t (device_plugins s)) as [[[]|e] p]; simpl fst; simpl snd.
    + specialize (IH (set_plugins p s)). cbv zeta in IH.
      destruct (for_each ts _ (set_plugins p s)) as [[r s2] t2].
      unfold final, trace in *. simpl in *. destruct IH as [Hs Ht].
      split; [|exact Ht].
      eapply same_resources_trans; [|exact Hs]. now repeat split.
    + unfold final, trace. simpl. split; [now repeat split | reflexivity].
Qed.

Lemma reload_plugins_of_run (lab_type : string) (s : Service) :
  same_resources s (final (reload_plugins_of lab_type s)) /\
  forallb is_plugin_event (trace (reload_plugins_of lab_type s)) = true.
Proof.
  unfold reload_plugins_of, bind.
  destruct (read_lab_config (configuration_manager s) lab_type) as [lab_config|e].
  - pose proof (reload_plugins_of_lab (device_types_of lab_config) s) as Hlab.
    cbv zeta in Hlab.
    destruct (for_each (device_types_of lab_config) _ s) as [[r s1] t1].
    exact Hlab.
  - split; [apply same_resources_refl | reflexivity].
Qed.

Lemma reload_device_plugins_run (lab_types : list string) (s : Service) :
  same_resources s (final (reload_device_plugins lab_types s)) /\
  forallb is_plugin_event (trace (reload_device_plugins lab_types s)) = true.
Proof.
  revert s. unfold reload_device_plugins.
  induction lab_types as [|l labs IH]; intros s.
  - split; [apply same_resources_refl | reflexivity].
  - rewrite for_each_cons.
    destruct (reload_plugins_of_run l s) as [Hs1 Ht1].
    destruct (reload_plugins_of l s) as [[[[]|e] s1] t1].
    + specialize (IH s1). destruct (for_each labs reload_plugins_of s1) as [[r s2] t2].
      unfold final, trace in *. simpl in *. destruct IH as [Hs2 Ht2].
      split; [eapply same_resources_trans; eassumption|].
      rewrite forallb_app. now rewrite Ht1, Ht2.
    + split; assumption.
Qed.






(** ** The dependent experiment types *)

Lemma set_add_In (t x : string) (xs : list string) :
  In t (set_add x xs) <-> t = x \/ In t xs.
Proof.
  unfold set_add. destruct (mem x xs) eqn:E.
  - apply mem_In in E. split; [tauto|]. intros [-> | H]; assumption.
  - rewrite in_app_iff. simpl. split; intros H; intuition congruence.
Qed.

Lemma depends_on_spec (lab_types : list string) (config : ExperimentConfig) :
  depends_on lab_types config = true <->
  exists l, In l lab_types /\ In l (config_labs config).
Proof.
  unfold depends_on. rewrite existsb_exists.
  split; intros [l [H1 H2]]; exists l; (split; [exact H1|]); now apply mem_In.
Qed.

Lemma get_experiments_for_labs_spec (lab_types : list string)
    (configured : list (string * ExperimentConfig)) (t : string) :
  In t (get_experiments_for_labs lab_types configured) <->
  exists config, In (t, config) configured /\ depends_on lab_types config = true.
Proof.
  unfold get_experiments_for_labs.
  assert (H : forall acc,
            In t (fold_left
                    (fun experiments_to_reload item =>
                       if depends_on lab_types (snd item)
                       then set_add (fst item) experiments_to_reload
                       else experiments_to_reload) configured acc) <->
            In t acc \/
            exists config, In (t, config) configured /\ depends_on lab_types config = true).
  { induction configured as [|[t0 c0] configured IH]; intros acc; simpl.
    - split; [tauto|]. intros [H | [c [[] _]]]. exact H.
    - rewrite IH. destruct (depends_on lab_types c0) eqn:Hd.
      + rewrite set_add_In. split.
        * intros [[-> | H] | [c [Hin Hc]]]; [right; exists c0; tauto | tauto |].
          right. exists c. tauto.
        * intros [H | [c [[Heq | Hin] Hc]]]; [tauto | | right; exists c; tauto].
          inversion Heq; subst. tauto.
      + split.
        * intros [H | [c [Hin Hc]]]; [tauto | right; exists c; tauto].
        * intros [H | [c [[Heq | Hin] Hc]]]; [tauto | | right; exists c; tauto].
          inversion Heq; subst. congruence. }
  rewrite H. simpl. tauto.
Qed.

(** ** The critical section of [reload_labs], when it returns *)



Lemma reload_labs_run (lab_types : list string) (s : Service) :
  reload_labs lab_types s =
  match reload_device_plugins lab_types s with
  | (Return _, s_p, t_p) =>
      let '(r, s1, t1) :=
        reload_labs_critical_section lab_types
          (set_lock (S (loading_lock s_p)) s_p) in
      (r, set_lock (Nat.pred (loading_lock s1)) s1, t_p ++ Acquired :: t1 ++ [Released])
  | (Raise e, s_p, t_p) => (Raise e, s_p, t_p)
  end.
Proof.
  unfold reload_labs, bind.
  destruct (reload_device_plugins lab_types s) as [[[[]|e] s_p] t_p]; [|reflexivity].
  rewrite with_loading_lock_run.
  now destruct (reload_labs_critical_section lab_types
                  (set_lock (S (loading_lock s_p)) s_p)) as [[r s1] t1].
Qed.


(** ** The lock around the usage checks *)

Lemma critical_section_plain (lab_types : list string) (s0 : Service) :
  Forall (fun e => is_plain e = true)
    (trace (reload_labs_critical_section lab_types s0)).
Proof.
  assert (Hcall : forall T (pr : Service -> T) up (m : T -> result unit * T) e s,
            is_plain e = true ->
            Forall (fun e => is_plain e = true) (trace (call pr up m e s))).
  { intros. rewrite call_run. unfold trace. simpl. now repeat constructor. }
  unfold reload_labs_critical_section.
  apply bind_trace; [constructor|]. intros a s1.
  apply bind_trace.
  { apply for_each_trace. intros x s2. unfold check_lab_usage, trace. simpl.
    now repeat constructor. }
  intros _ s2. repeat (apply bind_trace; [now apply Hcall | intros _ ?s]).
  unfold load_experiments. destruct (get_experiments_for_labs _ _).
  - constructor.
  - now apply Hcall.
Qed.

Lemma one_critical_section_plugins (checked : bool) (depth : nat) (tp rest : list event) :
  forallb is_plugin_event tp = true ->
  one_critical_section checked depth (tp ++ rest) = one_critical_section checked depth rest.
Proof.
  induction tp as [|e tp IH]; simpl; intros H; [reflexivity|].
  apply andb_true_iff in H. destruct H as [He Htp].
  destruct e; try discriminate; now apply IH.
Qed.

Lemma one_critical_section_locked (checked : bool) (depth : nat) (body : list event) :
  Forall (fun e => is_plain e = true) body ->
  one_critical_section checked (S depth) (body ++ [Released]) = true.
Proof.
  intros H. revert checked. induction H as [|e body He Hbody IH]; intros checked; simpl.
  - now rewrite !orb_true_r.
  - destruct e; try discriminate; apply IH.
Qed.

(** In [reload_labs], the sibling of [unload_labs], every usage check runs
    under the lock, which is then held until the last mutation. *)
Lemma reload_labs_checks_inside_lock (lab_types : list string) (s : Service) :
  one_critical_section false 0 (trace (reload_labs lab_types s)) = true.
Proof.
  rewrite reload_labs_run.
  destruct (reload_device_plugins_run lab_types s) as [_ Hp].
  destruct (reload_device_plugins lab_types s) as [[[[]|e] s_p] t_p];
    unfold trace in Hp; simpl in Hp.
  - pose proof (critical_section_plain lab_types
                  (set_lock (S (loading_lock s_p)) s_p)) as Hplain.
    destruct (reload_labs_critical_section lab_types
                (set_lock (S (loading_lock s_p)) s_p)) as [[r s1] t1].
    unfold trace in *. simpl in *.
    rewrite one_critical_section_plugins by exact Hp. simpl.
    now apply one_critical_section_locked.
  - unfold trace. simpl. rewrite <- (app_nil_r t_p).
    now rewrite one_critical_section_plugins.
Qed.

(** ** The claims about the lifecycle guard *)

(** C7.  When the usage predicate flags one of the labs passed to
    [unload_labs], the call raises [EosExperimentTypeInUseError] (the
    ResourceInUse error) and the service is exactly as before: the
    configuration, the device manager and the container manager are
    untouched, and the call has made usage checks only.  Where every RUNNING
    experiment is of a loaded type, the predicate flags what the
    specification calls a lab in use. *)
Theorem unload_labs_in_use (s : Service) (labs : list string) (lab_id : string)
    (member : In lab_id labs) :
  let run := unload_labs labs s in
  let refused :=
    outcome run = Raise EosExperimentTypeInUseError /\
    final run = s /\
    forallb is_check (trace run) = true in
  (lab_usage lab_id s = Raise EosExperimentTypeInUseError -> refused) /\
  (running_types_loaded s -> spec_lab_in_use lab_id s -> refused).
Proof.
  intros run refused.
  assert (H : lab_usage lab_id s = Raise EosExperimentTypeInUseError -> refused).
  { intros Hflag. unfold refused, run, unload_labs, bind.
    destruct (checks_run labs s) as [r [tr [Hrun [Hchk [_ [Hf _]]]]]].
    rewrite Hrun, (Hf lab_id member Hflag). now repeat split. }
  split; [exact H|]. intros Hloaded Huse. apply H. now apply lab_usage_flags.
Qed.


End Facts.
End LoadingFacts.

(* ================================================================== *)
(** * The scheduling core on scripted executors *)

Module SchedulingExamples.
Import Scheduling Scripted SchedulingFacts.

Lemma scripted_contract : progress_contract (ops := scripted_ops).
Proof.
  intros ex d e ex' d'. simpl. unfold progress_experiment.
  destruct (String.eqb (type (definition ex)) "completes"); [discriminate|].
  destruct (String.eqb (type (definition ex)) "fails_second"); [|discriminate].
  destruct (progress_calls ex); [discriminate|]. now intros [= <- _ _].
Qed.

Lemma three_distinct : NoDup (registry_keys three).
Proof. repeat constructor; simpl; intuition discriminate. Qed.

Lemma second_tick_distinct : NoDup (registry_keys second_tick).
Proof. repeat constructor; simpl; intuition discriminate. Qed.

Lemma queued_twice_distinct : NoDup (registry_keys queued_twice).
Proof. repeat constructor; simpl; intuition discriminate. Qed.

(** The scenario of the specification: [A] (priority 10) completes at its
    first progress call, [B] (priority 1) fails at its second one. *)
Example scenario_two_ticks :
  let s0 := service ["completes"; "fails_second"] [] [] in
  let s1 := final (submit_experiment (experiment "B" "fails_second" 1) s0) in
  let s2 := final (submit_experiment (experiment "A" "completes" 10) s1) in
  let tick1 := process_experiments s2 in
  let tick2 := process_experiments (final tick1) in
  registry_keys s2 = ["B"; "A"] /\
  trace tick1 = [Progressed "A" (Return true); Progressed "B" (Return false)] /\
  registry_keys (final tick1) = ["B"] /\
  trace tick2 = [Progressed "B" (Raise EosExperimentExecutionError)] /\
  registry_keys (final tick2) = [].
Proof. vm_compute. repeat split. Qed.

Lemma tick_priority_order_witness :
  NoDup (registry_keys three) /\
  map event_id (trace (process_experiments three)) = ["a"; "c"; "b"].
Proof.
  split; [exact three_distinct|].
  exact (proj2 (proj2 (proj2 (proj2 (proj2
           (tick_priority_order scripted_contract three three_distinct)))))
           "a" "b" "c" _ _ _ eq_refl eq_refl eq_refl eq_refl).
Defined.

Lemma tick_isolates_failures_witness :
  NoDup (registry_keys second_tick) /\
  outcome (process_experiments second_tick) = Return tt /\
  map event_id (trace (process_experiments second_tick)) = ["A"; "B"] /\
  registry_keys (final (process_experiments second_tick)) = [].
Proof.
  split; [exact second_tick_distinct|].
  pose proof (tick_isolates_failures scripted_contract second_tick second_tick_distinct)
    as H.
  cbv zeta in H. destruct H as [Hout [Hids [_ [_ Hkeys]]]].
  split; [exact Hout|]. split; [rewrite Hids; reflexivity|].
  rewrite Hkeys. reflexivity.
Defined.

Lemma resubmission_is_noop_witness :
  NoDup (registry_keys three) /\
  submit_experiment (experiment "b" "idle" 7) three = (Return tt, three, []).
Proof.
  split; [exact three_distinct|].
  pose proof (resubmission_is_noop three (experiment "b" "idle" 7) three_distinct) as H.
  destruct H as [H _]. destruct (H eq_refl) as [_ [_ [_ Hrun]]].
  exact (Hrun eq_refl).
Defined.

Lemma duplicate_cancellation_breaks_drain_witness :
  NoDup (registry_keys queued_twice) /\
  exists k : string,
    outcome (process_experiment_cancellations [] queued_twice) = Raise (KeyError k) /\
    2 <= count_occ string_dec (experiment_cancellation_queue queued_twice) k.
Proof.
  split; [exact queued_twice_distinct|].
  pose proof (duplicate_cancellation_breaks_drain queued_twice [] queued_twice_distinct)
    as H.
  cbv zeta in H. destruct H as [_ [H _]]. apply H.
  - intros Hnd. inversion Hnd as [|? ? Hnotin _]. apply Hnotin. now left.
  - reflexivity.
Defined.

(** C6.  A pass on which ["a"] cancels and ["b"] fails to: the failure is
    raised to the caller and ["b"] stays registered, but so does ["a"],
    whose cancellation succeeded; the deletion loop of lines 179-180 is
    never reached, and neither id is queued any more. *)
Theorem mixed_cancellation_pass :
  let run := process_experiment_cancellations [] mixed in
  trace run = [Cancelling "a" (Return tt);
               Cancelling "b" (Raise EosExperimentExecutionError)] /\
  outcome run = Raise EosExperimentExecutionError /\
  registry_keys (final run) = ["a"; "b"] /\
  experiment_cancellation_queue (final run) = [].
Proof. vm_compute. repeat split. Qed.

End SchedulingExamples.

(* ================================================================== *)
(** * The lifecycle guard on a resource store *)

Module LoadingExamples.
Import Loading Store LoadingFacts.

(** C1.  [unload_labs] on an idle service: the usage check of line 52 is
    the first thing the call does, and the lock is taken after it (line 54),
    so check and mutation are not one critical section; [reload_labs] on the
    same input checks under the lock. *)
Theorem unload_labs_check_precedes_lock :
  trace (unload_labs ["lab1"] idle) =
    [CheckedLabUsage "lab1"; Acquired; ConfigurationUnloadLabs ["lab1"];
     UpdatedDevices (unloaded_labs ["lab1"]); UpdatedContainers (unloaded_labs ["lab1"]);
     Released] /\
  outcome (unload_labs ["lab1"] idle) = Return tt /\
  one_critical_section false 0 (trace (unload_labs ["lab1"] idle)) = false /\
  one_critical_section false 0 (trace (reload_labs ["lab1"] idle)) = true.
Proof. vm_compute. repeat split. Qed.

(** [reload_labs] on the idle service: the experiment type that depends on
    the reloaded lab disappears with it and is loaded again at the end. *)
Example reload_labs_on_store :
  let run := reload_labs ["lab1"] idle in
  outcome run = Return tt /\
  trace run =
    [ReadLabConfig "lab1"; ReloadedPlugin "stirrer"; ReloadedPlugin "balance";
     Acquired; CheckedLabUsage "lab1";
     ConfigurationUnloadLabs ["lab1"];
     UpdatedDevices (unloaded_labs ["lab1"]); UpdatedContainers (unloaded_labs ["lab1"]);
     ConfigurationLoadLabs ["lab1"];
     UpdatedDevices (loaded_labs ["lab1"]); UpdatedContainers (loaded_labs ["lab1"]);
     ConfigurationLoadExperiments ["titration"]; Released] /\
  configuration_manager (final run) = store /\
  fst (cm_unload_labs ["lab1"] store) = Return tt /\
  loaded_experiments (snd (cm_unload_labs ["lab1"] store)) = [].
Proof. vm_compute. repeat split. Qed.

Lemma unload_labs_in_use_witness :
  In "lab1" ["lab1"] /\
  lab_usage "lab1" busy = Raise EosExperimentTypeInUseError /\
  outcome (unload_labs ["lab1"] busy) = Raise EosExperimentTypeInUseError /\
  final (unload_labs ["lab1"] busy) = busy.
Proof.
  split; [now left|]. split; [reflexivity|].
  pose proof (unload_labs_in_use busy ["lab1"] "lab1" (or_introl eq_refl)) as H.
  cbv zeta in H. destruct H as [H _]. destruct (H eq_refl) as [Hout [Hfinal _]].
  split; [exact Hout | exact Hfinal].
Defined.


End LoadingExamples.

(* ================================================================== *)
(** * The example device and its tasks: proofs *)

Module CounterFacts.
Import Counter.

Lemma state_eta (s : CounterState) : {| value := value s |} = s.
Proof. now destruct s. Qed.

Lemma apply_operations_state (ops : list Operation) (s : CounterState) :
  snd (apply_operations ops s) = fold_left (fun state op => apply_operation op state) ops s.
Proof. reflexivity. Qed.

(** X1.  Incrementing and then decrementing by the same amount brings the
    counter back, whatever the amount (negative amounts included), and a
    decrement is the increment by the opposite amount. *)
Theorem increment_decrement_round_trip (n : Z) (s : CounterState) :
  snd (decrement n (snd (increment n s))) = s /\
  snd (increment n (snd (decrement n s))) = s /\
  decrement n s = increment (- n) s.
Proof.
  unfold increment, decrement. simpl. split; [|split].
  - rewrite <- (state_eta s) at 2. f_equal. lia.
  - rewrite <- (state_eta s) at 2. f_equal. lia.
  - replace (value s - n)%Z with (value s + - n)%Z by lia. reflexivity.
Qed.

(** Applying a list of operations in two batches is applying it in one:
    the second batch continues from the state the first one left. *)
Lemma apply_operations_app (ops1 ops2 : list Operation) (s : CounterState) :
  apply_operations (ops1 ++ ops2) s = apply_operations ops2 (snd (apply_operations ops1 s)).
Proof.
  unfold apply_operations. simpl. now rewrite fold_left_app.
Qed.

Lemma apply_operation_delta (op : Operation) (s : CounterState) :
  is_set op = false -> value (apply_operation op s) = (value s + delta op)%Z.
Proof.
  unfold is_set, apply_operation, delta. destruct (action op) as [a|]; [|intros; lia].
  destruct (String.eqb a "increment"); [simpl; intros; lia|].
  destruct (String.eqb a "decrement"); [simpl; intros; lia|].
  intros ->. lia.
Qed.

(** X2.  Without a ["set"] among them, the operations add up: the final value is
    the initial one plus the increments minus the decrements, an absent
    amount counting as 1 and an unknown action as nothing. *)
Theorem apply_operations_sum (ops : list Operation) (s : CounterState)
    (no_set : forallb (fun op => negb (is_set op)) ops = true) :
  fst (apply_operations ops s) = (value s + fold_right Z.add 0 (map delta ops))%Z.
Proof.
  unfold apply_operations. simpl. revert s.
  induction ops as [|op ops IH]; intros s; simpl in *; [lia|].
  apply andb_true_iff in no_set. destruct no_set as [Hop Hops].
  apply negb_true_iff in Hop.
  rewrite (IH Hops), (apply_operation_delta op s Hop). lia.
Qed.

Lemma apply_operation_set (op : Operation) (s s' : CounterState) :
  is_set op = true -> apply_operation op s = apply_operation op s'.
Proof.
  unfold is_set, apply_operation. destruct (action op) as [a|]; [|discriminate].
  intros Hset. apply String.eqb_eq in Hset. subst a. reflexivity.
Qed.

(** X3.  A ["set"] discards what came before it: the result of a list of
    operations depends neither on the initial state nor on the operations
    that precede its last ["set"]. *)
Theorem apply_operations_after_set (before after : list Operation) (op : Operation)
    (s s' : CounterState) (set : is_set op = true) :
  apply_operations (before ++ op :: after) s = apply_operations (op :: after) s'.
Proof.
  rewrite apply_operations_app. unfold apply_operations at 1 3. simpl.
  now rewrite (apply_operation_set op _ s' set).
Qed.

Lemma apply_operation_unknown (op : Operation) (s : CounterState) :
  is_known op = false -> apply_operation op s = s.
Proof.
  unfold is_known, apply_operation. destruct (action op) as [a|]; [|reflexivity].
  destruct (String.eqb a "increment"); [discriminate|].
  destruct (String.eqb a "decrement"); [discriminate|].
  destruct (String.eqb a "set"); [discriminate | reflexivity].
Qed.

(** X4.  Operations without an action, or with an action other than
    ["increment"], ["decrement"] and ["set"], are skipped: removing them
    from the list changes nothing. *)
Theorem apply_operations_skips_unknown (ops : list Operation) (s : CounterState) :
  apply_operations ops s = apply_operations (filter is_known ops) s.
Proof.
  unfold apply_operations.
  assert (H : forall s, fold_left (fun state op => apply_operation op state) ops s =
                        fold_left (fun state op => apply_operation op state)
                          (filter is_known ops) s).
  { induction ops as [|op ops IH]; intros s0; simpl; [reflexivity|].
    destruct (is_known op) eqn:Hk; simpl.
    - apply IH.
    - rewrite (apply_operation_unknown op s0 Hk). apply IH. }
  now rewrite H.
Qed.

Lemma run_task_operation (t : single_task) (counter : CounterState)
    (others : list CounterState) :
  run_task t (counter :: others) =
  inr (value (apply_operation (operation_of t) counter),
       apply_operation (operation_of t) counter :: others).
Proof. destruct t; reflexivity. Qed.

(** X5.  One batch update does what the single tasks do one after another: for
    a non-empty list of increments and sets, [BatchUpdateCounter] returns
    the output of the last single task and leaves the devices as the
    sequence of single tasks leaves them; without a counter device both
    raise [IndexError]. *)
Theorem batch_update_is_sequence_of_tasks (t : single_task) (tasks : list single_task)
    (counters : list CounterState) (output : Z) :
  batch_update_counter counters (Some (map operation_of (t :: tasks)))
  = run_tasks (t :: tasks) counters output.
Proof.
  destruct counters as [|counter others]; [now destruct t|].
  unfold batch_update_counter, with_first_counter, apply_operations.
  revert t counter output. induction tasks as [|t' tasks IH]; intros t counter output.
  - simpl run_tasks. rewrite run_task_operation. reflexivity.
  - change (run_tasks (t :: t' :: tasks) (counter :: others) output)
      with (match run_task t (counter :: others) with
            | inl e => inl e
            | inr (output', counters') => run_tasks (t' :: tasks) counters' output'
            end).
    rewrite run_task_operation. rewrite <- IH. reflexivity.
Qed.

End CounterFacts.

(* ================================================================== *)
(** * The scheduling core: further properties *)

Module SchedulingMore.
Import Scheduling SchedulingFacts.

Section Facts.
Context {Executor Db : Type} {ops : ExecutorOps Executor Db}.

Abbreviation Service := (ExperimentService Executor Db).

(** ** Submission *)

(** X6.  A submit of a fresh id of a loaded type whose executor starts: the
    executor is created once and started once, and is registered last, after
    the ids registered before; queue and configuration are untouched. *)
Theorem submit_registers_last (s : Service) (d : ExperimentDefinition)
    (loaded : mem (type d) (configuration_experiments s) = true)
    (fresh : Dict.contains (id d) (submitted_experiments s) = false)
    (starts : fst (fst (ex_start_experiment (factory_create d) (db s))) = Return tt) :
  let run := submit_experiment d s in
  let started := snd (fst (ex_start_experiment (factory_create d) (db s))) in
  outcome run = Return tt /\
  trace run = [Created d; Started (id d) (Return tt)] /\
  registry_keys (final run) = registry_keys s ++ [id d] /\
  submitted_experiments (final run) = submitted_experiments s ++ [(id d, started)] /\
  same_frame s (final run).
Proof.
  intros run started. unfold run, started. rewrite submit_experiment_run, loaded, fresh.
  destruct (ex_start_experiment (factory_create d) (db s)) as [[r ex'] db'].
  simpl in starts. subst r. unfold outcome, trace, final, registry_keys. simpl.
  assert (Happ : Dict.setitem (id d) ex' (submitted_experiments s)
                 = submitted_experiments s ++ [(id d, ex')]).
  { apply contains_false_keys in fresh. revert fresh.
    induction (submitted_experiments s) as [|[k v] l IH]; simpl; intros H; [reflexivity|].
    destruct (String.eqb (id d) k) eqn:E.
    - apply String.eqb_eq in E. subst. tauto.
    - f_equal. apply IH. tauto. }
  rewrite Happ. unfold Dict.keys. rewrite map_app. simpl.
  repeat split.
Qed.

(** ** Cancellation requests *)

(** X7.  A cancellation request never touches the registry and never raises; for
    an unregistered id, and on a full queue, it leaves the service as it
    was; otherwise it appends the id.  The queue never grows beyond its
    capacity. *)
Theorem cancel_request_bounded (s : Service) (i : string) :
  let run := cancel_experiment i s in
  let queue := experiment_cancellation_queue s in
  let queue' := experiment_cancellation_queue (final run) in
  submitted_experiments (final run) = submitted_experiments s /\
  trace run = [] /\
  (Dict.contains i (submitted_experiments s) = false -> run = (Return Ignored, s, [])) /\
  (maxsize <= List.length queue -> Dict.contains i (submitted_experiments s) = true ->
   run = (Return Suspended, s, [])) /\
  (List.length queue < maxsize -> Dict.contains i (submitted_experiments s) = true ->
   outcome run = Return Enqueued /\ queue' = queue ++ [i]) /\
  (List.length queue <= maxsize -> List.length queue' <= maxsize).
Proof.
  intros run queue queue'. unfold queue', queue, run. rewrite cancel_experiment_run.
  destruct (Dict.contains i (submitted_experiments s)) eqn:Hreg.
  - destruct (Nat.ltb (List.length (experiment_cancellation_queue s)) maxsize) eqn:Hlt.
    + apply Nat.ltb_lt in Hlt. unfold final, trace, outcome. simpl.
      repeat split; try discriminate; try lia.
      intros _. rewrite length_app. simpl. lia.
    + apply Nat.ltb_ge in Hlt. unfold final, trace, outcome. simpl.
      repeat split; try discriminate; try lia.
  - unfold final, trace, outcome. simpl. repeat split; try discriminate; try lia.
Qed.

(** ** The drain *)

Lemma gather_cancel_unregistered (ids : list string) (i : string) (s : Service) :
  In i ids -> ~ In i (registry_keys s) ->
  In (Cancelling i (Raise (KeyError i))) (trace (gather (map cancel ids) s)).
Proof.
  revert s. induction ids as [|j ids IH]; intros s Hin Hout; [contradiction|].
  simpl. destruct (cancel_run j s) as [r1 [s1 [Hc [Hk1 [_ Hreg]]]]].
  pose proof (IH s1) as IH1. rewrite Hc.
  destruct (gather (map cancel ids) s1) as [[r2 s2] t2]. unfold trace in *. simpl in *.
  destruct Hin as [-> | Hin].
  - left. f_equal. unfold cancel in Hc.
    apply contains_false_keys in Hout. unfold Dict.contains in Hout.
    unfold registry_keys in Hout.
    destruct (Dict.get i (submitted_experiments s)); [discriminate|].
    now inversion Hc.
  - right. apply IH1; [exact Hin | now rewrite Hk1].
Qed.

Lemma requests_queue_members (rs : list string) (s0 : Service) (q0 : list string) :
  for_each rs (fun i => cancel_experiment i ;;; ret tt) s0
    = (Return tt, set_queue q0 s0, []) ->
  forall k, In k q0 -> In k (experiment_cancellation_queue s0) \/ In k rs.
Proof.
  revert s0 q0. induction rs as [|r rs IH]; intros s0 q0 Hrun k Hk.
  - simpl in Hrun. unfold ret in Hrun.
    apply (f_equal (fun x => experiment_cancellation_queue (final x))) in Hrun.
    unfold final in Hrun. simpl in Hrun. left. now rewrite Hrun.
  - destruct (requests_run rs s0) as [q1 [Hrest1 _]].
    destruct (requests_run rs (set_queue (experiment_cancellation_queue s0 ++ [r]) s0))
      as [q2 [Hrest2 _]].
    rewrite for_each_cons in Hrun. unfold bind at 1 in Hrun.
    rewrite cancel_experiment_run in Hrun.
    destruct (Dict.contains r (submitted_experiments s0));
      [destruct (Nat.ltb (List.length (experiment_cancellation_queue s0)) maxsize)|];
      unfold ret at 1 in Hrun; simpl in Hrun.
    + rewrite Hrest2 in Hrun.
      apply (f_equal (fun x => experiment_cancellation_queue (final x))) in Hrun.
      unfold final in Hrun. simpl in Hrun. subst q2.
      destruct (IH _ _ Hrest2 k Hk) as [H | H].
      * simpl in H. apply in_app_or in H. destruct H as [H | [<- | []]];
          [now left | right; now left].
      * right. now right.
    + rewrite Hrest1 in Hrun.
      apply (f_equal (fun x => experiment_cancellation_queue (final x))) in Hrun.
      unfold final in Hrun. simpl in Hrun. subst q1.
      destruct (IH _ _ Hrest1 k Hk) as [H | H]; [now left | right; now right].
    + rewrite Hrest1 in Hrun.
      apply (f_equal (fun x => experiment_cancellation_queue (final x))) in Hrun.
      unfold final in Hrun. simpl in Hrun. subst q1.
      destruct (IH _ _ Hrest1 k Hk) as [H | H]; [now left | right; now right].
Qed.

(** X8.  A cancellation request that has gone stale (its experiment left the
    registry before the drain, for instance by completing) makes the whole
    drain fail: the call raises, and no queued experiment is removed from
    the registry, although the queue has been emptied of all of them. *)
Theorem stale_cancellation_fails_drain (s : Service) (requests : list string) (i : string)
    (queued : In i (experiment_cancellation_queue s))
    (stale : ~ In i (registry_keys s)) :
  let run := process_experiment_cancellations requests s in
  (exists e, outcome run = Raise e) /\
  In (Cancelling i (Raise (KeyError i))) (trace run) /\
  registry_keys (final run) = registry_keys s /\
  (forall k, In k (experiment_cancellation_queue s) -> ~ In k requests ->
             ~ In k (experiment_cancellation_queue (final run))).
Proof.
  intros run.
  assert (Hne : experiment_cancellation_queue s <> []).
  { intros E. rewrite E in queued. contradiction. }
  destruct (process_experiment_cancellations_run requests s Hne)
    as [q [rg [sg [tr [rd [s' [Hreq [Hg [Hd Hrun]]]]]]]]].
  assert (Htr : trace run = tr).
  { unfold run. rewrite Hrun. now destruct rg. }
  assert (Hin : In (Cancelling i (Raise (KeyError i))) tr).
  { pose proof (gather_cancel_unregistered (experiment_cancellation_queue s) i
                  (set_queue q s) queued stale) as H.
    now rewrite Hg in H. }
  assert (Hfail : forallb cancel_succeeded (trace run) = false).
  { rewrite Htr. destruct (forallb cancel_succeeded tr) eqn:E; [|reflexivity].
    rewrite forallb_forall in E. specialize (E _ Hin). discriminate. }
  destruct (failed_cancellation_keeps_registry s requests Hfail) as [He [Hk Hq]].
  fold run in He, Hk, Hq.
  split; [exact He|]. split; [now rewrite Htr|]. split; [exact Hk|].
  intros k _ Hk' Hin'. rewrite Hq, Hreq in Hin'. unfold final in Hin'. simpl in Hin'.
  destruct (requests_queue_members requests (set_queue [] s) q Hreq k Hin') as [[] | Hr].
  contradiction.
Qed.

(** X9.  When the queued ids are pairwise distinct and every cancellation
    succeeded, the drain returns and has removed exactly the queued ids,
    keeping the others in their order. *)
Theorem clean_drain_returns (s : Service) (requests : list string)
    (wf : NoDup (registry_keys s))
    (distinct : NoDup (experiment_cancellation_queue s))
    (succeeded :
       forallb cancel_succeeded (trace (process_experiment_cancellations requests s)) = true) :
  let run := process_experiment_cancellations requests s in
  outcome run = Return tt /\
  incl (experiment_cancellation_queue s) (registry_keys s) /\
  registry_keys (final run)
    = filter (fun k => negb (mem k (experiment_cancellation_queue s))) (registry_keys s).
Proof.
  intros run.
  destruct (experiment_cancellation_queue s) as [|i0 ids0] eqn:Hq.
  - assert (Hrun : run = (Return tt, s, [])).
    { unfold run, process_experiment_cancellations.
      unfold bind at 1. unfold get at 1. rewrite Hq. simpl.
      unfold ret. destruct s; simpl in *. subst. reflexivity. }
    rewrite Hrun. unfold outcome, final. simpl.
    split; [reflexivity|]. split; [intros k []|].
    symmetry. apply forallb_filter_id. now apply forallb_forall.
  - assert (Hne : experiment_cancellation_queue s <> []) by (rewrite Hq; discriminate).
    destruct (drain_run requests s Hne) as [q [_ [_ [_ [_ [_ Hok]]]]]].
    fold run in Hok. destruct (Hok succeeded) as [Hincl [sg [Hk [Hout Hfin]]]].
    rewrite Hq in *.
    destruct (delete_all_ok (i0 :: ids0) sg) as [s' [Hdel [Hk' _]]];
      [now rewrite Hk | exact distinct | now rewrite Hk |].
    rewrite Hout, Hfin, Hdel. unfold outcome, final. simpl.
    split; [reflexivity|]. split; [exact Hincl|]. now rewrite Hk', Hk.
Qed.

(** ** The tick, whatever the executors raise *)

Lemma progress_all_cons (i : string) (ex : Executor) (l : list (string * Executor))
    (c f : list string) (s : Service) :
  progress_all ((i, ex) :: l) c f s =
  let '(r, ex', db') := ex_progress_experiment ex (db s) in
  let s1 := set_db db' (set_submitted (Dict.mutate i ex') s) in
  match r with
  | Return b =>
      let '(r2, s2, t2) := progress_all l (if b then c ++ [i] else c) f s1 in
      (r2, s2, Progressed i r :: t2)
  | Raise e =>
      if is_execution_error e
      then let '(r2, s2, t2) := progress_all l c (f ++ [i]) s1 in
           (r2, s2, Progressed i r :: t2)
      else (Raise e, s1, [Progressed i r])
  end.
Proof.
  simpl. unfold bind at 1. unfold try_except, bind at 1. unfold progress.
  destruct (ex_progress_experiment ex (db s)) as [[[b|e] ex'] db'].
  - unfold ret at 1. simpl.
    now destruct (progress_all l (if b then c ++ [i] else c) f _) as [[r2 s2] t2].
  - destruct (is_execution_error e); [|reflexivity].
    unfold ret at 1. simpl.
    now destruct (progress_all l c (f ++ [i]) _) as [[r2 s2] t2].
Qed.

Lemma progress_all_any (l : list (string * Executor)) (c f : list string) (s : Service) :
  let run := progress_all l c f s in
  registry_keys (final run) = registry_keys s /\
  same_frame s (final run) /\
  (forall acc, outcome run = Return acc ->
     acc = (c ++ completed_of (trace run), f ++ failed_of (trace run)) /\
     map event_id (trace run) = map fst l) /\
  (forall e, outcome run = Raise e ->
     is_execution_error e = false /\
     exists pre i ex post,
       l = pre ++ (i, ex) :: post /\
       map event_id (trace run) = map fst pre ++ [i] /\
       In (Progressed i (Raise e)) (trace run)).
Proof.
  revert c f s. induction l as [|[i ex] l IH]; intros c f s run; subst run.
  - simpl. unfold ret, outcome, final, trace, completed_of, failed_of. simpl.
    split; [reflexivity|]. split; [now split|]. split.
    + intros acc [= <-]. now rewrite !app_nil_r.
    + discriminate.
  - rewrite progress_all_cons.
    destruct (ex_progress_experiment ex (db s)) as [[r ex'] db'] eqn:Hp.
    set (s1 := set_db db' (set_submitted (Dict.mutate i ex') s)).
    assert (Hk1 : registry_keys s1 = registry_keys s).
    { unfold s1, registry_keys. simpl. apply keys_mutate. }
    assert (Hf1 : same_frame s s1) by now split.
    assert (Hstep : forall c1 f1 (ev : event) r2 s2 t2,
              progress_all l c1 f1 s1 = (r2, s2, t2) ->
              event_id ev = i ->
              c ++ completed_of [ev] = c1 -> f ++ failed_of [ev] = f1 ->
              let run' := (r2, s2, ev :: t2) in
              registry_keys (final run') = registry_keys s /\
              same_frame s (final run') /\
              (forall acc, outcome run' = Return acc ->
                 acc = (c ++ completed_of (trace run'), f ++ failed_of (trace run')) /\
                 map event_id (trace run') = map fst ((i, ex) :: l)) /\
              (forall e, outcome run' = Raise e ->
                 is_execution_error e = false /\
                 exists pre i0 ex0 post,
                   (i, ex) :: l = pre ++ (i0, ex0) :: post /\
                   map event_id (trace run') = map fst pre ++ [i0] /\
                   In (Progressed i0 (Raise e)) (trace run'))).
    { intros c1 f1 ev r2 s2 t2 Hrun Hid Hc Hf run'.
      pose proof (IH c1 f1 s1) as IH1. cbv zeta in IH1. rewrite Hrun in IH1.
      destruct IH1 as [Hk [Hfr [Hret Hraise]]].
      unfold run', outcome, final, trace in *. simpl in *.
      split; [congruence|]. split.
      { destruct Hfr, Hf1. split; congruence. }
      split.
      - intros acc Hacc. destruct (Hret acc Hacc) as [-> Hids]. split.
        + rewrite completed_of_cons, failed_of_cons.
          unfold completed_of, failed_of in Hc, Hf. simpl in Hc, Hf.
          subst c1 f1.
          destruct (is_completed ev), (is_failed ev); simpl;
            rewrite ?Hid, <- ?app_assoc, ?app_nil_r; reflexivity.
        + now rewrite Hid, Hids.
      - intros e He. destruct (Hraise e He) as [Hne [pre [i0 [ex0 [post [Hl [Hids Hin]]]]]]].
        split; [exact Hne|]. exists ((i, ex) :: pre), i0, ex0, post.
        split; [now rewrite Hl|]. split; [simpl; now rewrite Hid, Hids | now right]. }
    cbv zeta. fold s1. destruct r as [b | e].
    + destruct (progress_all l (if b then c ++ [i] else c) f s1) as [[r2 s2] t2] eqn:Hrun.
      apply (Hstep _ _ (Progressed i (Return b)) _ _ _ Hrun eq_refl).
      * unfold completed_of. destruct b; simpl; now rewrite ?app_nil_r.
      * unfold failed_of. simpl. now rewrite app_nil_r.
    + destruct (is_execution_error e) eqn:He.
      * destruct (progress_all l c (f ++ [i]) s1) as [[r2 s2] t2] eqn:Hrun.
        apply (Hstep _ _ (Progressed i (Raise e)) _ _ _ Hrun eq_refl).
        -- unfold completed_of. simpl. now rewrite app_nil_r.
        -- unfold failed_of. reflexivity.
      * unfold outcome, final, trace. simpl.
        split; [exact Hk1|]. split; [exact Hf1|]. split; [discriminate|].
        intros e0 [= <-]. split; [exact He|].
        exists [], i, ex, l. split; [reflexivity|]. split; [reflexivity | now left].
Qed.

Lemma delete_all_keys (ids : list string) (s : Service) :
  NoDup (registry_keys s) ->
  NoDup (registry_keys (final (for_each ids del_submitted s))) /\
  incl (registry_keys (final (for_each ids del_submitted s))) (registry_keys s).
Proof.
  revert s. induction ids as [|i ids IH]; intros s Hnd.
  - split; [exact Hnd | apply incl_refl].
  - rewrite for_each_cons, del_submitted_run.
    destruct (Dict.delitem i (submitted_experiments s)) as [d|] eqn:Hdel.
    + pose proof (delitem_keys _ _ _ Hnd Hdel) as Hkeys.
      destruct (IH (set_submitted (fun _ => d) s)) as [Hnd' Hincl].
      { unfold registry_keys; simpl. rewrite Hkeys. now apply NoDup_filter. }
      destruct (for_each ids del_submitted (set_submitted (fun _ => d) s)) as [[r s2] t2].
      unfold final in *. simpl in *. split; [exact Hnd'|].
      intros k Hk. apply Hincl in Hk. unfold registry_keys in Hk; simpl in Hk.
      rewrite Hkeys in Hk. apply filter_In in Hk. tauto.
    + split; [exact Hnd | apply incl_refl].
Qed.

Lemma process_experiments_unfold (s : Service) :
  process_experiments s =
  match submitted_experiments s with
  | [] => (Return tt, s, [])
  | _ =>
      match progress_all (get_sorted_experiments s) [] [] s with
      | (Return acc, s1, tr) =>
          let '(r, s2, t2) := for_each (fst acc ++ snd acc) del_submitted s1 in
          (r, s2, tr ++ t2)
      | (Raise e, s1, tr) => (Raise e, s1, tr)
      end
  end.
Proof.
  unfold process_experiments. unfold bind at 1. unfold get at 1.
  destruct (submitted_experiments s) as [|x rest]; [reflexivity|].
  unfold bind at 1.
  destruct (progress_all (get_sorted_experiments s) [] [] s) as [[[acc|e] s1] tr];
    [|reflexivity].
  rewrite for_each_app.
  destruct ((for_each (fst acc) del_submitted ;;; for_each (snd acc) del_submitted) s1)
    as [[r s2] t2].
  reflexivity.
Qed.

(** X10.  A tick that raises has raised, out of a progress call, an exception
    that is no [EosExperimentExecutionError]: it stopped there, after a
    prefix of the snapshot, and removed nothing from the registry, the
    experiments that completed in that pass included. *)
Theorem unexpected_exception_halts_tick (s : Service) (e : exn)
    (wf : NoDup (registry_keys s))
    (raised : outcome (process_experiments s) = Raise e) :
  let run := process_experiments s in
  is_execution_error e = false /\
  registry_keys (final run) = registry_keys s /\
  same_frame s (final run) /\
  exists pre i ex post,
    get_sorted_experiments s = pre ++ (i, ex) :: post /\
    map event_id (trace run) = map fst pre ++ [i] /\
    In (Progressed i (Raise e)) (trace run).
Proof.
  intros run.
  destruct (progress_all_any (get_sorted_experiments s) [] [] s)
    as [Hk [Hf [Hret Hraise]]].
  unfold run in *. rewrite process_experiments_unfold in *.
  destruct (submitted_experiments s) as [|x rest]; [discriminate|].
  destruct (progress_all (get_sorted_experiments s) [] [] s) as [[[acc|e'] s1] tr] eqn:Hpass;
    unfold outcome, final, trace in *; simpl in *.
  - exfalso. destruct (Hret acc eq_refl) as [-> Hids]. simpl in raised.
    assert (Hndtr : NoDup (map event_id tr)).
    { rewrite Hids. eapply Permutation_NoDup; [symmetry; apply sorted_ids_perm | exact wf]. }
    destruct (delete_all_ok (completed_of tr ++ failed_of tr) s1) as [s' [Hdel _]].
    + now rewrite Hk.
    + now apply pass_ids_distinct.
    + rewrite Hk. intros k Hin.
      eapply Permutation_in; [apply sorted_ids_perm|]. rewrite <- Hids.
      apply in_app_or in Hin. unfold completed_of, failed_of in Hin.
      destruct Hin as [Hin | Hin]; apply in_map_iff in Hin;
        destruct Hin as [a [<- Ha]]; apply filter_In in Ha; apply in_map; tauto.
    + rewrite Hdel in raised. discriminate.
  - inversion raised; subst e'. destruct (Hraise e eq_refl) as [Hne Hex].
    split; [exact Hne|]. split; [exact Hk|]. split; [exact Hf|]. exact Hex.
Qed.

(** X11.  Ids stay unique: whatever it returns or raises, no operation of the
    service leaves an id registered twice, and neither a tick nor a drain
    nor a cancellation request registers an id. *)
Theorem registry_ids_stay_unique (s : Service) (wf : NoDup (registry_keys s)) :
  (forall d, NoDup (registry_keys (final (submit_experiment d s)))) /\
  (forall i, registry_keys (final (cancel_experiment i s)) = registry_keys s) /\
  (NoDup (registry_keys (final (process_experiments s))) /\
   incl (registry_keys (final (process_experiments s))) (registry_keys s)) /\
  (forall requests,
     NoDup (registry_keys (final (process_experiment_cancellations requests s))) /\
     incl (registry_keys (final (process_experiment_cancellations requests s)))
          (registry_keys s)).
Proof.
  split; [|split; [|split]].
  - intros d. rewrite submit_experiment_run.
    destruct (mem (type d) (configuration_experiments s)); [|exact wf].
    destruct (Dict.contains (id d) (submitted_experiments s)) eqn:Hreg; [exact wf|].
    apply contains_false_keys in Hreg.
    destruct (ex_start_experiment (factory_create d) (db s)) as [[[[]|e] ex'] db'];
      unfold final, registry_keys; simpl.
    + rewrite keys_setitem_fresh by exact Hreg.
      apply NoDup_app; [exact wf | repeat constructor; auto |].
      intros k Hk [<- | []]. contradiction.
    + destruct (is_execution_error e); simpl; [|exact wf].
      now rewrite pop_default_absent.
  - intros i. rewrite cancel_experiment_run.
    destruct (Dict.contains i (submitted_experiments s)); [|reflexivity].
    now destruct (Nat.ltb (List.length (experiment_cancellation_queue s)) maxsize).
  - destruct (progress_all_any (get_sorted_experiments s) [] [] s) as [Hk _].
    rewrite process_experiments_unfold.
    destruct (submitted_experiments s) as [|x rest].
    + unfold final. simpl. split; [exact wf | apply incl_refl].
    + destruct (progress_all (get_sorted_experiments s) [] [] s) as [[[acc|e'] s1] tr];
        unfold final in Hk; simpl in Hk.
      * destruct (delete_all_keys (fst acc ++ snd acc) s1) as [Hnd Hincl];
          [now rewrite Hk|].
        destruct (for_each (fst acc ++ snd acc) del_submitted s1) as [[r2 s2] t2].
        unfold final in *. simpl in *. rewrite <- Hk. now split.
      * unfold final. simpl. rewrite Hk. split; [exact wf | apply incl_refl].
  - intros requests.
    destruct (experiment_cancellation_queue s) as [|i0 ids0] eqn:Hq.
    + assert (Hrun : process_experiment_cancellations requests s = (Return tt, s, [])).
      { unfold process_experiment_cancellations.
        unfold bind at 1. unfold get at 1. rewrite Hq. simpl.
        unfold ret. destruct s; simpl in *. subst. reflexivity. }
      rewrite Hrun. split; [exact wf | apply incl_refl].
    + assert (Hne : experiment_cancellation_queue s <> []) by (rewrite Hq; discriminate).
      destruct (process_experiment_cancellations_run requests s Hne)
        as [q [rg [sg [tr [rd [s' [Hreq [Hg [Hd Hrun]]]]]]]]].
      destruct (gather_cancel_run (experiment_cancellation_queue s) (set_queue q s))
        as [rg' [sg' [tr' [Hg' [_ [_ [Hk _]]]]]]].
      rewrite Hg in Hg'. inversion Hg'; subst rg' sg' tr'.
      change (registry_keys (set_queue q s)) with (registry_keys s) in Hk.
      rewrite Hrun. destruct rg as [[]|e].
      * destruct (delete_all_keys (experiment_cancellation_queue s) sg) as [Hnd Hincl];
          [now rewrite Hk|].
        rewrite Hd in Hnd, Hincl. unfold final in *. simpl in *.
        rewrite <- Hk. now split.
      * unfold final. simpl. rewrite Hk. split; [exact wf | apply incl_refl].
Qed.

(** ** The order of a tick *)

(** X12.  Experiments of one priority are progressed in the order they were
    submitted; in any registry, no experiment has a higher priority than the
    one progressed first. *)
Theorem tick_order_edges (s : Service) (wf : NoDup (registry_keys s)) :
  ((forall x y, In x (submitted_experiments s) -> In y (submitted_experiments s) ->
                priority_of x = priority_of y) ->
   get_sorted_experiments s = submitted_experiments s) /\
  (forall first rest x,
     get_sorted_experiments s = first :: rest -> In x (submitted_experiments s) ->
     (priority_of x <= priority_of first)%Z).
Proof.
  rewrite (get_sorted_by_priority s wf). split.
  - intros Heq. destruct (submitted_experiments s) as [|x0 l] eqn:Hsub; [reflexivity|].
    rewrite <- Hsub in *.
    pose proof (sorted_reverse_stable priority_of (priority_of x0) (submitted_experiments s))
      as Hst.
    assert (Hall : forall l', (forall y, In y l' -> In y (submitted_experiments s)) ->
              filter (fun a => (priority_of a =? priority_of x0)%Z) l' = l').
    { intros l' Hl'. apply forallb_filter_id. apply forallb_forall. intros y Hy.
      apply Z.eqb_eq. apply Heq; [now apply Hl' | rewrite Hsub; now left]. }
    rewrite (Hall (submitted_experiments s)) in Hst by auto.
    rewrite Hall in Hst; [exact Hst|].
    intros y Hy. eapply Permutation_in; [apply sorted_reverse_perm | exact Hy].
  - intros first rest x Hs Hx.
    pose proof (sorted_reverse_sorted priority_of (submitted_experiments s)) as Hsorted.
    rewrite Hs in Hsorted. inversion Hsorted as [|? ? _ Hall]; subst.
    assert (Hin : In x (first :: rest)).
    { rewrite <- Hs. eapply Permutation_in; [symmetry; apply sorted_reverse_perm | exact Hx]. }
    destruct Hin as [<- | Hin]; [lia|].
    rewrite Forall_forall in Hall. specialize (Hall x Hin). unfold descending in Hall. lia.
Qed.

End Facts.
End SchedulingMore.

(* ================================================================== *)
(** * The resource lifecycle guard: further properties *)

Module LoadingMore.
Import Loading LoadingFacts.

Section Facts.
Context {Configuration Plugins Devices Containers : Type}
        {managers : Managers Configuration Plugins Devices Containers}.

Abbreviation Service := (LoadingService Configuration Plugins Devices Containers).
Abbreviation Coroutine := (M (St := Service) (Ev := event)).

(** ** What a step leaves alone *)

Lemma bind_keeps {X A B : Type} (f : Service -> X) (m : Coroutine A) (k : A -> Coroutine B) :
  (forall s, f (final (m s)) = f s) -> (forall a s, f (final (k a s)) = f s) ->
  forall s, f (final (bind m k s)) = f s.
Proof.
  intros Hm Hk s. unfold bind, final in *. specialize (Hm s).
  destruct (m s) as [[[a|e] s1] t1]; simpl in *; [|exact Hm].
  specialize (Hk a s1). destruct (k a s1) as [[r s2] t2]. simpl in *. congruence.
Qed.

Lemma for_each_keeps {X A : Type} (f : Service -> X) (xs : list A)
    (body : A -> Coroutine unit) :
  (forall x s, f (final (body x s)) = f s) ->
  forall s, f (final (for_each xs body s)) = f s.
Proof.
  intros Hbody. induction xs as [|x xs IH]; intros s; simpl; [reflexivity|].
  apply bind_keeps; [apply Hbody | intros _; apply IH].
Qed.

Lemma checks_keep (labs : list string) (s : Service) :
  final (for_each labs check_lab_usage s) = s.
Proof.
  destruct (checks_run labs s) as [r [tr [Hrun _]]]. now rewrite Hrun.
Qed.

Lemma critical_section_keeps_lock (lab_types : list string) (s : Service) :
  loading_lock (final (reload_labs_critical_section lab_types s)) = loading_lock s.
Proof.
  revert s. unfold reload_labs_critical_section.
  apply bind_keeps; [reflexivity|]. intros s0.
  apply bind_keeps; [intros s; now rewrite checks_keep|]. intros _.
  repeat (apply bind_keeps; [intros s; now rewrite call_run | intros _]).
  intros s. unfold load_experiments.
  destruct (get_experiments_for_labs _ _); [reflexivity | now rewrite call_run].
Qed.

Lemma with_loading_lock_keeps_lock {A} (body : Coroutine A) :
  (forall s, loading_lock (final (body s)) = loading_lock s) ->
  forall s, loading_lock (final (with_loading_lock body s)) = loading_lock s.
Proof.
  intros Hbody s. rewrite with_loading_lock_run.
  specialize (Hbody (set_lock (S (loading_lock s)) s)).
  destruct (body (set_lock (S (loading_lock s)) s)) as [[r s1] t1].
  unfold final in *. simpl in *. now rewrite Hbody.
Qed.

(** The three calls of [load_labs] and [unload_labs], step by step. *)
Lemma update_labs_run (cm : Configuration -> result unit * Configuration) (d : delta)
    (e1 : event) (s : Service) :
  (call configuration_manager set_configuration cm e1 ;;;
   call device_manager set_devices (update_devices d) (UpdatedDevices d) ;;;
   call container_manager set_containers (update_containers d) (UpdatedContainers d)) s =
  let '(r1, c1) := cm (configuration_manager s) in
  match r1 with
  | Raise e => (Raise e, set_configuration c1 s, [e1])
  | Return _ =>
      let '(r2, d2) := update_devices d (device_manager s) in
      match r2 with
      | Raise e => (Raise e, set_devices d2 (set_configuration c1 s), [e1; UpdatedDevices d])
      | Return _ =>
          let '(r3, k3) := update_containers d (container_manager s) in
          (r3, set_containers k3 (set_devices d2 (set_configuration c1 s)),
           [e1; UpdatedDevices d; UpdatedContainers d])
      end
  end.
Proof.
  unfold bind. rewrite call_run.
  destruct (cm (configuration_manager s)) as [[[]|e] c1]; simpl; [|reflexivity].
  rewrite call_run. simpl.
  destruct (update_devices d (device_manager s)) as [[[]|e] d2]; simpl; [|reflexivity].
  rewrite call_run. simpl.
  now destruct (update_containers d (container_manager s)) as [r3 k3].
Qed.

(** X13.  The lock is released on every way out: whatever they return or raise,
    [load_labs], [unload_labs] and [reload_labs] leave the depth of the
    reentrant lock as they found it. *)
Theorem loading_lock_restored (labs : list string) (s : Service) :
  loading_lock (final (load_labs labs s)) = loading_lock s /\
  loading_lock (final (unload_labs labs s)) = loading_lock s /\
  loading_lock (final (reload_labs labs s)) = loading_lock s.
Proof.
  assert (Hbody : forall (cm : Configuration -> result unit * Configuration) d e1
                         (s0 : Service),
            loading_lock
              (final ((call configuration_manager set_configuration cm e1 ;;;
                       call device_manager set_devices (update_devices d)
                         (UpdatedDevices d) ;;;
                       call container_manager set_containers (update_containers d)
                         (UpdatedContainers d)) s0)) = loading_lock s0).
  { intros cm d e1 s0. rewrite update_labs_run.
    destruct (cm (configuration_manager s0)) as [[[]|e] c1]; [|reflexivity].
    destruct (update_devices d (device_manager s0)) as [[[]|e] d2]; [|reflexivity].
    now destruct (update_containers d (container_manager s0)) as [r3 k3]. }
  split; [|split].
  - unfold load_labs. apply with_loading_lock_keeps_lock. intros s0. apply Hbody.
  - revert s. unfold unload_labs. apply bind_keeps.
    + intros s. now rewrite checks_keep.
    + intros _. apply with_loading_lock_keeps_lock. intros s0. apply Hbody.
  - revert s. unfold reload_labs. apply bind_keeps.
    + intros s. destruct (reload_device_plugins_run labs s) as [Hres _]. apply Hres.
    + intros _. apply with_loading_lock_keeps_lock. apply critical_section_keeps_lock.
Qed.

(** X14.  [unload_labs] on labs that are not in use does not roll back: the
    configuration is unloaded first; if that raises, devices and containers
    are left alone; if the device manager raises afterwards, the labs stay
    unloaded in the configuration and the containers are left alone; only
    then are the containers updated. *)
Theorem unload_labs_does_not_roll_back (s : Service) (labs : list string)
    (free : forall l, In l labs -> lab_usage l s = Return tt) :
  let run := unload_labs labs s in
  let unloaded := cm_unload_labs labs (configuration_manager s) in
  let devices := update_devices (unloaded_labs labs) (device_manager s) in
  let containers := update_containers (unloaded_labs labs) (container_manager s) in
  configuration_manager (final run) = snd unloaded /\
  (forall e, fst unloaded = Raise e ->
     outcome run = Raise e /\
     device_manager (final run) = device_manager s /\
     container_manager (final run) = container_manager s) /\
  (fst unloaded = Return tt ->
   device_manager (final run) = snd devices /\
   (forall e, fst devices = Raise e ->
      outcome run = Raise e /\ container_manager (final run) = container_manager s) /\
   (fst devices = Return tt ->
    outcome run = fst containers /\ container_manager (final run) = snd containers)).
Proof.
  intros run unloaded devices containers.
  assert (Hchecks : for_each labs check_lab_usage s
                    = (Return tt, s, map CheckedLabUsage labs)).
  { destruct (checks_run labs s) as [r [tr [Hrun [_ [Hok [_ _]]]]]].
    assert (Hr : r = Return tt).
    { clear Hok. revert r tr Hrun. induction labs as [|l labs IH]; intros r tr Hrun.
      - simpl in Hrun. unfold ret in Hrun. now inversion Hrun.
      - rewrite for_each_cons in Hrun. unfold check_lab_usage at 1 in Hrun.
        rewrite (free l (or_introl eq_refl)) in Hrun.
        destruct (for_each labs check_lab_usage s) as [[r2 s2] t2] eqn:Hrest.
        inversion Hrun; subst.
        destruct (checks_run labs s) as [r' [tr' [Hrun' _]]]. rewrite Hrest in Hrun'.
        inversion Hrun'; subst.
        apply (IH (fun l0 H0 => free l0 (or_intror H0)) r' tr' eq_refl). }
    subst r. destruct (Hok eq_refl) as [-> _]. exact Hrun. }
  assert (Hrun : run =
            let '(r, s1, t1) :=
              (call configuration_manager set_configuration (cm_unload_labs labs)
                 (ConfigurationUnloadLabs labs) ;;;
               call device_manager set_devices (update_devices (unloaded_labs labs))
                 (UpdatedDevices (unloaded_labs labs)) ;;;
               call container_manager set_containers
                 (update_containers (unloaded_labs labs))
                 (UpdatedContainers (unloaded_labs labs)))
                (set_lock (S (loading_lock s)) s) in
            (r, set_lock (Nat.pred (loading_lock s1)) s1,
             map CheckedLabUsage labs ++ Acquired :: t1 ++ [Released])).
  { unfold run, unload_labs. unfold bind at 1. rewrite Hchecks.
    rewrite with_loading_lock_run.
    destruct ((call configuration_manager set_configuration (cm_unload_labs labs)
                 (ConfigurationUnloadLabs labs) ;;;
               call device_manager set_devices (update_devices (unloaded_labs labs))
                 (UpdatedDevices (unloaded_labs labs)) ;;;
               call container_manager set_containers
                 (update_containers (unloaded_labs labs))
                 (UpdatedContainers (unloaded_labs labs)))
                (set_lock (S (loading_lock s)) s)) as [[r s1] t1].
    reflexivity. }
  rewrite Hrun. clear Hrun. rewrite update_labs_run. simpl configuration_manager.
  simpl device_manager. simpl container_manager.
  fold unloaded devices containers.
  destruct unloaded as [[[]|e1] c1]; simpl.
  - destruct devices as [[[]|e2] d2]; simpl.
    + destruct containers as [r3 k3]. unfold outcome, final. simpl.
      repeat split; try discriminate; reflexivity.
    + unfold outcome, final. simpl. split; [reflexivity|]. split; [discriminate|].
      intros _. split; [reflexivity|]. split; [|discriminate].
      intros e [= <-]. now split.
  - unfold outcome, final. simpl. split; [reflexivity|]. split; [|discriminate].
    intros e [= <-]. repeat split.
Qed.

(** X15.  [load_labs] proceeds in the same way: configuration, then devices, then
    containers, each step only after the one before returned, all under the
    lock, and with nothing undone when a later step raises. *)
Theorem load_labs_stops_at_first_failure (s : Service) (labs : list string) :
  let run := load_labs labs s in
  let loaded := cm_load_labs labs (configuration_manager s) in
  let devices := update_devices (loaded_labs labs) (device_manager s) in
  let containers := update_containers (loaded_labs labs) (container_manager s) in
  configuration_manager (final run) = snd loaded /\
  (forall e, fst loaded = Raise e ->
     outcome run = Raise e /\
     trace run = [Acquired; ConfigurationLoadLabs labs; Released] /\
     device_manager (final run) = device_manager s /\
     container_manager (final run) = container_manager s) /\
  (fst loaded = Return tt ->
   device_manager (final run) = snd devices /\
   (forall e, fst devices = Raise e ->
      outcome run = Raise e /\
      trace run = [Acquired; ConfigurationLoadLabs labs;
                   UpdatedDevices (loaded_labs labs); Released] /\
      container_manager (final run) = container_manager s) /\
   (fst devices = Return tt ->
    outcome run = fst containers /\
    trace run = [Acquired; ConfigurationLoadLabs labs;
                 UpdatedDevices (loaded_labs labs);
                 UpdatedContainers (loaded_labs labs); Released] /\
    container_manager (final run) = snd containers)).
Proof.
  intros run loaded devices containers.
  assert (Hrun : run =
            let '(r, s1, t1) :=
              (call configuration_manager set_configuration (cm_load_labs labs)
                 (ConfigurationLoadLabs labs) ;;;
               call device_manager set_devices (update_devices (loaded_labs labs))
                 (UpdatedDevices (loaded_labs labs)) ;;;
               call container_manager set_containers
                 (update_containers (loaded_labs labs))
                 (UpdatedContainers (loaded_labs labs)))
                (set_lock (S (loading_lock s)) s) in
            (r, set_lock (Nat.pred (loading_lock s1)) s1, Acquired :: t1 ++ [Released])).
  { unfold run, load_labs. now rewrite with_loading_lock_run. }
  rewrite Hrun. clear Hrun. rewrite update_labs_run.
  simpl configuration_manager. simpl device_manager. simpl container_manager.
  fold loaded devices containers.
  destruct loaded as [[[]|e1] c1]; simpl.
  - destruct devices as [[[]|e2] d2]; simpl.
    + destruct containers as [r3 k3]. unfold outcome, final, trace. simpl.
      repeat split; try discriminate; reflexivity.
    + unfold outcome, final, trace. simpl. split; [reflexivity|]. split; [discriminate|].
      intros _. split; [reflexivity|]. split; [|discriminate].
      intros e [= <-]. repeat split.
  - unfold outcome, final, trace. simpl. split; [reflexivity|]. split; [|discriminate].
    intros e [= <-]. repeat split.
Qed.

(** ** The order of the mutations of [reload_labs] *)

Lemma silent_then {A} (m : Coroutine A) (k : A -> Coroutine unit) (es : list event)
    (s : Service) :
  filter is_mutation (trace (m s)) = [] ->
  (forall a s', exists n,
      filter is_mutation (trace (k a s')) = firstn n es /\
      (outcome (k a s') = Return tt -> filter is_mutation (trace (k a s')) = es)) ->
  exists n,
    filter is_mutation (trace (bind m k s)) = firstn n es /\
    (outcome (bind m k s) = Return tt -> filter is_mutation (trace (bind m k s)) = es).
Proof.
  intros Hm Hk. unfold bind, trace, outcome in *.
  destruct (m s) as [[[a|e] s1] t1]; simpl in *.
  - destruct (Hk a s1) as [n [Hn Hret]]. destruct (k a s1) as [[r s2] t2]. simpl in *.
    exists n. rewrite filter_app, Hm. simpl. now split.
  - exists 0. rewrite Hm. split; [reflexivity | discriminate].
Qed.

Lemma call_then {T : Type} (project : Service -> T) (update : T -> Service -> Service)
    (method : T -> result unit * T) (ev : event) (rest : Coroutine unit)
    (es : list event) (s : Service) :
  is_mutation ev = true ->
  (forall s', exists n,
      filter is_mutation (trace (rest s')) = firstn n es /\
      (outcome (rest s') = Return tt -> filter is_mutation (trace (rest s')) = es)) ->
  exists n,
    filter is_mutation (trace ((call project update method ev ;;; rest) s))
      = firstn n (ev :: es) /\
    (outcome ((call project update method ev ;;; rest) s) = Return tt ->
     filter is_mutation (trace ((call project update method ev ;;; rest) s)) = ev :: es).
Proof.
  intros Hev Hrest. unfold bind. rewrite call_run.
  destruct (fst (method (project s))) as [[]|e].
  - destruct (Hrest (update (snd (method (project s))) s)) as [n [Hn Hret]].
    destruct (rest (update (snd (method (project s))) s)) as [[r s2] t2].
    unfold trace, outcome in *. simpl in *. rewrite Hev.
    exists (S n). simpl. split; [now rewrite Hn|]. intros Hr. now rewrite Hret.
  - exists 1. unfold trace, outcome. simpl. rewrite Hev. split; [reflexivity | discriminate].
Qed.

Lemma plugin_events_silent (tr : list event) :
  forallb is_plugin_event tr = true -> filter is_mutation tr = [].
Proof.
  induction tr as [|e tr IH]; simpl; [reflexivity|].
  intros H. apply andb_true_iff in H. destruct H as [He Htr].
  destruct e; try discriminate; now apply IH.
Qed.

Lemma checks_silent (tr : list event) :
  forallb is_check tr = true -> filter is_mutation tr = [].
Proof.
  induction tr as [|e tr IH]; simpl; [reflexivity|].
  intros H. apply andb_true_iff in H. destruct H as [He Htr].
  destruct e; try discriminate; now apply IH.
Qed.

(** X16.  The mutations of [reload_labs] come in one fixed order (unload the
    labs, their devices, their containers, load the labs, their devices,
    their containers, load the dependent experiment types), and a call stops
    at the first step that raises: what it did is an initial part of that
    list, and the whole list when it returns.  Nothing is undone. *)
Theorem reload_labs_mutations_in_order (s : Service) (lab_types : list string) :
  let run := reload_labs lab_types s in
  let dependents :=
    get_experiments_for_labs lab_types (experiments (configuration_manager s)) in
  let steps :=
    [ConfigurationUnloadLabs lab_types;
     UpdatedDevices (unloaded_labs lab_types);
     UpdatedContainers (unloaded_labs lab_types);
     ConfigurationLoadLabs lab_types;
     UpdatedDevices (loaded_labs lab_types);
     UpdatedContainers (loaded_labs lab_types)] ++
    match dependents with
    | [] => []
    | _ => [ConfigurationLoadExperiments dependents]
    end in
  (exists n : nat, filter is_mutation (trace run) = firstn n steps) /\
  (outcome run = Return tt -> filter is_mutation (trace run) = steps).
Proof.
  intros run dependents steps.
  assert (Hcrit : forall s0 : Service,
            configuration_manager s0 = configuration_manager s ->
            exists n,
              filter is_mutation (trace (reload_labs_critical_section lab_types s0))
                = firstn n steps /\
              (outcome (reload_labs_critical_section lab_types s0) = Return tt ->
               filter is_mutation (trace (reload_labs_critical_section lab_types s0))
                 = steps)).
  { intros s0 Hcfg. unfold reload_labs_critical_section.
    rewrite bind_get, Hcfg. fold dependents.
    assert (Hdep : forall s' : Service,
              exists n,
                filter is_mutation (trace (load_experiments dependents s'))
                  = firstn n match dependents with
                             | [] => []
                             | _ => [ConfigurationLoadExperiments dependents]
                             end /\
                (outcome (load_experiments dependents s') = Return tt ->
                 filter is_mutation (trace (load_experiments dependents s'))
                   = match dependents with
                     | [] => []
                     | _ => [ConfigurationLoadExperiments dependents]
                     end)).
    { intros s'. unfold load_experiments. destruct dependents as [|d ds].
      - exists 0. now split.
      - rewrite call_run. exists 1. unfold trace. simpl. now split. }
    apply silent_then.
    { destruct (checks_run lab_types s0) as [r [tr [Hrun [Hchk _]]]].
      rewrite Hrun. now apply checks_silent. }
    intros _ s1.
    repeat (apply call_then; [reflexivity | intros ?s]).
    apply Hdep. }
  unfold run. rewrite reload_labs_run.
  destruct (reload_device_plugins_run lab_types s) as [Hres Hev].
  destruct (reload_device_plugins lab_types s) as [[[[]|e] s_p] t_p];
    unfold final, trace in Hres, Hev; simpl in Hres, Hev.
  - destruct (Hcrit (set_lock (S (loading_lock s_p)) s_p)) as [n [Hn Hret]].
    { simpl. apply Hres. }
    destruct (reload_labs_critical_section lab_types (set_lock (S (loading_lock s_p)) s_p))
      as [[r s1] t1].
    unfold trace, outcome in *. simpl in *.
    rewrite filter_app, (plugin_events_silent t_p Hev). simpl.
    rewrite filter_app. simpl. rewrite app_nil_r.
    split; [now exists n | exact Hret].
  - unfold trace, outcome. simpl. rewrite (plugin_events_silent t_p Hev).
    split; [now exists 0 | discriminate].
Qed.

(** ** The dependent experiment types as a set *)

Lemma set_add_NoDup (x : string) (xs : list string) : NoDup xs -> NoDup (set_add x xs).
Proof.
  intros H. unfold set_add. destruct (mem x xs) eqn:E; [exact H|].
  apply mem_not_In in E. apply NoDup_app; [exact H | repeat constructor; auto |].
  intros k Hk [<- | []]. contradiction.
Qed.

Lemma dependents_NoDup (lab_types : list string)
    (configured : list (string * ExperimentConfig)) :
  NoDup (get_experiments_for_labs lab_types configured).
Proof.
  unfold get_experiments_for_labs.
  assert (H : forall acc, NoDup acc ->
            NoDup (fold_left
                     (fun experiments_to_reload item =>
                        if depends_on lab_types (snd item)
                        then set_add (fst item) experiments_to_reload
                        else experiments_to_reload) configured acc)).
  { induction configured as [|[t c] configured IH]; intros acc Hacc; simpl; [exact Hacc|].
    apply IH. destruct (depends_on lab_types c); [now apply set_add_NoDup | exact Hacc]. }
  apply H. constructor.
Qed.

Lemma dependents_members (lab_types : list string)
    (configured : list (string * ExperimentConfig)) (t : string) :
  In t (get_experiments_for_labs lab_types configured) <->
  exists config, In (t, config) configured /\
                 exists l, In l lab_types /\ In l (config_labs config).
Proof.
  rewrite get_experiments_for_labs_spec.
  split; intros [c [Hin Hc]]; exists c; (split; [exact Hin|]); now apply depends_on_spec.
Qed.

(** X17.  The experiment types to reload form a set, whose members do not
    depend on the order in which the labs and the items of the configuration
    are iterated: no type is in it twice; a type is in it exactly when one
    of the labs is among the labs of its configuration; and the same labs
    and the same items, taken in any other order, give the same types up to
    their order. *)
Theorem dependents_form_a_set (lab_types : list string)
    (configured : list (string * ExperimentConfig)) :
  NoDup (get_experiments_for_labs lab_types configured) /\
  (forall t,
     In t (get_experiments_for_labs lab_types configured) <->
     exists config, In (t, config) configured /\
                    exists l, In l lab_types /\ In l (config_labs config)) /\
  (forall lab_types' configured',
     (forall l, In l lab_types <-> In l lab_types') ->
     (forall item, In item configured <-> In item configured') ->
     Permutation (get_experiments_for_labs lab_types configured)
                 (get_experiments_for_labs lab_types' configured')).
Proof.
  split; [apply dependents_NoDup|]. split; [apply dependents_members|].
  intros lab_types' configured' Hlabs Hitems.
  apply NoDup_Permutation; [apply dependents_NoDup | apply dependents_NoDup |].
  intros t. rewrite !dependents_members. split.
  - intros [config [Hin [l [Hl Hc]]]]. exists config. split; [now apply Hitems|].
    exists l. split; [now apply Hlabs | exact Hc].
  - intros [config [Hin [l [Hl Hc]]]]. exists config. split; [now apply Hitems|].
    exists l. split; [now apply Hlabs | exact Hc].
Qed.

(** ** What blocks a lab *)

(** X18.  Only RUNNING experiments and active standalone tasks block a lab: with
    no RUNNING experiment, a lab is free as soon as every task that has a
    device in it belongs to an experiment or is neither RUNNING nor
    CREATED. *)
Theorem only_standalone_tasks_block (lab_id : string) (s : Service)
    (none_running : get_experiments EXPERIMENT_RUNNING s = [])
    (tasks : forall task,
       In task (task_table s) -> uses_device lab_id None task = true ->
       standalone task = false \/
       (task_status task <> TASK_RUNNING /\ task_status task <> TASK_CREATED)) :
  lab_usage lab_id s = Return tt /\
  check_tasks_using_devices lab_id None s = [] /\
  (forall device_ids, check_tasks_using_devices lab_id (Some device_ids) s = []).
Proof.
  assert (Hsome : forall ids task,
            uses_device lab_id (Some ids) task = true ->
            uses_device lab_id None task = true).
  { intros ids task. unfold uses_device. rewrite !existsb_exists.
    intros [d [Hd Hl]]. exists d. split; [exact Hd|].
    apply andb_true_iff in Hl. destruct Hl as [Hl _]. now rewrite Hl. }
  assert (Hnone : forall ids,
            (ids = None \/ exists l, ids = Some l) ->
            check_tasks_using_devices lab_id ids s = []).
  { intros ids Hids. unfold check_tasks_using_devices.
    destruct (filter _ _) as [|t ts] eqn:Hf; [reflexivity|]. exfalso.
    assert (Hin : In t (t :: ts)) by now left.
    rewrite <- Hf in Hin. apply filter_In in Hin. destruct Hin as [Hin Hp].
    apply andb_true_iff in Hp. destruct Hp as [Hsa Huse].
    assert (Huse' : uses_device lab_id None t = true).
    { destruct Hids as [-> | [l ->]]; [exact Huse | now apply (Hsome l)]. }
    apply in_app_or in Hin. unfold get_tasks in Hin.
    destruct Hin as [Hin | Hin]; apply filter_In in Hin; destruct Hin as [Hin Hst];
      apply task_status_eqb_eq in Hst;
      destruct (tasks t Hin Huse') as [H | [H1 H2]]; congruence. }
  split; [|split].
  - unfold lab_usage, check_experiments_using_lab. rewrite none_running. simpl.
    now rewrite (Hnone None (or_introl eq_refl)).
  - apply Hnone. now left.
  - intros ids. apply Hnone. right. now exists ids.
Qed.

End Facts.
End LoadingMore.

(* ================================================================== *)
(** * Devices, experiment types and task plugins: proofs *)

Module ReconfigurationFacts.
Import Loading Reconfiguration.

Section Facts.
Context {Configuration Plugins Devices Containers : Type}
        {managers : Managers Configuration Plugins Devices Containers}
        {device_managers : DeviceManagers Configuration Devices}.

Abbreviation Service := (LoadingService Configuration Plugins Devices Containers).

Lemma invoke_run {T : Type} (project : Service -> T) (update : T -> Service -> Service)
    (method : T -> result unit * T) (e : step) (s : Service) :
  invoke project update method e s =
  (fst (method (project s)), update (snd (method (project s))) s, [e]).
Proof. unfold invoke. now destruct (method (project s)). Qed.

Lemma locked_run {A} (body : Coroutine A) (s : Service) :
  locked body s =
  (outcome (body (set_lock (S (loading_lock s)) s)),
   set_lock (Nat.pred (loading_lock (final (body (set_lock (S (loading_lock s)) s)))))
     (final (body (set_lock (S (loading_lock s)) s))),
   Guard Acquired :: trace (body (set_lock (S (loading_lock s)) s)) ++ [Guard Released]).
Proof.
  unfold locked, finally, bind, modify, emit, outcome, final, trace.
  now destruct (body (set_lock (S (loading_lock s)) s)) as [[r s1] t1].
Qed.

Lemma usage_checks_quiet (tr : list step) :
  forallb is_usage_check tr = true -> existsb takes_lock tr = false.
Proof.
  induction tr as [|e tr IH]; [reflexivity|]. simpl. intros H.
  apply andb_true_iff in H. destruct H as [He Htr]. rewrite (IH Htr). now destruct e.
Qed.

(** A loop of checks that only read the service. *)
Lemma pure_checks_run {A : Type} (check : A -> Service -> result unit) (ev : A -> step)
    (xs : list A) (s : Service) :
  (forall x, is_usage_check (ev x) = true) ->
  exists r tr,
    for_each xs (fun x s0 => (check x s0, s0, [ev x])) s = (r, s, tr) /\
    forallb is_usage_check tr = true /\
    ((forall x, In x xs -> check x s = Return tt) -> r = Return tt /\ tr = map ev xs) /\
    (forall x, In x xs -> check x s = Raise EosExperimentTypeInUseError ->
       (forall y, In y xs -> check y s = Return tt \/
                             check y s = Raise EosExperimentTypeInUseError) ->
       r = Raise EosExperimentTypeInUseError).
Proof.
  intros Hev. induction xs as [|x xs IH].
  - exists (Return tt), []. split; [reflexivity|]. split; [reflexivity|].
    split; [now split | intros x []].
  - rewrite for_each_cons. unfold bind. destruct (check x s) as [[]|e] eqn:Hx.
    + destruct IH as [r [tr [Hrun [Hchk [Hok Hflag]]]]]. rewrite Hrun.
      exists r, (ev x :: tr). split; [reflexivity|]. split; [simpl; now rewrite Hev|].
      split.
      * intros Hall. destruct Hok as [-> ->]; [intros; apply Hall; now right|].
        now split.
      * intros y [<- | Hy] Hfl Hall; [congruence|].
        apply (Hflag y Hy Hfl). intros z Hz. apply Hall. now right.
    + exists (Raise e), [ev x]. split; [reflexivity|]. split; [simpl; now rewrite Hev|].
      split.
      * intros Hall. rewrite (Hall x (or_introl eq_refl)) in Hx. discriminate.
      * intros y _ _ Hall. destruct (Hall x (or_introl eq_refl)); congruence.
Qed.

Lemma experiment_usage_cases (t : string) (s : Service) :
  experiment_usage t s = Return tt \/
  experiment_usage t s = Raise EosExperimentTypeInUseError.
Proof. unfold experiment_usage. destruct (running_of_type t s); [now left | now right]. Qed.

Lemma experiment_usage_flags (t : string) (s : Service) :
  experiment_usage t s = Raise EosExperimentTypeInUseError <->
  exists e, In e (experiment_table s) /\
            experiment_status e = EXPERIMENT_RUNNING /\ experiment_type e = t.
Proof.
  unfold experiment_usage, running_of_type. split.
  - destruct (filter _ _) as [|e l] eqn:Hf; [discriminate|]. intros _.
    assert (Hin : In e (e :: l)) by now left.
    rewrite <- Hf in Hin. apply filter_In in Hin. destruct Hin as [Hin Hp].
    apply andb_true_iff in Hp. destruct Hp as [Hst Hty].
    exists e. split; [exact Hin|]. split.
    + destruct (experiment_status e); simpl in Hst; congruence.
    + now apply String.eqb_eq.
  - intros [e [Hin [Hst Hty]]].
    destruct (filter _ _) as [|e' l] eqn:Hf; [|reflexivity]. exfalso.
    assert (He : In e []).
    { rewrite <- Hf. apply filter_In. split; [exact Hin|].
      rewrite Hst, Hty. simpl. apply String.eqb_refl. }
    contradiction.
Qed.

Lemma experiment_usage_free (types : list string) (s : Service) :
  (forall t, In t types -> running_of_type t s = []) ->
  forall t, In t types -> experiment_usage t s = Return tt.
Proof. intros Hfree t Ht. unfold experiment_usage. now rewrite (Hfree t Ht). Qed.

Lemma task_usage_cases (t : string) (s : Service) :
  task_usage t s = Return tt \/ task_usage t s = Raise EosExperimentTypeInUseError.
Proof. unfold task_usage. destruct (_ ++ _); [now left | now right]. Qed.

Lemma experiment_checks_run (types : list string) (s : Service) :
  exists r tr,
    for_each types check_experiment_usage s = (r, s, tr) /\
    forallb is_usage_check tr = true /\
    ((forall t, In t types -> running_of_type t s = []) ->
     r = Return tt /\ tr = map CheckedExperimentUsage types) /\
    (forall t e,
       In t types -> In e (experiment_table s) ->
       experiment_status e = EXPERIMENT_RUNNING -> experiment_type e = t ->
       r = Raise EosExperimentTypeInUseError).
Proof.
  destruct (pure_checks_run experiment_usage CheckedExperimentUsage types s)
    as [r [tr [Hrun [Hchk [Hok Hflag]]]]]; [reflexivity|].
  exists r, tr. split; [exact Hrun|]. split; [exact Hchk|]. split.
  - intros Hfree. apply Hok. now apply experiment_usage_free.
  - intros t e Hin He Hst Hty. apply (Hflag t Hin).
    + apply experiment_usage_flags. now exists e.
    + intros y _. apply experiment_usage_cases.
Qed.

(** X19.  [unload_experiments] never takes the loading lock.  A type with a
    RUNNING experiment makes it raise [EosExperimentTypeInUseError] with the
    service as it was, whichever place the type has in the set; with no such
    type, it does what [configuration_manager.unload_experiments] does. *)
Theorem unload_experiments_checks_without_lock (s : Service) (types : list string) :
  let run := unload_experiments types s in
  existsb takes_lock (trace run) = false /\
  loading_lock (final run) = loading_lock s /\
  (forall t e,
     In t types -> In e (experiment_table s) ->
     experiment_status e = EXPERIMENT_RUNNING -> experiment_type e = t ->
     outcome run = Raise EosExperimentTypeInUseError /\ final run = s /\
     forallb is_usage_check (trace run) = true) /\
  ((forall t, In t types -> running_of_type t s = []) ->
   outcome run = fst (cm_unload_experiments types (configuration_manager s)) /\
   configuration_manager (final run)
     = snd (cm_unload_experiments types (configuration_manager s)) /\
   trace run = map CheckedExperimentUsage types ++ [ConfigurationUnloadExperiments types]).
Proof.
  intros run.
  destruct (experiment_checks_run types s) as [r [tr [Hrun [Hchk [Hok Hflag]]]]].
  assert (Heq : unload_experiments types s =
                match r with
                | Return _ =>
                    (fst (cm_unload_experiments types (configuration_manager s)),
                     set_configuration
                       (snd (cm_unload_experiments types (configuration_manager s))) s,
                     tr ++ [ConfigurationUnloadExperiments types])
                | Raise e => (Raise e, s, tr)
                end).
  { unfold unload_experiments, bind. rewrite Hrun. destruct r; [|reflexivity].
    now rewrite invoke_run. }
  unfold run. rewrite Heq. clear Heq run.
  pose proof (usage_checks_quiet tr Hchk) as Hquiet.
  split.
  { destruct r; unfold trace; simpl; [|exact Hquiet].
    rewrite existsb_app, Hquiet. reflexivity. }
  split; [now destruct r|]. split.
  - intros t e Hin He Hst Hty. rewrite (Hflag t e Hin He Hst Hty).
    unfold outcome, final, trace. simpl. now repeat split.
  - intros Hfree. destruct (Hok Hfree) as [-> ->].
    unfold outcome, final, trace. simpl. now repeat split.
Qed.

Lemma reload_experiments_run (types : list string) (s : Service) (r : result unit)
    (tr : list step) :
  for_each types check_experiment_usage (set_lock (S (loading_lock s)) s)
    = (r, set_lock (S (loading_lock s)) s, tr) ->
  reload_experiments types s =
  match r with
  | Raise e => (Raise e, s, Guard Acquired :: tr ++ [Guard Released])
  | Return _ =>
      match fst (cm_unload_experiments types (configuration_manager s)) with
      | Raise e =>
          (Raise e,
           set_configuration (snd (cm_unload_experiments types (configuration_manager s))) s,
           Guard Acquired
             :: (tr ++ [ConfigurationUnloadExperiments types]) ++ [Guard Released])
      | Return _ =>
          (fst (cm_load_experiments types
                  (snd (cm_unload_experiments types (configuration_manager s)))),
           set_configuration
             (snd (cm_load_experiments types
                     (snd (cm_unload_experiments types (configuration_manager s))))) s,
           Guard Acquired
             :: (tr ++ [ConfigurationUnloadExperiments types;
                        Guard (ConfigurationLoadExperiments types)]) ++ [Guard Released])
      end
  end.
Proof.
  intros Hrun. unfold reload_experiments. rewrite locked_run.
  unfold bind. rewrite Hrun. destruct r as [[]|e].
  - rewrite invoke_run. simpl configuration_manager.
    destruct (cm_unload_experiments types (configuration_manager s)) as [[[]|e1] c1].
    + rewrite invoke_run. unfold outcome, final, trace. simpl.
      destruct (cm_load_experiments types c1) as [r2 c2]. simpl. now destruct s.
    + unfold outcome, final, trace. simpl. now destruct s.
  - unfold outcome, final, trace. simpl. now destruct s.
Qed.

(** X20.  [reload_experiments] checks, unloads and loads in one critical section
    and leaves the lock as it found it.  A type with a RUNNING experiment is
    refused with the service as it was.  Otherwise the types are unloaded
    and then loaded; when the load raises, the types stay unloaded: nothing
    is rolled back. *)
Theorem reload_experiments_in_one_critical_section (s : Service) (types : list string) :
  let run := reload_experiments types s in
  let unloaded := cm_unload_experiments types (configuration_manager s) in
  let loaded := cm_load_experiments types (snd unloaded) in
  loading_lock (final run) = loading_lock s /\
  (exists body, trace run = Guard Acquired :: body ++ [Guard Released] /\
                existsb takes_lock body = false) /\
  (forall t e,
     In t types -> In e (experiment_table s) ->
     experiment_status e = EXPERIMENT_RUNNING -> experiment_type e = t ->
     outcome run = Raise EosExperimentTypeInUseError /\ final run = s) /\
  ((forall t, In t types -> running_of_type t s = []) ->
   (forall e, fst unloaded = Raise e ->
      outcome run = Raise e /\ configuration_manager (final run) = snd unloaded) /\
   (fst unloaded = Return tt ->
    outcome run = fst loaded /\
    configuration_manager (final run) = snd loaded /\
    trace run =
      Guard Acquired :: map CheckedExperimentUsage types ++
      [ConfigurationUnloadExperiments types;
       Guard (ConfigurationLoadExperiments types); Guard Released])).
Proof.
  intros run unloaded loaded.
  destruct (experiment_checks_run types (set_lock (S (loading_lock s)) s))
    as [r [tr [Hrun [Hchk [Hok Hflag]]]]].
  pose proof (reload_experiments_run types s r tr Hrun) as Heq.
  pose proof (usage_checks_quiet tr Hchk) as Hquiet.
  unfold run. rewrite Heq. clear Heq run. fold unloaded. fold loaded.
  split.
  { destruct r as [[]|e]; [|reflexivity]. now destruct (fst unloaded) as [[]|e]. }
  split.
  { destruct r as [[]|e].
    - destruct (fst unloaded) as [[]|e]; unfold trace; simpl;
        (eexists; split; [reflexivity|]); rewrite existsb_app, Hquiet; reflexivity.
    - unfold trace; simpl. now exists tr. }
  split.
  - intros t e Hin He Hst Hty. rewrite (Hflag t e Hin He Hst Hty). now split.
  - intros Hfree. destruct (Hok Hfree) as [-> ->]. split.
    + intros e He. rewrite He. now split.
    + intros He. rewrite He. unfold outcome, final, trace. simpl.
      split; [reflexivity|]. split; [reflexivity|]. now rewrite <- app_assoc.
Qed.

Lemma task_checks_run (types : list string) (s : Service) :
  exists r tr,
    for_each types check_task_usage s = (r, s, tr) /\
    forallb is_usage_check tr = true /\
    ((forall t, In t types -> task_usage t s = Return tt) ->
     r = Return tt /\ tr = map CheckedTaskUsage types) /\
    (forall t, In t types -> task_usage t s = Raise EosExperimentTypeInUseError ->
       r = Raise EosExperimentTypeInUseError).
Proof.
  destruct (pure_checks_run task_usage CheckedTaskUsage types s)
    as [r [tr [Hrun [Hchk [Hok Hflag]]]]]; [reflexivity|].
  exists r, tr. split; [exact Hrun|]. split; [exact Hchk|]. split; [exact Hok|].
  intros t Hin Ht. apply (Hflag t Hin Ht). intros y _. apply task_usage_cases.
Qed.

(** The second loop of [reload_task_plugins]: the plugins are reloaded in
    the order of the list, up to and including the first one that raises. *)
Lemma reload_loop_run (types : list string) (s : Service) :
  exists r reloaded,
    for_each types
      (fun task_type =>
         invoke configuration_manager set_configuration (tasks_reload_plugin task_type)
           (ReloadedTaskPlugin task_type)) s
    = (r,
       set_configuration
         (fold_left (fun c t => snd (tasks_reload_plugin t c)) reloaded
            (configuration_manager s)) s,
       map ReloadedTaskPlugin reloaded) /\
    ((r = Return tt /\ reloaded = types) \/
     (exists pre t post e,
        types = pre ++ t :: post /\ reloaded = pre ++ [t] /\ r = Raise e /\
        fst (tasks_reload_plugin t
               (fold_left (fun c t => snd (tasks_reload_plugin t c)) pre
                  (configuration_manager s))) = Raise e)).
Proof.
  revert s. induction types as [|t types IH]; intros s.
  - exists (Return tt), []. split; [now destruct s | now left].
  - rewrite for_each_cons, invoke_run.
    destruct (tasks_reload_plugin t (configuration_manager s)) as [[[]|e] c1] eqn:Ht.
    + cbn [fst snd].
      destruct (IH (set_configuration c1 s)) as [r [reloaded [Hrun Hcases]]].
      rewrite Hrun. exists r, (t :: reloaded). split.
      * cbn [fold_left map app]. rewrite Ht. now destruct s.
      * destruct Hcases as [[-> ->] | [pre [t' [post [e [-> [-> [-> He]]]]]]]];
          [now left | right].
        exists (t :: pre), t', post, e. repeat split.
        cbn [fold_left]. rewrite Ht. exact He.
    + cbn [fst snd]. exists (Raise e), [t]. split.
      * cbn [fold_left map]. now rewrite Ht.
      * right. exists [], t, types, e. repeat split. cbn [fold_left]. now rewrite Ht.
Qed.

(** X21.  [reload_task_plugins] checks every listed type before it reloads any.
    When one of them has a RUNNING or CREATED task, the call raises
    [EosExperimentTypeInUseError] and no plugin was reloaded, not even of
    the types listed before it.  When none has, the plugins are reloaded in
    the order given; a reload that raises ends the call, and the reloads
    done before it stay as they are. *)
Theorem reload_task_plugins_checks_all_first (s : Service) (types : list string) :
  let run := reload_task_plugins types s in
  let reload_all := fold_left (fun c t => snd (tasks_reload_plugin t c)) in
  loading_lock (final run) = loading_lock s /\
  (forall t,
     In t types ->
     get_tasks_of_type TASK_RUNNING t (task_table s)
       ++ get_tasks_of_type TASK_CREATED t (task_table s) <> [] ->
     outcome run = Raise EosExperimentTypeInUseError /\ final run = s /\
     exists checks, trace run = Guard Acquired :: checks ++ [Guard Released] /\
                    forallb is_usage_check checks = true) /\
  ((forall t, In t types ->
      get_tasks_of_type TASK_RUNNING t (task_table s)
        ++ get_tasks_of_type TASK_CREATED t (task_table s) = []) ->
   (outcome run = Return tt /\
    configuration_manager (final run) = reload_all types (configuration_manager s) /\
    trace run =
      Guard Acquired :: map CheckedTaskUsage types ++ map ReloadedTaskPlugin types
        ++ [Guard Released]) \/
   (exists pre t post e,
      types = pre ++ t :: post /\
      fst (tasks_reload_plugin t (reload_all pre (configuration_manager s))) = Raise e /\
      outcome run = Raise e /\
      configuration_manager (final run)
        = reload_all (pre ++ [t]) (configuration_manager s) /\
      trace run =
        Guard Acquired :: map CheckedTaskUsage types ++ map ReloadedTaskPlugin (pre ++ [t])
          ++ [Guard Released])).
Proof.
  intros run reload_all.
  destruct (task_checks_run types (set_lock (S (loading_lock s)) s))
    as [r [tr [Hrun [Hchk [Hok Hflag]]]]].
  destruct (reload_loop_run types (set_lock (S (loading_lock s)) s))
    as [r2 [reloaded [Hloop Hcases]]].
  assert (Heq : reload_task_plugins types s =
                match r with
                | Raise e => (Raise e, s, Guard Acquired :: tr ++ [Guard Released])
                | Return _ =>
                    (r2,
                     set_configuration (reload_all reloaded (configuration_manager s)) s,
                     Guard Acquired
                       :: (tr ++ map ReloadedTaskPlugin reloaded) ++ [Guard Released])
                end).
  { unfold reload_task_plugins. rewrite locked_run. unfold bind. rewrite Hrun.
    destruct r as [[]|e].
    - rewrite Hloop. unfold outcome, final, trace. simpl. now destruct s.
    - unfold outcome, final, trace. simpl. now destruct s. }
  unfold run. rewrite Heq. clear Heq run.
  split.
  { now destruct r as [[]|e]. }
  split.
  - intros t Hin Hact.
    rewrite (Hflag t Hin).
    + unfold outcome, final, trace. simpl. split; [reflexivity|]. split; [reflexivity|].
      now exists tr.
    + unfold task_usage. simpl task_table.
      destruct (_ ++ _); [contradiction | reflexivity].
  - intros Hfree. destruct Hok as [-> ->].
    { intros t Ht. unfold task_usage. simpl task_table. now rewrite (Hfree t Ht). }
    unfold outcome, final, trace. simpl.
    destruct Hcases as [[-> ->] | [pre [t [post [e [Htypes [-> [-> He]]]]]]]].
    + left. split; [reflexivity|]. split; [reflexivity|]. now rewrite <- app_assoc.
    + right. exists pre, t, post, e. split; [exact Htypes|]. split; [exact He|].
      split; [reflexivity|]. split; [reflexivity|]. now rewrite <- app_assoc.
Qed.

(** X22.  [reload_devices] works under the lock and gives it back.  A lab that is
    not loaded raises [EosConfigurationError] before any usage check; devices
    in use make the check raise; in both cases the service stays as it was.
    Otherwise the device manager reloads the devices and nothing else
    changes. *)
Theorem reload_devices_guards (s : Service) (lab_id : string) (device_ids : list string) :
  let run := reload_devices lab_id device_ids s in
  let reloaded := dm_reload_devices lab_id device_ids (device_manager s) in
  loading_lock (final run) = loading_lock s /\
  configuration_manager (final run) = configuration_manager s /\
  (mem lab_id (loaded_lab_types (configuration_manager s)) = false ->
   outcome run = Raise EosConfigurationError /\ final run = s /\
   trace run = [Guard Acquired; Guard Released]) /\
  (mem lab_id (loaded_lab_types (configuration_manager s)) = true ->
   (forall e, device_usage lab_id device_ids s = Raise e ->
      outcome run = Raise e /\ final run = s /\
      trace run = [Guard Acquired; CheckedDeviceUsage lab_id device_ids; Guard Released]) /\
   (device_usage lab_id device_ids s = Return tt ->
      outcome run = fst reloaded /\ device_manager (final run) = snd reloaded /\
      trace run = [Guard Acquired; CheckedDeviceUsage lab_id device_ids;
                   ReloadedDevices lab_id device_ids; Guard Released])).
Proof.
  intros run reloaded.
  assert (Heq : reload_devices lab_id device_ids s =
                if mem lab_id (loaded_lab_types (configuration_manager s)) then
                  match device_usage lab_id device_ids s with
                  | Raise e =>
                      (Raise e, s,
                       [Guard Acquired; CheckedDeviceUsage lab_id device_ids;
                        Guard Released])
                  | Return _ =>
                      (fst reloaded, set_devices (snd reloaded) s,
                       [Guard Acquired; CheckedDeviceUsage lab_id device_ids;
                        ReloadedDevices lab_id device_ids; Guard Released])
                  end
                else (Raise EosConfigurationError, s, [Guard Acquired; Guard Released])).
  { unfold reload_devices. rewrite locked_run, bind_get.
    change (configuration_manager (set_lock (S (loading_lock s)) s))
      with (configuration_manager s).
    destruct (mem lab_id (loaded_lab_types (configuration_manager s))).
    - unfold bind, check_device_usage.
      change (device_usage lab_id device_ids (set_lock (S (loading_lock s)) s))
        with (device_usage lab_id device_ids s).
      destruct (device_usage lab_id device_ids s) as [[]|e].
      + rewrite invoke_run. unfold outcome, final, trace. simpl. fold reloaded.
        now destruct s.
      + unfold outcome, final, trace. simpl. now destruct s.
    - unfold raise, outcome, final, trace. simpl. now destruct s. }
  unfold run. rewrite Heq. clear Heq run.
  destruct (mem lab_id (loaded_lab_types (configuration_manager s))).
  - destruct (device_usage lab_id device_ids s) as [[]|e0].
    + split; [reflexivity|]. split; [reflexivity|]. split; [discriminate|].
      intros _. split; [discriminate|]. intros _. now repeat split.
    + split; [reflexivity|]. split; [reflexivity|]. split; [discriminate|].
      intros _. split; [|discriminate]. intros e [= <-]. now repeat split.
  - split; [reflexivity|]. split; [reflexivity|]. split; [|discriminate].
    intros _. now repeat split.
Qed.

Lemma experiments_using_devices_within_lab (c : Configuration) (lab_id : string)
    (device_ids : list string) (running : list Experiment) :
  match experiments_using_lab (experiments c) lab_id running with
  | Raise e => experiments_using_devices c lab_id device_ids running = Raise e
  | Return of_lab =>
      exists of_devices,
        experiments_using_devices c lab_id device_ids running = Return of_devices /\
        incl of_devices of_lab
  end.
Proof.
  induction running as [|x running IH]; simpl.
  - exists []. split; [reflexivity | intros y []].
  - destruct (Dict.get (experiment_type x) (experiments c)) as [config|]; [|reflexivity].
    destruct (experiments_using_lab (experiments c) lab_id running) as [of_lab|e].
    + destruct IH as [of_devices [-> Hincl]].
      destruct (mem lab_id (config_labs config)); simpl.
      * destruct (graph_uses _ _ _); eexists; (split; [reflexivity|]).
        -- intros y [<- | Hy]; [now left | right; now apply Hincl].
        -- intros y Hy. right. now apply Hincl.
      * exists of_devices. now split.
    + now rewrite IH.
Qed.

Lemma tasks_using_devices_within_lab (lab_id : string) (device_ids : list string)
    (s : Service) :
  incl (check_tasks_using_devices lab_id (Some device_ids) s)
       (check_tasks_using_devices lab_id None s).
Proof.
  unfold check_tasks_using_devices. intros t Ht. apply filter_In in Ht.
  destruct Ht as [Hin Hp]. apply filter_In. split; [exact Hin|].
  apply andb_true_iff in Hp. destruct Hp as [-> Huses]. simpl.
  unfold uses_device in *. apply existsb_exists in Huses.
  destruct Huses as [d [Hd Hp]]. apply existsb_exists. exists d. split; [exact Hd|].
  apply andb_true_iff in Hp. destruct Hp as [-> _]. reflexivity.
Qed.

Lemma graph_uses_nil (lab_id : string) (tasks : list GraphTask) :
  graph_uses lab_id [] tasks = false.
Proof.
  unfold graph_uses. induction tasks as [|g gs IH]; [reflexivity|].
  simpl in *. rewrite IH. now rewrite andb_false_r.
Qed.

Lemma uses_device_nil (lab_id : string) (t : Task) :
  uses_device lab_id (Some []) t = false.
Proof.
  unfold uses_device. induction (task_devices t) as [|d ds IH]; [reflexivity|].
  simpl in *. rewrite IH. now rewrite andb_false_r.
Qed.

(** X23.  Whatever keeps [_check_device_usage] from passing for devices of a lab
    keeps [_check_lab_usage] from passing for that lab, with the same
    exception; and a reload of no device at all is never refused for use. *)
Theorem device_usage_within_lab_usage (s : Service) (lab_id : string)
    (device_ids : list string) :
  (forall e, device_usage lab_id device_ids s = Raise e -> lab_usage lab_id s = Raise e) /\
  device_usage lab_id [] s <> Raise EosExperimentTypeInUseError.
Proof.
  split.
  - intros e. unfold device_usage, lab_usage, check_experiments_using_lab.
    pose proof (experiments_using_devices_within_lab (configuration_manager s) lab_id
                  device_ids (get_experiments EXPERIMENT_RUNNING s)) as Hexp.
    pose proof (tasks_using_devices_within_lab lab_id device_ids s) as Htasks.
    destruct (experiments_using_lab _ lab_id _) as [of_lab|e1].
    + destruct Hexp as [of_devices [-> Hincl]].
      destruct of_devices as [|x of_devices].
      * destruct (check_tasks_using_devices lab_id (Some device_ids) s) as [|t ts];
          [discriminate|].
        intros [= <-]. destruct of_lab; [|reflexivity].
        destruct (check_tasks_using_devices lab_id None s); [|reflexivity].
        destruct (Htasks t (or_introl eq_refl)).
      * intros [= <-]. destruct of_lab; [|reflexivity].
        destruct (Hincl x (or_introl eq_refl)).
    + rewrite Hexp. exact (fun H => H).
  - unfold device_usage.
    assert (Hnone : forall running of_devices,
              experiments_using_devices (configuration_manager s) lab_id [] running
                = Return of_devices -> of_devices = []).
    { induction running as [|x running IH]; simpl; intros of_devices.
      - now intros [= <-].
      - destruct (Dict.get _ _); [|discriminate].
        destruct (experiments_using_devices _ lab_id [] running) as [l|]; [|discriminate].
        rewrite graph_uses_nil, andb_false_r. intros [= <-]. now apply IH. }
    destruct (experiments_using_devices _ lab_id [] _) as [l|e] eqn:Hl.
    + rewrite (Hnone _ _ Hl).
      assert (Ht : check_tasks_using_devices lab_id (Some []) s = []).
      { unfold check_tasks_using_devices.
        induction (get_tasks TASK_RUNNING s ++ get_tasks TASK_CREATED s) as [|t ts IHt];
          [reflexivity|]. cbn [filter].
        now rewrite uses_device_nil, andb_false_r. }
      rewrite Ht. discriminate.
    + clear Hnone. revert e Hl.
      induction (get_experiments EXPERIMENT_RUNNING s) as [|x running IH]; simpl;
        intros e; [discriminate|].
      destruct (Dict.get _ _); [|intros [= <-]; discriminate].
      destruct (experiments_using_devices _ lab_id [] running) as [l|e1];
        [discriminate|].
      intros [= <-]. now apply (IH e1).
Qed.

End Facts.
End ReconfigurationFacts.

(* ================================================================== *)
(** * The dynamic parameter template: proofs *)

Module ParametersFacts.
Import Parameters.

Section Facts.
Context {Value : Type} (is_dynamic_parameter : Value -> bool).

Lemma setitem_keys_In {V : Type} (k k' : string) (v : V) (d : list (string * V)) :
  In k' (Dict.keys (Dict.setitem k v d)) <-> k' = k \/ In k' (Dict.keys d).
Proof.
  induction d as [|[k0 v0] d IH]; simpl.
  - intuition congruence.
  - destruct (String.eqb k k0) eqn:E; simpl.
    + apply String.eqb_eq in E. subst. intuition congruence.
    + rewrite IH. intuition congruence.
Qed.

Lemma setitem_items {V : Type} (k k' : string) (v v' : V) (d : list (string * V)) :
  In (k', v') (Dict.setitem k v d) -> (k' = k /\ v' = v) \/ In (k', v') d.
Proof.
  induction d as [|[k0 v0] d IH]; simpl.
  - intros [[= <- <-] | []]. now left.
  - destruct (String.eqb k k0) eqn:E; simpl.
    + intros [[= <- <-] | H]; [now left | right; now right].
    + intros [H | H]; [right; now left|].
      destruct (IH H) as [Hk | Hd]; [now left | right; now right].
Qed.

Lemma get_some_In {V : Type} (k : string) (v : V) (d : list (string * V)) :
  Dict.get k d = Some v -> In (k, v) d.
Proof.
  induction d as [|[k0 v0] d IH]; simpl; [discriminate|].
  destruct (String.eqb k k0) eqn:E.
  - apply String.eqb_eq in E. subst. intros [= ->]. now left.
  - intros H. right. now apply IH.
Qed.

Lemma comprehension_items (params : list (string * Value)) (acc : list (string * string)) :
  (forall name v, In (name, v) acc -> v = "PLACEHOLDER"%string) ->
  let result :=
    fold_left
      (fun comprehension item =>
         if is_dynamic_parameter (snd item)
         then Dict.setitem (fst item) "PLACEHOLDER"%string comprehension
         else comprehension) params acc in
  (forall name v, In (name, v) result -> v = "PLACEHOLDER"%string) /\
  (forall name,
     In name (Dict.keys result) <->
     In name (Dict.keys acc) \/
     exists value, In (name, value) params /\ is_dynamic_parameter value = true).
Proof.
  revert acc. induction params as [|[n value] params IH]; intros acc Hacc; simpl.
  - split; [exact Hacc|]. intros name. split; [now left|].
    intros [H | [value [[] _]]]. exact H.
  - destruct (is_dynamic_parameter value) eqn:Hdyn.
    + destruct (IH (Dict.setitem n "PLACEHOLDER"%string acc)) as [Hvals Hkeys].
      { intros name v Hin. apply setitem_items in Hin.
        destruct Hin as [[_ ->] | Hin]; [reflexivity | now apply (Hacc name)]. }
      split; [exact Hvals|]. intros name. rewrite Hkeys, setitem_keys_In. split.
      * intros [[-> | H] | [value' [Hin Hd]]].
        -- right. exists value. split; [now left | exact Hdyn].
        -- now left.
        -- right. exists value'. split; [now right | exact Hd].
      * intros [H | [value' [[[= <- <-] | Hin] Hd]]].
        -- left. now right.
        -- left. now left.
        -- right. now exists value'.
    + destruct (IH acc Hacc) as [Hvals Hkeys].
      split; [exact Hvals|]. intros name. rewrite Hkeys. split.
      * intros [H | [value' [Hin Hd]]]; [now left|].
        right. exists value'. split; [now right | exact Hd].
      * intros [H | [value' [[[= <- <-] | Hin] Hd]]]; [now left | congruence |].
        right. now exists value'.
Qed.

Lemma task_dynamic_parameters_items (task : TaskConfig) (name v : string) :
  In (name, v) (task_dynamic_parameters is_dynamic_parameter task) <->
  v = "PLACEHOLDER"%string /\
  exists value, In (name, value) (parameters task) /\ is_dynamic_parameter value = true.
Proof.
  destruct (comprehension_items (parameters task) []) as [Hvals Hkeys];
    [intros ? ? []|].
  fold (task_dynamic_parameters is_dynamic_parameter task) in Hvals, Hkeys. split.
  - intros Hin. split; [now apply (Hvals name)|].
    assert (Hk : In name (Dict.keys (task_dynamic_parameters is_dynamic_parameter task))).
    { unfold Dict.keys. apply in_map_iff. now exists (name, v). }
    apply Hkeys in Hk. destruct Hk as [[] | Hk]. exact Hk.
  - intros [-> Hex].
    assert (Hk : In name (Dict.keys (task_dynamic_parameters is_dynamic_parameter task)))
      by (apply Hkeys; now right).
    unfold Dict.keys in Hk. apply in_map_iff in Hk. destruct Hk as [[n v] [Hn Hin]].
    simpl in Hn. subst n. now rewrite <- (Hvals name v Hin).
Qed.

Lemma template_fold (tasks : list TaskConfig)
    (acc : list (string * list (string * string))) :
  let result :=
    fold_left
      (fun dynamic_parameters task =>
         match task_dynamic_parameters is_dynamic_parameter task with
         | [] => dynamic_parameters
         | _ :: _ =>
             Dict.setitem (task_config_id task)
               (task_dynamic_parameters is_dynamic_parameter task) dynamic_parameters
         end) tasks acc in
  (forall i,
     In i (Dict.keys result) <->
     In i (Dict.keys acc) \/
     exists task, In task tasks /\ task_config_id task = i /\
                  task_dynamic_parameters is_dynamic_parameter task <> []) /\
  (forall i entry,
     In (i, entry) result ->
     In (i, entry) acc \/
     exists task, In task tasks /\ task_config_id task = i /\
                  entry = task_dynamic_parameters is_dynamic_parameter task /\
                  entry <> []).
Proof.
  revert acc. induction tasks as [|t tasks IH]; intros acc; simpl.
  - split.
    + intros i. split; [now left | intros [H | [task [[] _]]]; exact H].
    + intros i entry H. now left.
  - destruct (task_dynamic_parameters is_dynamic_parameter t) as [|p ps] eqn:Ht.
    + destruct (IH acc) as [Hkeys Hitems]. split.
      * intros i. rewrite Hkeys. split.
        -- intros [H | [task [Hin Hrest]]]; [now left|].
           right. exists task. split; [now right | exact Hrest].
        -- intros [H | [task [[<- | Hin] [Hid Hne]]]]; [now left | congruence |].
           right. now exists task.
      * intros i entry H. destruct (Hitems i entry H) as [Hacc | [task [Hin Hrest]]];
          [now left|].
        right. exists task. split; [now right | exact Hrest].
    + destruct (IH (Dict.setitem (task_config_id t) (p :: ps) acc)) as [Hkeys Hitems].
      split.
      * intros i. rewrite Hkeys, setitem_keys_In. split.
        -- intros [[-> | H] | [task [Hin Hrest]]].
           ++ right. exists t. split; [now left|]. split; [reflexivity|].
              rewrite Ht. discriminate.
           ++ now left.
           ++ right. exists task. split; [now right | exact Hrest].
        -- intros [H | [task [[<- | Hin] [Hid Hne]]]].
           ++ left. now right.
           ++ left. now left.
           ++ right. now exists task.
      * intros i entry H. destruct (Hitems i entry H) as [Hset | [task [Hin Hrest]]].
        -- apply setitem_items in Hset. destruct Hset as [[-> ->] | Hacc]; [|now left].
           right. exists t. split; [now left|]. split; [reflexivity|].
           rewrite Ht. split; [reflexivity | discriminate].
        -- right. exists task. split; [now right | exact Hrest].
Qed.

(** X24.  [get_experiment_dynamic_params_template] raises [KeyError] for a type
    that is not loaded.  For a loaded type the template has a key for a task
    id exactly when a task with that id has a dynamic parameter; the entry
    under it is the entry of one of these tasks; and an entry holds exactly
    the names of the task's dynamic parameters, each with the value
    [PLACEHOLDER]. *)
Theorem template_lists_dynamic_parameters
    (experiments : list (string * list TaskConfig)) (experiment_type : string) :
  match Dict.get experiment_type experiments with
  | None =>
      get_experiment_dynamic_params_template is_dynamic_parameter experiments
        experiment_type = Raise (KeyError experiment_type)
  | Some tasks =>
      exists template,
        get_experiment_dynamic_params_template is_dynamic_parameter experiments
          experiment_type = Return template /\
        (forall i,
           Dict.contains i template = true <->
           exists task name value,
             In task tasks /\ task_config_id task = i /\
             In (name, value) (parameters task) /\ is_dynamic_parameter value = true) /\
        (forall i entry,
           Dict.get i template = Some entry ->
           exists task,
             In task tasks /\ task_config_id task = i /\
             entry = task_dynamic_parameters is_dynamic_parameter task /\
             forall name v,
               In (name, v) entry <->
               v = "PLACEHOLDER"%string /\
               exists value,
                 In (name, value) (parameters task) /\ is_dynamic_parameter value = true)
  end.
Proof.
  unfold get_experiment_dynamic_params_template.
  destruct (Dict.get experiment_type experiments) as [tasks|]; [|reflexivity].
  eexists. split; [reflexivity|].
  destruct (template_fold tasks []) as [Hkeys Hitems]. split.
  - intros i. rewrite contains_keys, Hkeys. split.
    + intros [[] | [task [Hin [Hid Hne]]]].
      destruct (task_dynamic_parameters is_dynamic_parameter task) as [|[name v] ps] eqn:Ht;
        [congruence|].
      assert (Hp : In (name, v) (task_dynamic_parameters is_dynamic_parameter task))
        by (rewrite Ht; now left).
      apply task_dynamic_parameters_items in Hp. destruct Hp as [_ [value [Hv Hd]]].
      now exists task, name, value.
    + intros [task [name [value [Hin [Hid [Hv Hd]]]]]]. right.
      exists task. split; [exact Hin|]. split; [exact Hid|].
      assert (Hp : In (name, "PLACEHOLDER"%string)
                     (task_dynamic_parameters is_dynamic_parameter task)).
      { apply task_dynamic_parameters_items. split; [reflexivity|]. now exists value. }
      intros Hnil. rewrite Hnil in Hp. contradiction.
  - intros i entry Hget. apply get_some_In in Hget.
    destruct (Hitems i entry Hget) as [[] | [task [Hin [Hid [-> Hne]]]]].
    exists task. split; [exact Hin|]. split; [exact Hid|]. split; [reflexivity|].
    intros name v. apply task_dynamic_parameters_items.
Qed.

End Facts.
End ParametersFacts.

(* ================================================================== *)
(** * The further facts on concrete inputs *)

Module MoreExamples.
Import Scheduling Scripted Loading Store.

Lemma crash_in_the_middle_distinct : NoDup (registry_keys Crashing.crash_in_the_middle).
Proof. repeat constructor; simpl; intuition discriminate. Qed.

Lemma stale_request_distinct : NoDup (registry_keys Crashing.stale_request).
Proof. repeat constructor; simpl; intuition discriminate. Qed.

Lemma both_queued_distinct : NoDup (registry_keys Crashing.both_queued).
Proof. repeat constructor; simpl; intuition discriminate. Qed.

Lemma apply_operations_sum_witness :
  fst (Counter.apply_operations
         [Counter.increment_operation 5;
          {| Counter.action := Some "decrement"; Counter.amount := None;
             Counter.operation_value := None |};
          Counter.increment_operation 1]
         {| Counter.value := 10 |}) = 15%Z.
Proof.
  exact (CounterFacts.apply_operations_sum
           [Counter.increment_operation 5;
            {| Counter.action := Some "decrement"; Counter.amount := None;
               Counter.operation_value := None |};
            Counter.increment_operation 1]
           {| Counter.value := 10 |} eq_refl).
Defined.

Lemma apply_operations_after_set_witness :
  Counter.apply_operations
    ([Counter.increment_operation 5]
       ++ Counter.set_operation 3 :: [Counter.decrement_operation 1])
    {| Counter.value := 10 |}
  = Counter.apply_operations
      (Counter.set_operation 3 :: [Counter.decrement_operation 1])
      {| Counter.value := 77 |}.
Proof.
  exact (CounterFacts.apply_operations_after_set
           [Counter.increment_operation 5] [Counter.decrement_operation 1]
           (Counter.set_operation 3)
           {| Counter.value := 10 |} {| Counter.value := 77 |} eq_refl).
Defined.

Lemma submit_registers_last_witness :
  registry_keys (final (submit_experiment (Scripted.experiment "d" "idle" 3) Scripted.three))
  = ["a"; "b"; "c"; "d"].
Proof.
  pose proof (SchedulingMore.submit_registers_last Scripted.three
                (Scripted.experiment "d" "idle" 3) eq_refl eq_refl eq_refl) as H.
  cbv zeta in H. destruct H as [_ [_ [Hkeys _]]]. exact Hkeys.
Defined.

Lemma stale_cancellation_fails_drain_witness :
  (exists e, outcome (process_experiment_cancellations [] Crashing.stale_request) = Raise e) /\
  registry_keys (final (process_experiment_cancellations [] Crashing.stale_request)) = ["a"].
Proof.
  assert (Hstale : ~ In "gone"%string (registry_keys Crashing.stale_request)).
  { simpl. intuition discriminate. }
  pose proof (SchedulingMore.stale_cancellation_fails_drain Crashing.stale_request []
                "gone" (or_intror (or_introl eq_refl)) Hstale) as H.
  cbv zeta in H. destruct H as [Hraise [_ [Hkeys _]]].
  split; [exact Hraise | exact Hkeys].
Defined.

Lemma clean_drain_returns_witness :
  outcome (process_experiment_cancellations [] Crashing.both_queued) = Return tt /\
  registry_keys (final (process_experiment_cancellations [] Crashing.both_queued)) = [].
Proof.
  assert (Hqueue : NoDup (experiment_cancellation_queue Crashing.both_queued)).
  { repeat constructor; simpl; intuition discriminate. }
  pose proof (SchedulingMore.clean_drain_returns Crashing.both_queued []
                both_queued_distinct Hqueue eq_refl) as H.
  cbv zeta in H. destruct H as [Hout [_ Hkeys]].
  split; [exact Hout | exact Hkeys].
Defined.

Lemma unexpected_exception_halts_tick_witness :
  outcome (process_experiments (ops := Crashing.crashing_ops) Crashing.crash_in_the_middle)
    = Raise (OtherException "crash") /\
  registry_keys
    (final (process_experiments (ops := Crashing.crashing_ops) Crashing.crash_in_the_middle))
    = ["c"; "b"; "a"].
Proof.
  split; [reflexivity|].
  pose proof (SchedulingMore.unexpected_exception_halts_tick (ops := Crashing.crashing_ops)
                Crashing.crash_in_the_middle (OtherException "crash")
                crash_in_the_middle_distinct eq_refl) as H.
  cbv zeta in H. destruct H as [_ [Hkeys _]]. exact Hkeys.
Defined.

Lemma registry_ids_stay_unique_witness :
  NoDup (registry_keys
           (final (submit_experiment (Scripted.experiment "a" "idle" 2) Scripted.three))).
Proof.
  pose proof (SchedulingMore.registry_ids_stay_unique Scripted.three
                SchedulingExamples.three_distinct) as H.
  destruct H as [Hsubmit _]. exact (Hsubmit (Scripted.experiment "a" "idle" 2)).
Defined.

Lemma tick_order_edges_witness :
  NoDup (registry_keys Scripted.three) /\
  (priority_of (Scripted.registered "b" "idle" 1)
   <= priority_of (Scripted.registered "a" "idle" 5))%Z.
Proof.
  split; [exact SchedulingExamples.three_distinct|].
  pose proof (SchedulingMore.tick_order_edges Scripted.three
                SchedulingExamples.three_distinct) as H.
  destruct H as [_ Hfirst].
  exact (Hfirst (Scripted.registered "a" "idle" 5)
           [Scripted.registered "c" "idle" 5; Scripted.registered "b" "idle" 1]
           (Scripted.registered "b" "idle" 1) eq_refl
           (or_intror (or_introl eq_refl))).
Defined.

Lemma unload_labs_does_not_roll_back_witness :
  outcome (unload_labs ["lab1"] Store.idle) = Return tt /\
  device_manager (final (unload_labs ["lab1"] Store.idle)) = [] /\
  container_manager (final (unload_labs ["lab1"] Store.idle)) = [].
Proof.
  assert (Hfree : forall l, In l ["lab1"%string] -> lab_usage l Store.idle = Return tt).
  { intros l [<- | []]. reflexivity. }
  pose proof (LoadingMore.unload_labs_does_not_roll_back Store.idle ["lab1"] Hfree) as H.
  cbv zeta in H. destruct H as [_ [_ H]]. destruct (H eq_refl) as [Hdev [_ Hrest]].
  destruct (Hrest eq_refl) as [Hout Hcont].
  split; [exact Hout|]. split; [exact Hdev | exact Hcont].
Defined.

Lemma only_standalone_tasks_block_witness :
  lab_usage "lab1" Bench.shared_bench = Return tt.
Proof.
  assert (Htasks : forall task,
            In task (task_table Bench.shared_bench) ->
            uses_device "lab1" None task = true ->
            standalone task = false \/
            (task_status task <> TASK_RUNNING /\ task_status task <> TASK_CREATED)).
  { intros task [<- | [<- | [<- | []]]] Huses.
    - now left.
    - right. split; discriminate.
    - discriminate. }
  pose proof (LoadingMore.only_standalone_tasks_block "lab1" Bench.shared_bench
                eq_refl Htasks) as H.
  destruct H as [Hfree _]. exact Hfree.
Defined.

End MoreExamples.
